(** * 99acresClone: the REST handlers of the property, admin and user routes

    A shallow embedding of the Express route handlers
    (property routes, admin routes, [server/routes/user.routes.js]) and of
    the Mongoose [propertySchema], with the properties the specification
    states about them.

    Conventions of the model.
    - A collection is the list of its documents in store order; a stored
      property is the finite map from its schema paths (dotted, as Mongoose
      and express-validator write them) to its values.
    - A request body is the flattening of a JSON object: the finite map
      from the dotted paths of its leaves (booleans, integers, strings,
      and arrays of them) to these leaves, so that a key with a dot
      stands for a leaf of a nested object; arrays of objects are outside
      the model.
    - A query string is the finite map from its keys to their text: each
      parameter is given once, and a key names a parameter. A key given
      several times or with brackets, which the query parser turns into
      an array or an object, is outside the model.
    - JavaScript numbers are exact rationals extended with NaN, the two
      infinities and the negative zero: neither the rounding nor the
      overflow of binary64 is part of the model.
    - Strings are byte strings; white space is the ASCII white space.
    - An identifier is the text of its 24 hexadecimal digits in lower case,
      which is what the cast of a request's spelling yields.
    - Store calls fail only where a cast, a validator or an index rejects
      their argument: connectivity is assumed. *)

From Stdlib Require Import ZArith QArith Qround Ascii String.
From stdpp Require Import gmap strings list pretty sorting.

Open Scope Z_scope.

(** ** JavaScript numbers and coercions *)

Module Js.

Inductive number :=
  | NaN
  | Inf (neg : bool)
  | NegZero
  | Fin (q : Q).

Definition of_Z (z : Z) : number := Fin (inject_Z z).

Definition qneg (q : Q) : bool := Qle_bool q 0 && negb (Qeq_bool q 0).
Definition qzero (q : Q) : bool := Qeq_bool q 0.

(** Sign bit of a number that is not NaN. *)
Definition sign (n : number) : bool :=
  match n with
  | NaN => false
  | Inf s => s
  | NegZero => true
  | Fin q => qneg q
  end.

Definition is_zero (n : number) : bool :=
  match n with
  | NegZero => true
  | Fin q => qzero q
  | _ => false
  end.

Definition zero (s : bool) : number := if s then NegZero else Fin 0.

(** [a * b] *)
Definition mul (a b : number) : number :=
  match a, b with
  | NaN, _ | _, NaN => NaN
  | Inf s, x | x, Inf s =>
      if is_zero x then NaN else Inf (xorb s (sign x))
  | Fin p, Fin q =>
      if qzero p || qzero q then zero (xorb (qneg p) (qneg q)) else Fin (p * q)
  | x, y => zero (xorb (sign x) (sign y))
  end.

(** [a / b] *)
Definition div (a b : number) : number :=
  match a, b with
  | NaN, _ | _, NaN => NaN
  | Inf _, Inf _ => NaN
  | Inf s, x => Inf (xorb s (sign x))
  | x, Inf s => zero (xorb (sign x) s)
  | x, y =>
      if is_zero y then
        if is_zero x then NaN else Inf (xorb (sign x) (sign y))
      else if is_zero x then zero (xorb (sign x) (sign y))
      else match x, y with
           | Fin p, Fin q => Fin (p / q)
           | _, _ => NaN
           end
  end.

Definition neg (a : number) : number :=
  match a with
  | NaN => NaN
  | Inf s => Inf (negb s)
  | NegZero => Fin 0
  | Fin q => if qzero q then NegZero else Fin (- q)
  end.

(** [a + b] *)
Definition add (a b : number) : number :=
  match a, b with
  | NaN, _ | _, NaN => NaN
  | Inf s, Inf t => if Bool.eqb s t then Inf s else NaN
  | Inf s, _ | _, Inf s => Inf s
  | NegZero, x | x, NegZero => x
  | Fin p, Fin q => Fin (p + q)
  end.

(** [a - b] *)
Definition sub (a b : number) : number := add a (neg b).

(** [Math.ceil] *)
Definition ceil (a : number) : number :=
  match a with
  | Fin q =>
      let c := Qceiling q in
      if (c =? 0) && qneg q then NegZero else of_Z c
  | x => x
  end.

(** [a <= b] and [a >= b] on numbers; every comparison with NaN is false. *)
Definition leb (a b : number) : bool :=
  match a, b with
  | NaN, _ | _, NaN => false
  | Inf true, _ | _, Inf false => true
  | Inf false, _ | _, Inf true => false
  | NegZero, NegZero => true
  | NegZero, Fin q => Qle_bool 0 q
  | Fin p, NegZero => Qle_bool p 0
  | Fin p, Fin q => Qle_bool p q
  end.

Definition eqb (a b : number) : bool := leb a b && leb b a.

Definition isNaN (a : number) : bool :=
  match a with NaN => true | _ => false end.

(** *** Text to number: the [StringNumericLiteral] grammar *)

Definition is_space (c : ascii) : bool :=
  let n := nat_of_ascii c in
  ((9 <=? n) && (n <=? 13))%nat || (n =? 32)%nat.

Definition is_digit (c : ascii) : bool :=
  let n := nat_of_ascii c in ((48 <=? n) && (n <=? 57))%nat.

Definition digit_val (c : ascii) : Z := Z.of_nat (nat_of_ascii c) - 48.

Definition hex_val (c : ascii) : option Z :=
  let n := nat_of_ascii c in
  if ((48 <=? n) && (n <=? 57))%nat then Some (Z.of_nat n - 48)
  else if ((97 <=? n) && (n <=? 102))%nat then Some (Z.of_nat n - 87)
  else if ((65 <=? n) && (n <=? 70))%nat then Some (Z.of_nat n - 55)
  else None.

Fixpoint drop_space (l : list ascii) : list ascii :=
  match l with
  | c :: r => if is_space c then drop_space r else l
  | [] => []
  end.

(** [String.prototype.trim] on the characters of a string. *)
Definition trim_chars (l : list ascii) : list ascii :=
  rev (drop_space (rev (drop_space l))).

Definition trim (s : string) : string :=
  string_of_list_ascii (trim_chars (list_ascii_of_string s)).

Fixpoint span_digits (l : list ascii) : list ascii * list ascii :=
  match l with
  | c :: r =>
      if is_digit c then let '(d, t) := span_digits r in (c :: d, t)
      else ([], l)
  | [] => ([], [])
  end.

Definition digits_val (l : list ascii) : Z :=
  fold_left (fun acc c => 10 * acc + digit_val c) l 0.

(** Digits of a literal in base [b]; [None] on a character outside it. *)
Fixpoint radix_val (b : Z) (l : list ascii) (acc : Z) : option Z :=
  match l with
  | [] => Some acc
  | c :: r =>
      match hex_val c with
      | Some d => if d <? b then radix_val b r (b * acc + d) else None
      | None => None
      end
  end.

(** The exponent part: empty, or [e] or [E], an optional sign and digits. *)
Definition exponent (l : list ascii) : option Z :=
  match l with
  | [] => Some 0
  | c :: r =>
      if (c =? "e")%char || (c =? "E")%char then
        let '(s, r') :=
          match r with
          | "-"%char :: t => (true, t)
          | "+"%char :: t => (false, t)
          | _ => (false, r)
          end in
        match span_digits r' with
        | ((_ :: _) as d, []) => Some (if s then - digits_val d else digits_val d)
        | _ => None
        end
      else None
  end.

(** [m * 10^e] for a mantissa [m >= 0], with the sign of the literal. *)
Definition scaled (sg : bool) (m e : Z) : number :=
  if m =? 0 then zero sg
  else
    let q := if 0 <=? e then inject_Z (m * 10 ^ e)
             else Qmake m (Z.to_pos (10 ^ (- e))) in
    Fin (if sg then - q else q)%Q.

(** An unsigned decimal literal: digits, an optional fraction, an optional
    exponent; at least one digit before or after the point. *)
Definition unsigned_decimal (sg : bool) (l : list ascii) : number :=
  let '(ip, r1) := span_digits l in
  let '(fp, r2) :=
    match r1 with
    | "."%char :: t => span_digits t
    | _ => ([], r1)
    end in
  match ip, fp with
  | [], [] => NaN
  | _, _ =>
      match exponent r2 with
      | Some e =>
          scaled sg (digits_val (ip ++ fp)) (e - Z.of_nat (length fp))
      | None => NaN
      end
  end.

Definition infinity_chars : list ascii := list_ascii_of_string "Infinity".

Definition signed_decimal (sg : bool) (l : list ascii) : number :=
  if bool_decide (l = infinity_chars) then Inf sg else unsigned_decimal sg l.

Definition radix_literal (b : Z) (l : list ascii) : number :=
  match l with
  | [] => NaN
  | _ => match radix_val b l 0 with Some v => of_Z v | None => NaN end
  end.

(** [Number(s)] for a string [s]. *)
Definition StringToNumber (s : string) : number :=
  match trim_chars (list_ascii_of_string s) with
  | [] => Fin 0
  | "+"%char :: r => signed_decimal false r
  | "-"%char :: r => signed_decimal true r
  | "0"%char :: "x"%char :: r | "0"%char :: "X"%char :: r => radix_literal 16 r
  | "0"%char :: "o"%char :: r | "0"%char :: "O"%char :: r => radix_literal 8 r
  | "0"%char :: "b"%char :: r | "0"%char :: "B"%char :: r => radix_literal 2 r
  | l => signed_decimal false l
  end.

End Js.

(** ** JSON leaves and stored values *)

(** A leaf of a JSON body: a boolean, an integer (of magnitude below
    [10^21], which JavaScript prints in positional notation) or a string. *)
Inductive scalar :=
  | SBool (b : bool)
  | SInt (z : Z)
  | SStr (s : string).

Inductive jsval :=
  | VScalar (x : scalar)
  | VArr (l : list scalar).

Coercion VScalar : scalar >-> jsval.

(** [String(x)] *)
Definition ToString (x : scalar) : string :=
  match x with
  | SBool true => "true"
  | SBool false => "false"
  | SInt z => pretty z
  | SStr s => s
  end.

(** [Number(x)] *)
Definition ToNumber (x : scalar) : Js.number :=
  match x with
  | SBool true => Js.of_Z 1
  | SBool false => Js.of_Z 0
  | SInt z => Js.of_Z z
  | SStr s => Js.StringToNumber s
  end.

(** Truthiness of a query value: a string is truthy unless empty. *)
Definition truthy (o : option string) : option string :=
  match o with
  | Some s => if bool_decide (s = "") then None else Some s
  | None => None
  end.

(** An inquiry sub-document of a property. *)
Record inquiry := {
  inq_user : option string;
  inq_message : option string;
  inq_createdAt : Z
}.

(** An image sub-document of a property. *)
Record image := {
  img_url : option string;
  img_public_id : option string
}.

(** Stored values. Dates are milliseconds since the epoch. *)
Inductive bson :=
  | BNull
  | BStr (s : string)
  | BNum (n : Js.number)
  | BBool (b : bool)
  | BOid (i : string)
  | BDate (t : Z)
  | BStrs (l : list string)
  | BNums (l : list Js.number)
  | BInquiries (l : list inquiry)
  | BImages (l : list image).

(** ** Identifiers *)

Definition hex_digit (d : Z) : ascii :=
  ascii_of_nat (Z.to_nat (if d <? 10 then 48 + d else 87 + d)).

Definition lower_hex (c : ascii) : option ascii :=
  hex_digit <$> Js.hex_val c.

Definition byte_hex (c : ascii) : list ascii :=
  let n := Z.of_nat (nat_of_ascii c) in [hex_digit (n / 16); hex_digit (n mod 16)].

(** [new ObjectId(s)] followed by [toString()]: 24 hexadecimal digits are
    lower-cased, 12 bytes are written in hexadecimal, any other string is
    refused. *)
Definition cast_oid (s : string) : option string :=
  let l := list_ascii_of_string s in
  if (length l =? 24)%nat then string_of_list_ascii <$> mapM lower_hex l
  else if (length l =? 12)%nat then
    Some (string_of_list_ascii (flat_map byte_hex l))
  else None.

(** One output row of [$unwind: '$inquiries']: the property, with the
    inquiry that takes the place of its list. *)
Record inquiry_row := {
  row_property : gmap string bson;
  row_inquiry : inquiry
}.

(** ** Users

    Modelled from the spec: the [User] model, whose file is not part of the
    sources; the fields are those the handlers read (identity, profile,
    role, the ordered favorites, the creation time). *)
Record User := {
  user_id : string;
  user_name : string;
  user_email : string;
  user_phone : string;
  user_role : string;
  user_favorites : list string;
  user_createdAt : Z
}.

(** [req.user], as the [protect] middleware leaves it. *)
Record Actor := {
  actor_id : string;
  actor_role : string
}.

(** The two collections. *)
Record Db := {
  users : list User;
  properties : list (gmap string bson)
}.

(** ** The runtime the handlers run on

    What the handlers take from the platform and the deployment: date
    parsing, regular expressions, the indexes of the collection, the
    ordering and the windowing of a cursor. *)
Record Runtime := {
  (** [new Date(s).getTime()], [None] for an invalid date *)
  Date_parse : string -> option Z;
  (** [new RegExp(pattern, "i")], as its [test]; [None] when the pattern
      does not compile *)
  RegExp_i : string -> option (string -> bool);
  (** whether the 2dsphere and text indexes accept a document *)
  index_accepts : gmap string bson -> bool;
  (** [sort(spec)] on a cursor over properties and over users *)
  sort_properties : string -> list (gmap string bson) -> list (gmap string bson);
  sort_users : string -> list User -> list User;
  (** the [$sort] stage, descending on a date *)
  sort_stage : forall A : Type, (A -> Z) -> list A -> list A;
  (** [limit(n).skip(m)] on a cursor; [None] when the driver refuses the
      window *)
  window : forall A : Type, Js.number -> Js.number -> list A -> option (list A)
}.

(** What every [$sort] stage guarantees: the same rows, latest first; the
    order of rows of equal date is left to the store. *)
Record sorts_descending (rt : Runtime) : Prop := {
  sort_stage_perm :
    forall A (key : A -> Z) (l : list A), sort_stage rt A key l ≡ₚ l;
  sort_stage_sorted :
    forall A (key : A -> Z) (l : list A),
      Sorted (fun x y => key y <= key x) (sort_stage rt A key l)
}.

(** ** Request validation (express-validator) *)

Module Validator.

(** A field error: the path and the message of the failed check. *)
Record field_error := {
  err_param : string;
  err_msg : string
}.

(** The text the standard validators see: the empty string for an absent
    field. *)
Definition toString (o : option scalar) : string :=
  match o with
  | Some x => ToString x
  | None => ""
  end.

(** The values a chain runs on: the elements of an array, else the field
    itself. *)
Definition instances (o : option jsval) : list (option scalar) :=
  match o with
  | Some (VArr l) => Some <$> l
  | Some (VScalar x) => [Some x]
  | None => [None]
  end.

Definition notEmpty (s : string) : bool := negb (bool_decide (s = "")).

Definition isIn (values : list string) (s : string) : bool :=
  bool_decide (s ∈ values).

(** [isNumeric]: an optional sign, an optional run of digits closed by a
    point, then at least one digit. *)
Definition isNumeric (s : string) : bool :=
  let l := list_ascii_of_string s in
  let l := match l with
           | "+"%char :: r | "-"%char :: r => r
           | _ => l
           end in
  let '(d, r) := Js.span_digits l in
  match r with
  | [] => negb (bool_decide (d = []))
  | "."%char :: t =>
      match Js.span_digits t with
      | ((_ :: _), []) => true
      | _ => false
      end
  | _ => false
  end.

(** The sanitizer [trim()]: the field, or each element of an array, is
    replaced by its trimmed text. An absent field fails the chain that
    trims it, and the handler then answers without reading the body. *)
Definition sanitize_trim (o : option jsval) : option jsval :=
  match o with
  | Some (VArr l) => Some (VArr ((fun x => SStr (Js.trim (ToString x))) <$> l))
  | Some (VScalar x) => Some (VScalar (SStr (Js.trim (ToString x))))
  | None => None
  end.

(** One chain of the validation set. *)
Inductive chain :=
  | TrimNotEmpty
  | IsIn (values : list string)
  | IsNumeric.

Definition check (c : chain) (o : option scalar) : bool :=
  match c with
  | TrimNotEmpty => notEmpty (Js.trim (toString o))
  | IsIn values => isIn values (toString o)
  | IsNumeric => isNumeric (toString o)
  end.

(** The errors of one chain on one field: one per failing instance. *)
Definition run_chain (body : gmap string jsval)
    (rule : string * chain * string) : list field_error :=
  let '(path, c, msg) := rule in
  (fun _ => {| err_param := path; err_msg := msg |})
    <$> filter (fun o => check c o = false) (instances (body !! path)).

(** The body the handler sees once the chains ran: trimmed where a chain
    trims. *)
Definition sanitize (rules : list (string * chain * string))
    (body : gmap string jsval) : gmap string jsval :=
  foldr (fun rule b =>
           match rule with
           | (path, TrimNotEmpty, _) =>
               match sanitize_trim (b !! path) with
               | Some v => <[path := v]> b
               | None => b
               end
           | _ => b
           end) body rules.

(** [validationResult(req)], with the body left in [req.body]. *)
Definition run (rules : list (string * chain * string))
    (body : gmap string jsval) : list field_error * gmap string jsval :=
  (flat_map (run_chain body) rules, sanitize rules body).

End Validator.

(** ** The property schema (Mongoose) *)

Module Schema.

Inductive ptype :=
  | TString
  | TNumber
  | TBoolean
  | TObjectId
  | TDate
  | TStrings
  | TNumbers
  | TInquiries
  | TImages.

Inductive pdefault :=
  | NoDefault
  | Default (v : bson)
  | DefaultNow.

Record pspec := {
  type : ptype;
  required : bool;
  enum : option (list string);
  min : option Js.number;
  default : pdefault;
  trimmed : bool
}.

Definition path (t : ptype) : pspec :=
  {| type := t; required := false; enum := None; min := None;
     default := NoDefault; trimmed := false |}.

Definition req (s : pspec) : pspec :=
  {| type := type s; required := true; enum := enum s; min := min s;
     default := default s; trimmed := trimmed s |}.

Definition among (values : list string) (s : pspec) : pspec :=
  {| type := type s; required := required s; enum := Some values;
     min := min s; default := default s; trimmed := trimmed s |}.

Definition at_least (n : Z) (s : pspec) : pspec :=
  {| type := type s; required := required s; enum := enum s;
     min := Some (Js.of_Z n); default := default s; trimmed := trimmed s |}.

Definition or_else (d : pdefault) (s : pspec) : pspec :=
  {| type := type s; required := required s; enum := enum s; min := min s;
     default := d; trimmed := trimmed s |}.

Definition trimming (s : pspec) : pspec :=
  {| type := type s; required := required s; enum := enum s; min := min s;
     default := default s; trimmed := true |}.

Definition property_types : list string :=
  ["Apartment"; "House"; "Villa"; "Plot"; "Commercial"; "Farmhouse"].

Definition listing_types : list string := ["Sale"; "Rent"].

Definition statuses : list string := ["active"; "pending"; "sold"; "rented"].

Definition amenity_names : list string :=
  ["Parking"; "Gym"; "Swimming Pool"; "Security"; "Power Backup"; "Lift";
   "Garden"; "Club House"; "Park"; "School"; "Hospital"; "Shopping Mall";
   "Metro Station"; "Bus Stop"].

(** [propertySchema], path by path. The element of [documents] declares
    a [type] key, so Mongoose reads the path as an array of strings;
    [images] is an array of sub-documents, which a body of leaves can
    only give empty. The [updatedAt] of [timestamps: true] is kept by the
    store operations below. *)
Definition propertySchema : list (string * pspec) :=
  [ ("title", trimming (req (path TString)));
    ("description", req (path TString));
    ("propertyType", among property_types (req (path TString)));
    ("listingType", among listing_types (req (path TString)));
    ("price", req (path TNumber));
    ("currency", or_else (Default (BStr "INR")) (path TString));
    ("area.value", req (path TNumber));
    ("area.unit",
      or_else (Default (BStr "sq ft"))
        (among ["sq ft"; "sq m"; "sq yd"; "acre"] (path TString)));
    ("bedrooms", at_least 0 (path TNumber));
    ("bathrooms", at_least 0 (path TNumber));
    ("parking", at_least 0 (path TNumber));
    ("furnishing",
      among ["Furnished"; "Semi-Furnished"; "Unfurnished"] (path TString));
    ("floor", path TNumber);
    ("totalFloors", path TNumber);
    ("age", path TNumber);
    ("facing",
      among ["North"; "South"; "East"; "West"; "North-East"; "North-West";
             "South-East"; "South-West"] (path TString));
    ("location.address", req (path TString));
    ("location.city", req (path TString));
    ("location.state", req (path TString));
    ("location.pincode", req (path TString));
    ("location.coordinates.type",
      or_else (Default (BStr "Point")) (among ["Point"] (path TString)));
    ("location.coordinates.coordinates", req (path TNumbers));
    ("amenities", among amenity_names (path TStrings));
    ("images", path TImages);
    ("documents", path TStrings);
    ("owner", req (path TObjectId));
    ("status", or_else (Default (BStr "pending")) (among statuses (path TString)));
    ("featured", or_else (Default (BBool false)) (path TBoolean));
    ("views", or_else (Default (BNum (Js.of_Z 0))) (path TNumber));
    ("inquiries", path TInquiries);
    ("createdAt", or_else DefaultNow (path TDate)) ].

Section Casts.

Context (rt : Runtime).

Definition castString (x : scalar) : option bson := Some (BStr (ToString x)).

(** The empty string is cast to null, any other text by [Number]; NaN is
    refused. *)
Definition castNumber (x : scalar) : option bson :=
  match x with
  | SStr "" => Some BNull
  | _ => let n := ToNumber x in
         if Js.isNaN n then None else Some (BNum n)
  end.

Definition castBoolean (x : scalar) : option bson :=
  match x with
  | SBool b => Some (BBool b)
  | SInt 1 => Some (BBool true)
  | SInt 0 => Some (BBool false)
  | SStr s =>
      if bool_decide (s ∈ ["true"; "1"; "yes"]) then Some (BBool true)
      else if bool_decide (s ∈ ["false"; "0"; "no"]) then Some (BBool false)
      else None
  | _ => None
  end.

Definition castObjectId (x : scalar) : option bson :=
  BOid <$> cast_oid (ToString x).

Definition castDate (x : scalar) : option bson :=
  match x with
  | SBool _ => None
  | SInt z => if Z.abs z <=? 8640000000000000 then Some (BDate z) else None
  | SStr "" => Some BNull
  | SStr s => BDate <$> Date_parse rt s
  end.

Definition unwrap_str (b : bson) : option string :=
  match b with BStr s => Some s | _ => None end.

Definition unwrap_num (b : bson) : option Js.number :=
  match b with BNum n => Some n | _ => None end.

(** An array path takes an array, or one value as an array of one. *)
Definition elements (v : jsval) : list scalar :=
  match v with
  | VArr l => l
  | VScalar x => [x]
  end.

(** The cast of a body value to the type of its path; [None] is a
    [CastError]. *)
Definition cast (s : pspec) (v : jsval) : option bson :=
  match type s, v with
  | TString, VScalar x =>
      if trimmed s then Some (BStr (Js.trim (ToString x))) else castString x
  | TNumber, VScalar x => castNumber x
  | TBoolean, VScalar x => castBoolean x
  | TObjectId, VScalar x => castObjectId x
  | TDate, VScalar x => castDate x
  | TStrings, v => BStrs <$> mapM (fun x => castString x ≫= unwrap_str) (elements v)
  | TNumbers, v => BNums <$> mapM (fun x => castNumber x ≫= unwrap_num) (elements v)
  | TInquiries, VArr [] => Some (BInquiries [])
  | TImages, VArr [] => Some (BImages [])
  | _, _ => None
  end.

(** The value of a path no value was given for. *)
Definition initial (now : Z) (s : pspec) : option bson :=
  match default s with
  | Default v => Some v
  | DefaultNow => Some (BDate now)
  | NoDefault =>
      match type s with
      | TStrings => Some (BStrs [])
      | TNumbers => Some (BNums [])
      | TInquiries => Some (BInquiries [])
      | TImages => Some (BImages [])
      | _ => None
      end
  end.

(** The [required] validator: a value, not null, and not the empty
    string. *)
Definition present (o : option bson) : bool :=
  match o with
  | None | Some BNull | Some (BStr "") => false
  | Some _ => true
  end.

(** The [enum] validator, on a string and on each string of an array. *)
Definition in_enum (values : list string) (b : bson) : bool :=
  match b with
  | BStr s => bool_decide (s ∈ values)
  | BStrs l => forallb (fun s => bool_decide (s ∈ values)) l
  | _ => true
  end.

(** The [min] validator; null passes. *)
Definition above (m : Js.number) (b : bson) : bool :=
  match b with
  | BNum n => Js.leb m n
  | _ => true
  end.

(** The validators of a path on the value it holds; an undefined value
    only meets [required]. *)
Definition valid (s : pspec) (o : option bson) : bool :=
  (negb (required s) || present o) &&
  match o with
  | None => true
  | Some b =>
      match enum s with Some values => in_enum values b | None => true end &&
      match min s with Some m => above m b | None => true end
  end.

(** One path of a new document: the cast value or the default, validated.
    The outer [None] is a failure, the inner one an unset path. *)
Definition build_path (now : Z) (obj : gmap string jsval)
    (entry : string * pspec) : option (option bson) :=
  let '(p, s) := entry in
  match obj !! p with
  | Some v =>
      match cast s v with
      | Some b => if valid s (Some b) then Some (Some b) else None
      | None => None
      end
  | None =>
      let o := initial now s in
      if valid s o then Some o else None
  end.

Fixpoint build (now : Z) (obj : gmap string jsval)
    (schema : list (string * pspec)) : option (gmap string bson) :=
  match schema with
  | [] => Some ∅
  | (p, s) :: rest =>
      match build_path now obj (p, s), build now obj rest with
      | Some (Some b), Some d => Some (<[p := b]> d)
      | Some None, Some d => Some d
      | _, _ => None
      end
  end.

End Casts.

End Schema.

(** ** Store operations on the two collections *)

Definition doc_id (d : gmap string bson) : option string :=
  match d !! "_id" with Some (BOid i) => Some i | _ => None end.

(** [property.owner.toString()] *)
Definition doc_owner (d : gmap string bson) : option string :=
  match d !! "owner" with Some (BOid i) => Some i | _ => None end.

Definition doc_inquiries (d : gmap string bson) : list inquiry :=
  match d !! "inquiries" with Some (BInquiries l) => l | _ => [] end.

Definition has_id (i : string) (d : gmap string bson) : bool :=
  match doc_id d with Some j => String.eqb i j | None => false end.

Definition is_user (i : string) (u : User) : bool := String.eqb i (user_id u).

(** Replace the document of identifier [i] by [d']. *)
Definition replace_doc (i : string) (d' : gmap string bson)
    (l : list (gmap string bson)) : list (gmap string bson) :=
  (fun d => if has_id i d then d' else d) <$> l.

Definition replace_user (i : string) (u' : User) (l : list User) : list User :=
  (fun u => if is_user i u then u' else u) <$> l.

Definition with_properties (db : Db) (l : list (gmap string bson)) : Db :=
  {| users := users db; properties := l |}.

Definition with_users (db : Db) (l : list User) : Db :=
  {| users := l; properties := properties db |}.

Definition with_favorites (u : User) (l : list string) : User :=
  {| user_id := user_id u; user_name := user_name u;
     user_email := user_email u; user_phone := user_phone u;
     user_role := user_role u; user_favorites := l;
     user_createdAt := user_createdAt u |}.

Section Store.

Context (rt : Runtime).

(** [Property.findById(id)]: the outer [None] is the [CastError] of an
    identifier that is none. *)
Definition Property_findById (id : string) (db : Db)
    : option (option (gmap string bson)) :=
  match cast_oid id with
  | Some i => Some (List.find (has_id i) (properties db))
  | None => None
  end.

Definition User_findById (id : string) (db : Db) : option (option User) :=
  match cast_oid id with
  | Some i => Some (List.find (is_user i) (users db))
  | None => None
  end.

(** [Property.create(obj)]: the document of the schema, under the
    identifier of [obj] or else the fresh one, inserted unless a document
    has that identifier or an index refuses it. [updatedAt] starts as
    [createdAt]. *)
Definition Property_create (fresh : string) (now : Z)
    (obj : gmap string jsval) (db : Db) : option (gmap string bson * Db) :=
  d ← Schema.build rt now obj Schema.propertySchema;
  i ← match obj !! "_id" with
      | Some (VScalar x) => cast_oid (ToString x)
      | Some (VArr _) => None
      | None => Some fresh
      end;
  let d := <["_id" := BOid i]> d in
  let d := match d !! "createdAt" with
           | Some t => <["updatedAt" := t]> d
           | None => d
           end in
  if existsb (has_id i) (properties db) then None
  else if index_accepts rt d then
    Some (d, with_properties db (properties db ++ [d]))
  else None.

(** The first segment of a dotted path. *)
Fixpoint root_chars (l : list ascii) : list ascii :=
  match l with
  | [] => []
  | c :: r => if (c =? ".")%char then [] else c :: root_chars r
  end.

Definition root (p : string) : string :=
  string_of_list_ascii (root_chars (list_ascii_of_string p)).

(** Whether a path lies in a nested object. *)
Definition nested (p : string) : bool := negb (String.eqb (root p) p).

(** A body is the flattening of a JSON object, and an update sets a
    nested object it carries ([area], [location]) as a whole:
    [replaced obj p] when the path [p] lies in such an object. *)
Definition replaced (obj : gmap string jsval) (p : string) : bool :=
  nested p &&
  existsb (fun k => nested k && String.eqb (root k) (root p)) (map_to_list obj).*1.

(** The document without the paths of the objects an update replaces. *)
Definition unset_replaced (obj : gmap string jsval) (d : gmap string bson)
    : gmap string bson :=
  filter (fun e => replaced obj e.1 = false) d.

(** The leaves an update writes: each schema path the body carries, cast
    and validated. [createdAt] is not touched by an update. *)
Fixpoint apply_set (obj : gmap string jsval)
    (schema : list (string * Schema.pspec)) (d : gmap string bson)
    : option (gmap string bson) :=
  match schema with
  | [] => Some d
  | (p, s) :: rest =>
      match obj !! p with
      | Some v =>
          if bool_decide (p = "createdAt") then apply_set obj rest d
          else
            match Schema.cast rt s v with
            | Some b =>
                if Schema.valid s (Some b)
                then apply_set obj rest (<[p := b]> d)
                else None
            | None => None
            end
      | None => apply_set obj rest d
      end
  end.

(** [Property.findByIdAndUpdate(id, obj, { new: true, runValidators: true })]
    on a document that exists: the [$set] of [obj], in which a nested
    object replaces the stored one, so that the paths under it that [obj]
    does not name are dropped; the validators run on the paths written
    only. The identifier of a document cannot be changed. *)
Definition Property_findByIdAndUpdate (now : Z) (i : string)
    (obj : gmap string jsval) (d : gmap string bson) (db : Db)
    : option (gmap string bson * Db) :=
  d' ← apply_set obj Schema.propertySchema (unset_replaced obj d);
  same ← match obj !! "_id" with
         | Some (VScalar x) => String.eqb i <$> cast_oid (ToString x)
         | Some (VArr _) => None
         | None => Some true
         end;
  let d' := <["updatedAt" := BDate now]> d' in
  if same && index_accepts rt d' then
    Some (d', with_properties db (replace_doc i d' (properties db)))
  else None.

(** The [required] validators of the schema, which [save] runs on every
    path, changed or not. *)
Definition required_present (d : gmap string bson) : bool :=
  forallb (fun '(p, s) => negb (Schema.required s) || Schema.present (d !! p))
    Schema.propertySchema.

(** [property.save()] of a document that was read and changed. The paths
    the handlers change ([views], [inquiries]) have no validator of their
    own. *)
Definition Property_save (now : Z) (i : string) (d : gmap string bson)
    (db : Db) : option Db :=
  let d' := <["updatedAt" := BDate now]> d in
  if required_present d' && index_accepts rt d' then
    Some (with_properties db (replace_doc i d' (properties db)))
  else None.

(** [property.remove()] *)
Definition Property_remove (i : string) (db : Db) : Db :=
  with_properties db (List.filter (fun d => negb (has_id i d)) (properties db)).

(** [populate('owner', ...)]: the document with the user its owner
    resolves to. *)
Definition populate_owner (db : Db) (d : gmap string bson)
    : gmap string bson * option User :=
  (d, doc_owner d ≫= fun i => List.find (is_user i) (users db)).

End Store.

(** ** Responses *)

Record pagination := {
  total : nat;
  page : Js.number;
  pages : Js.number
}.

Record dashboard := {
  totalUsers : nat;
  totalProperties : nat;
  pendingProperties : nat;
  activeProperties : nat;
  totalAgents : nat;
  totalInquiries : nat
}.

(** One entry of [recentInquiries] after [$project]: the property's
    identifier and title, the inquiry's message and date, the name and
    e-mail of its user. *)
Record recent_inquiry := {
  ri_id : option string;
  ri_title : option bson;
  ri_message : option string;
  ri_createdAt : Z;
  ri_user_name : string;
  ri_user_email : string
}.

Record activities := {
  recentProperties : list (gmap string bson * option User);
  recentUsers : list User;
  recentInquiries : list recent_inquiry
}.

Inductive payload :=
  | Errors (errors : list Validator.field_error)
  | Failure (message : string)
  | Success (message : string)
  | Property (data : gmap string bson)
  | Properties (data : list (gmap string bson * option User)) (p : pagination)
  | Users (data : list User) (p : pagination)
  | Dashboard (data : dashboard)
  | Activities (data : activities).

Record response := {
  status : nat;
  json : payload
}.

Definition reply (code : nat) (p : payload) : response :=
  {| status := code; json := p |}.

(** ** Pagination

    The three listings read [page] and [limit] from [req.query], window the
    sorted cursor and report their pagination object with the same
    expressions. *)

(** A value of [req.query] with its default, as
    [const { page = 1, limit = 10 } = req.query] binds it. *)
Definition or_default (d : Z) (o : option string) : scalar :=
  match o with
  | Some s => SStr s
  | None => SInt d
  end.

(** [{ total, page: page * 1, pages: Math.ceil(total / limit) }] *)
Definition pagination_of (total : nat) (page limit : scalar) : pagination :=
  {| total := total;
     page := Js.mul (ToNumber page) (Js.of_Z 1);
     pages := Js.ceil (Js.div (Js.of_Z (Z.of_nat total)) (ToNumber limit)) |}.

(** [cursor.limit(limit * 1).skip((page - 1) * limit)] *)
Definition windowed (rt : Runtime) {A} (page limit : scalar) (cursor : list A)
    : option (list A) :=
  window rt A (Js.mul (ToNumber limit) (Js.of_Z 1))
    (Js.mul (Js.sub (ToNumber page) (Js.of_Z 1)) (ToNumber limit)) cursor.

(** ** The property routes *)

Module PropertyRoutes.

Import Validator.

(** [propertyValidation] *)
Definition propertyValidation : list (string * chain * string) :=
  [ ("title", TrimNotEmpty, "Title is required");
    ("description", TrimNotEmpty, "Description is required");
    ("propertyType", IsIn Schema.property_types, "Invalid property type");
    ("listingType", IsIn Schema.listing_types, "Invalid listing type");
    ("price", IsNumeric, "Price must be a number");
    ("area.value", IsNumeric, "Area value must be a number");
    ("location.address", TrimNotEmpty, "Address is required");
    ("location.city", TrimNotEmpty, "City is required");
    ("location.state", TrimNotEmpty, "State is required");
    ("location.pincode", TrimNotEmpty, "Pincode is required") ].

Section Handlers.

Context (rt : Runtime).

(** [POST /properties] *)
Definition create (fresh : string) (now : Z) (user : Actor)
    (body : gmap string jsval) (db : Db) : response * Db :=
  let '(errors, body) := Validator.run propertyValidation body in
  match errors with
  | _ :: _ => (reply 400 (Errors errors), db)
  | [] =>
      match Property_create rt fresh now
              (<["owner" := VScalar (SStr (actor_id user))]> body) db with
      | Some (property, db') => (reply 201 (Property property), db')
      | None => (reply 500 (Failure "Error creating property"), db)
      end
  end.

(** [property.views + 1] on a path of type Number: null counts as zero,
    a path that is not set gives NaN. The sum is the exact one, which is
    the sum of JavaScript for whole numbers below [2^53] in magnitude. *)
Definition incremented (o : option bson) : Js.number :=
  match o with
  | Some (BNum views) => Js.add views (Js.of_Z 1)
  | Some BNull => Js.of_Z 1
  | _ => Js.NaN
  end.

(** [GET /properties/:id]; a number of views that is NaN is refused by
    the cast of [save]. The answer carries the document; the users its
    references are populated with are not part of it. *)
Definition show (now : Z) (id : string) (db : Db) : response * Db :=
  match Property_findById id db with
  | Some (Some property) =>
      let views := incremented (property !! "views") in
      match doc_id property with
      | Some i =>
          if Js.isNaN views then (reply 500 (Failure "Error fetching property"), db)
          else
            let property := <["views" := BNum views]> property in
            match Property_save rt now i property db with
            | Some db' =>
                (reply 200 (Property (<["updatedAt" := BDate now]> property)), db')
            | None => (reply 500 (Failure "Error fetching property"), db)
            end
      | None => (reply 500 (Failure "Error fetching property"), db)
      end
  | Some None => (reply 404 (Failure "Property not found"), db)
  | None => (reply 500 (Failure "Error fetching property"), db)
  end.

(** [PUT /properties/:id] *)
Definition update (now : Z) (user : Actor) (id : string)
    (body : gmap string jsval) (db : Db) : response * Db :=
  let '(errors, body) := Validator.run propertyValidation body in
  match errors with
  | _ :: _ => (reply 400 (Errors errors), db)
  | [] =>
      match Property_findById id db with
      | Some (Some property) =>
          match doc_id property, doc_owner property with
          | Some i, Some owner =>
              if negb (String.eqb owner (actor_id user))
                 && negb (String.eqb (actor_role user) "admin")
              then (reply 403 (Failure "Not authorized to update this property"), db)
              else
                match Property_findByIdAndUpdate rt now i body property db with
                | Some (property, db') => (reply 200 (Property property), db')
                | None => (reply 500 (Failure "Error updating property"), db)
                end
          | _, _ => (reply 500 (Failure "Error updating property"), db)
          end
      | Some None => (reply 404 (Failure "Property not found"), db)
      | None => (reply 500 (Failure "Error updating property"), db)
      end
  end.

(** [DELETE /properties/:id] *)
Definition remove (user : Actor) (id : string) (db : Db) : response * Db :=
  match Property_findById id db with
  | Some (Some property) =>
      match doc_id property, doc_owner property with
      | Some i, Some owner =>
          if negb (String.eqb owner (actor_id user))
             && negb (String.eqb (actor_role user) "admin")
          then (reply 403 (Failure "Not authorized to delete this property"), db)
          else (reply 200 (Success "Property deleted successfully"),
                Property_remove i db)
      | _, _ => (reply 500 (Failure "Error deleting property"), db)
      end
  | Some None => (reply 404 (Failure "Property not found"), db)
  | None => (reply 500 (Failure "Error deleting property"), db)
  end.

(** [POST /properties/:id/inquiries] *)
Definition inquire (now : Z) (user : Actor) (id : string)
    (body : gmap string jsval) (db : Db) : response * Db :=
  match Property_findById id db with
  | Some (Some property) =>
      let message :=
        match body !! "message" with
        | Some (VScalar x) => Some (Some (ToString x))
        | Some (VArr _) => None
        | None => Some None
        end in
      match doc_id property, cast_oid (actor_id user), message with
      | Some i, Some u, Some m =>
          let entry := {| inq_user := Some u; inq_message := m;
                          inq_createdAt := now |} in
          let property :=
            <["inquiries" := BInquiries (doc_inquiries property ++ [entry])]>
              property in
          match Property_save rt now i property db with
          | Some db' => (reply 201 (Success "Inquiry added successfully"), db')
          | None => (reply 500 (Failure "Error adding inquiry"), db)
          end
      | _, _, _ => (reply 500 (Failure "Error adding inquiry"), db)
      end
  | Some None => (reply 404 (Failure "Property not found"), db)
  | None => (reply 500 (Failure "Error adding inquiry"), db)
  end.

(** *** The listing and its filter *)

(** A condition of a query on one path. *)
Inductive condition :=
  | Equals (value : string)
  | Matches (test : string -> bool)
  | AnyOf (values : list string)
  | Between (gte lte : option Js.number).

(** [s.split(',')] *)
Fixpoint split_chars (l : list ascii) (cur : list ascii) : list string :=
  match l with
  | [] => [string_of_list_ascii (rev cur)]
  | c :: r =>
      if (c =? ",")%char then string_of_list_ascii (rev cur) :: split_chars r []
      else split_chars r (c :: cur)
  end.

Definition split_commas (s : string) : list string :=
  split_chars (list_ascii_of_string s) [].

Definition set_if (p : string) (o : option condition)
    (query : gmap string condition) : gmap string condition :=
  match o with
  | Some c => <[p := c]> query
  | None => query
  end.

(** The query the listing handler builds from [req.query], one [if] after
    the other; [None] when a regular expression does not compile. *)
Definition build_query (q : gmap string string)
    : option (gmap string condition) :=
  let propertyType := truthy (q !! "propertyType") in
  let listingType := truthy (q !! "listingType") in
  let minPrice := truthy (q !! "minPrice") in
  let maxPrice := truthy (q !! "maxPrice") in
  let city := truthy (q !! "city") in
  let state := truthy (q !! "state") in
  let bedrooms := truthy (q !! "bedrooms") in
  let bathrooms := truthy (q !! "bathrooms") in
  let amenities := truthy (q !! "amenities") in
  let query : gmap string condition := ∅ in
  let query := set_if "propertyType" (Equals <$> propertyType) query in
  let query := set_if "listingType" (Equals <$> listingType) query in
  query ← match city with
          | Some c => (fun t => <["location.city" := Matches t]> query) <$> RegExp_i rt c
          | None => Some query
          end;
  query ← match state with
          | Some c => (fun t => <["location.state" := Matches t]> query) <$> RegExp_i rt c
          | None => Some query
          end;
  let query := set_if "bedrooms" (Equals <$> bedrooms) query in
  let query := set_if "bathrooms" (Equals <$> bathrooms) query in
  let query := set_if "amenities" (AnyOf ∘ split_commas <$> amenities) query in
  let query :=
    match minPrice, maxPrice with
    | None, None => query
    | _, _ =>
        <["price" := Between (Js.StringToNumber <$> minPrice)
                             (Js.StringToNumber <$> maxPrice)]> query
    end in
  Some query.

(** The type of a path, by the schema. *)
Definition path_type (p : string) : option Schema.ptype :=
  Schema.type <$> (list_to_map Schema.propertySchema : gmap string Schema.pspec) !! p.

Definition castable (o : option Js.number) : bool :=
  match o with Some n => negb (Js.isNaN n) | None => true end.

(** Whether Mongoose can cast a condition to the type of its path; a value
    that is no number is refused on a numeric path. *)
Definition cast_condition (p : string) (c : condition) : bool :=
  match path_type p, c with
  | Some Schema.TNumber, Equals v => negb (Js.isNaN (Js.StringToNumber v))
  | Some Schema.TNumber, Between gte lte => castable gte && castable lte
  | _, _ => true
  end.

Definition bounded (gte lte : option Js.number) (n : Js.number) : bool :=
  match gte with Some a => Js.leb a n | None => true end &&
  match lte with Some b => Js.leb n b | None => true end.

(** Whether the value a document holds at a path meets a condition. *)
Definition meets (c : condition) (o : option bson) : bool :=
  match c, o with
  | Equals v, Some (BStr s) => String.eqb v s
  | Equals v, Some (BNum n) => Js.eqb (Js.StringToNumber v) n
  | Matches test, Some (BStr s) => test s
  | AnyOf values, Some (BStrs l) => existsb (fun s => bool_decide (s ∈ values)) l
  | Between gte lte, Some (BNum n) => bounded gte lte n
  | _, _ => false
  end.

(** A document matches a query when it meets the condition of each of its
    paths. *)
Definition matches (query : gmap string condition) (d : gmap string bson) : bool :=
  forallb (fun '(p, c) => meets c (d !! p)) (map_to_list query).

(** [Property.find(query)], before any cursor option; [None] is the
    [CastError] of a condition. *)
Definition Property_find (query : gmap string condition) (db : Db)
    : option (list (gmap string bson)) :=
  if forallb (fun '(p, c) => cast_condition p c) (map_to_list query)
  then Some (List.filter (matches query) (properties db))
  else None.

(** [GET /properties] *)
Definition list_properties (q : gmap string string) (db : Db) : response :=
  let page := or_default 1 (q !! "page") in
  let limit := or_default 10 (q !! "limit") in
  let sort := default "-createdAt" (q !! "sort") in
  let failed := reply 500 (Failure "Error fetching properties") in
  match build_query q with
  | None => failed
  | Some query =>
      match Property_find query db with
      | None => failed
      | Some found =>
          match windowed rt page limit (sort_properties rt sort found) with
          | None => failed
          | Some properties =>
              reply 200
                (Properties (populate_owner db <$> properties)
                   (pagination_of (length found) page limit))
          end
      end
  end.

End Handlers.

End PropertyRoutes.

(** ** Aggregation stages *)

(** [{ $unwind: '$inquiries' }]: one row per inquiry, in the order of the
    properties and of their lists; a property without inquiries gives no
    row. *)
Definition unwind_inquiries (l : list (gmap string bson)) : list inquiry_row :=
  d ← l; (fun i => {| row_property := d; row_inquiry := i |}) <$> doc_inquiries d.

(** [{ $group: { _id: null, count: { $sum: 1 } } }]: one group holding the
    number of rows, and no group at all without rows. *)
Definition group_count {A} (rows : list A) : list nat :=
  match rows with
  | [] => []
  | _ => [length rows]
  end.

(** [{ $lookup: { from: 'users', localField: 'inquiries.user',
    foreignField: '_id', as: 'user' } }] *)
Definition lookup_user (us : list User) (r : inquiry_row)
    : inquiry_row * list User :=
  (r, List.filter (fun u => match inq_user (row_inquiry r) with
                            | Some i => String.eqb i (user_id u)
                            | None => false
                            end) us).

(** [{ $unwind: '$user' }] *)
Definition unwind_user (l : list (inquiry_row * list User))
    : list (inquiry_row * User) :=
  '(r, us) ← l; (fun u => (r, u)) <$> us.

(** The [$project] stage of the recent inquiries. *)
Definition project_inquiry (x : inquiry_row * User) : recent_inquiry :=
  let '(r, u) := x in
  {| ri_id := doc_id (row_property r);
     ri_title := row_property r !! "title";
     ri_message := inq_message (row_inquiry r);
     ri_createdAt := inq_createdAt (row_inquiry r);
     ri_user_name := user_name u;
     ri_user_email := user_email u |}.

(** ** The admin routes *)

Module AdminRoutes.

Section Handlers.

Context (rt : Runtime).

Definition has_status (s : string) (d : gmap string bson) : bool :=
  match d !! "status" with Some (BStr t) => String.eqb s t | _ => false end.

Definition has_role (s : string) (u : User) : bool := String.eqb s (user_role u).

(** [GET /admin/users] *)
Definition list_users (q : gmap string string) (db : Db) : response :=
  let page := or_default 1 (q !! "page") in
  let limit := or_default 10 (q !! "limit") in
  let found :=
    match truthy (q !! "role") with
    | Some role => List.filter (has_role role) (users db)
    | None => users db
    end in
  match windowed rt page limit (sort_users rt "-createdAt" found) with
  | Some users => reply 200 (Users users (pagination_of (length found) page limit))
  | None => reply 500 (Failure "Error fetching users")
  end.

(** [GET /admin/properties/pending] *)
Definition list_pending (q : gmap string string) (db : Db) : response :=
  let page := or_default 1 (q !! "page") in
  let limit := or_default 10 (q !! "limit") in
  let found := List.filter (has_status "pending") (properties db) in
  match windowed rt page limit (sort_properties rt "-createdAt" found) with
  | Some properties =>
      reply 200 (Properties (populate_owner db <$> properties)
                   (pagination_of (length found) page limit))
  | None => reply 500 (Failure "Error fetching pending properties")
  end.

(** [PUT /admin/properties/:propertyId/status] *)
Definition set_status (now : Z) (propertyId : string)
    (body : gmap string jsval) (db : Db) : response * Db :=
  let '(errors, body) :=
    Validator.run [("status", Validator.IsIn Schema.statuses, "Invalid status")]
      body in
  match errors with
  | _ :: _ => (reply 400 (Errors errors), db)
  | [] =>
      let obj : gmap string jsval :=
        match body !! "status" with
        | Some v => {[ "status" := v ]}
        | None => ∅
        end in
      match Property_findById propertyId db with
      | Some (Some property) =>
          match doc_id property with
          | Some i =>
              match Property_findByIdAndUpdate rt now i obj property db with
              | Some (property, db') => (reply 200 (Property property), db')
              | None => (reply 500 (Failure "Error updating property status"), db)
              end
          | None => (reply 500 (Failure "Error updating property status"), db)
          end
      | Some None => (reply 404 (Failure "Property not found"), db)
      | None => (reply 500 (Failure "Error updating property status"), db)
      end
  end.

(** [totalInquiries[0]?.count || 0] *)
Definition first_count (groups : list nat) : nat :=
  match groups with
  | count :: _ => if (count =? 0)%nat then 0%nat else count
  | [] => 0%nat
  end.

(** [GET /admin/dashboard] *)
Definition get_dashboard (db : Db) : response :=
  let totalInquiries := group_count (unwind_inquiries (properties db)) in
  reply 200 (Dashboard
    {| totalUsers := length (users db);
       totalProperties := length (properties db);
       pendingProperties :=
         length (List.filter (has_status "pending") (properties db));
       activeProperties :=
         length (List.filter (has_status "active") (properties db));
       totalAgents := length (List.filter (has_role "agent") (users db));
       totalInquiries := first_count totalInquiries |}).

(** The aggregate of [GET /admin/activities]. *)
Definition recent_inquiries (db : Db) : list recent_inquiry :=
  let rows := unwind_inquiries (properties db) in
  let rows := sort_stage rt _ (fun r => inq_createdAt (row_inquiry r)) rows in
  let rows := take 5 rows in
  let rows := lookup_user (users db) <$> rows in
  let rows := unwind_user rows in
  project_inquiry <$> rows.

(** [GET /admin/activities] *)
Definition get_activities (db : Db) : response :=
  reply 200 (Activities
    {| recentProperties :=
         populate_owner db <$> take 5 (sort_properties rt "-createdAt" (properties db));
       recentUsers := take 5 (sort_users rt "-createdAt" (users db));
       recentInquiries := recent_inquiries db |}).

End Handlers.

End AdminRoutes.

(** ** The user routes: favorites *)

Module UserRoutes.

(** [user.favorites.includes(propertyId)]: the identifiers are compared by
    their text. *)
Definition includes (propertyId : string) (favorites : list string) : bool :=
  existsb (String.eqb propertyId) favorites.

(** [POST /users/favorites/:propertyId] *)
Definition add_favorite (actor : Actor) (propertyId : string) (db : Db)
    : response * Db :=
  let failed := (reply 500 (Failure "Error adding to favorites"), db) in
  match Property_findById propertyId db with
  | None => failed
  | Some None => (reply 404 (Failure "Property not found"), db)
  | Some (Some property) =>
      match User_findById (actor_id actor) db with
      | Some (Some user) =>
          if includes propertyId (user_favorites user)
          then (reply 400 (Failure "Property already in favorites"), db)
          else
            match cast_oid propertyId with
            | Some i =>
                let user := with_favorites user (user_favorites user ++ [i]) in
                (reply 200 (Success "Property added to favorites"),
                 with_users db (replace_user (user_id user) user (users db)))
            | None => failed
            end
      | _ => failed
      end
  end.

(** [DELETE /users/favorites/:propertyId] *)
Definition remove_favorite (actor : Actor) (propertyId : string) (db : Db)
    : response * Db :=
  match User_findById (actor_id actor) db with
  | Some (Some user) =>
      if negb (includes propertyId (user_favorites user))
      then (reply 400 (Failure "Property not in favorites"), db)
      else
        let user :=
          with_favorites user
            (List.filter (fun id => negb (String.eqb id propertyId))
               (user_favorites user)) in
        (reply 200 (Success "Property removed from favorites"),
         with_users db (replace_user (user_id user) user (users db)))
  | _ => (reply 500 (Failure "Error removing from favorites"), db)
  end.

End UserRoutes.

(** ** A reference runtime

    One runtime the handlers can be run on: dates in milliseconds only,
    regular expressions limited to a literal text searched without regard
    to case, a 2dsphere index that takes a point of two coordinates in
    range, a merge sort for every ordering, and a window of a
    non-negative whole [skip] and [limit], where a [limit] of zero is no
    limit. *)

Module Reference.

Definition lower (c : ascii) : ascii :=
  let n := nat_of_ascii c in
  if ((65 <=? n) && (n <=? 90))%nat then ascii_of_nat (n + 32) else c.

Definition is_plain (c : ascii) : bool :=
  let n := nat_of_ascii (lower c) in
  ((97 <=? n) && (n <=? 122))%nat || Js.is_digit c || (n =? 32)%nat.

Fixpoint prefix_of (p l : list ascii) : bool :=
  match p, l with
  | [], _ => true
  | a :: p', b :: l' => (a =? b)%char && prefix_of p' l'
  | _ :: _, [] => false
  end.

Fixpoint occurs (p l : list ascii) : bool :=
  prefix_of p l ||
  match l with
  | [] => false
  | _ :: l' => occurs p l'
  end.

Definition regexp (pattern : string) : option (string -> bool) :=
  let p := list_ascii_of_string pattern in
  if forallb is_plain p
  then Some (fun s => occurs (lower <$> p) (lower <$> list_ascii_of_string s))
  else None.

Definition within (lo hi : Z) (n : Js.number) : bool :=
  Js.leb (Js.of_Z lo) n && Js.leb n (Js.of_Z hi).

Definition geo_index (d : gmap string bson) : bool :=
  match d !! "location.coordinates.coordinates" with
  | Some (BNums [lng; lat]) => within (-180) 180 lng && within (-90) 90 lat
  | _ => false
  end.

Definition created (d : gmap string bson) : Z :=
  match d !! "createdAt" with Some (BDate t) => t | _ => 0 end.

Definition later {A} (key : A -> Z) (x y : A) : Prop := key y <= key x.

#[local] Instance later_dec {A} (key : A -> Z) (x y : A)
    : Decision (later key x y) := Z_le_dec (key y) (key x).

Definition latest_first {A} (key : A -> Z) (l : list A) : list A :=
  merge_sort (later key) l.

Definition whole (n : Js.number) : option nat :=
  match n with
  | Js.NegZero => Some 0%nat
  | Js.Fin q =>
      if (Zpos (Qden q) =? 1) && (0 <=? Qnum q) then Some (Z.to_nat (Qnum q))
      else None
  | _ => None
  end.

Definition cursor_window (A : Type) (limit skip : Js.number) (l : list A)
    : option (list A) :=
  match whole limit, whole skip with
  | Some 0%nat, Some m => Some (drop m l)
  | Some n, Some m => Some (take n (drop m l))
  | _, _ => None
  end.

Definition runtime : Runtime :=
  {| Date_parse := fun _ => None;
     RegExp_i := regexp;
     index_accepts := geo_index;
     sort_properties := fun spec l =>
       if String.eqb spec "-createdAt" then latest_first created l else l;
     sort_users := fun spec l =>
       if String.eqb spec "-createdAt" then latest_first user_createdAt l else l;
     sort_stage := @latest_first;
     window := cursor_window |}.

End Reference.

(** ** What the specification names *)

(** The fields the specification lists as required at creation. *)
Definition required_at_creation : list string :=
  ["title"; "description"; "propertyType"; "listingType"; "price";
   "area.value"; "location.address"; "location.city"; "location.state";
   "location.pincode"].

(** The path a validation chain is about. *)
Definition rule_path (rule : string * Validator.chain * string) : string :=
  rule.1.1.

(** The authorization predicate as the specification words it:
    [canMutate(actor, property) = actor.id == property.owner.id OR
    actor.role == admin]. *)
Definition canMutate (actor : Actor) (property : gmap string bson) : bool :=
  match doc_owner property with
  | Some owner => String.eqb (actor_id actor) owner
  | None => false
  end || String.eqb (actor_role actor) "admin".

(** The property a response carries. *)
Definition data_of (r : response) : gmap string bson :=
  match json r with
  | Property data => data
  | _ => ∅
  end.

(** The owner the store records for a property. *)
Definition stored_owner (id : string) (db : Db) : option string :=
  match Property_findById id db with
  | Some (Some d) => doc_owner d
  | _ => None
  end.


(** The set a listing request matches: the query built from [req.query],
    run on the collection. *)
Definition matching (rt : Runtime) (q : gmap string string) (db : Db)
    : option (list (gmap string bson)) :=
  match PropertyRoutes.build_query rt q with
  | Some query => PropertyRoutes.Property_find query db
  | None => None
  end.

(** The user an inquiry row resolves to, if any. *)
Definition submitter (us : list User) (r : inquiry_row) : option User :=
  match inq_user (row_inquiry r) with
  | Some i => List.find (is_user i) us
  | None => None
  end.

(** [c'] asks no more than [c] on the path [p]: it can be cast whenever
    [c] can, and every value that meets [c] meets it. *)
Definition weaker (p : string) (c' c : PropertyRoutes.condition) : Prop :=
  (PropertyRoutes.cast_condition p c = true ->
   PropertyRoutes.cast_condition p c' = true)
  /\ forall o, PropertyRoutes.meets c o = true -> PropertyRoutes.meets c' o = true.

(** [q'] relaxes [q]: each of its conditions is one of [q], weakened. *)
Definition relaxes (q' q : gmap string PropertyRoutes.condition) : Prop :=
  forall p c', q' !! p = Some c' -> exists c, q !! p = Some c /\ weaker p c' c.

(** ** Sample data *)

Module Sample.

Definition alice : Actor :=
  {| actor_id := "aaaaaaaaaaaaaaaaaaaaaaaa"; actor_role := "user" |}.

Definition bob : Actor :=
  {| actor_id := "bbbbbbbbbbbbbbbbbbbbbbbb"; actor_role := "user" |}.

Definition account (a : Actor) (name : string) : User :=
  {| user_id := actor_id a; user_name := name; user_email := name;
     user_phone := ""; user_role := actor_role a; user_favorites := [];
     user_createdAt := 0 |}.

Definition flat : string := "111111111111111111111111".

(** A creation body with every validated field and a position. *)
Definition listing : gmap string jsval :=
  list_to_map
    [ ("title", VScalar (SStr "Flat"));
      ("description", VScalar (SStr "Two rooms"));
      ("propertyType", VScalar (SStr "Apartment"));
      ("listingType", VScalar (SStr "Sale"));
      ("price", VScalar (SInt 5000000));
      ("area.value", VScalar (SInt 850));
      ("location.address", VScalar (SStr "1 Road"));
      ("location.city", VScalar (SStr "Pune"));
      ("location.state", VScalar (SStr "MH"));
      ("location.pincode", VScalar (SStr "411001"));
      ("location.coordinates.coordinates", VArr [SInt 73; SInt 18]) ].

Definition registered : Db :=
  {| users := [account alice "alice"; account bob "bob"]; properties := [] |}.

(** The store once alice has created the flat. *)
Definition listed : Db :=
  snd (PropertyRoutes.create Reference.runtime flat 1000 alice listing registered).

(** The flat as it is stored. *)
Definition stored_flat : gmap string bson :=
  default ∅ (mjoin (Property_findById flat listed)).




Definition ask (who : string) (t : Z) : inquiry :=
  {| inq_user := Some who; inq_message := Some "Is it available?";
     inq_createdAt := t |}.

(** A property with five inquiries of users that are in no collection. *)
Definition orphaned : Db :=
  {| users := [];
     properties :=
       [ {[ "_id" := BOid flat;
            "inquiries" :=
              BInquiries [ask "c" 1; ask "c" 2; ask "c" 3; ask "c" 4; ask "c" 5] ]} ] |}.

(** Two accounts and one property with six inquiries, three of them by
    users that are in no collection. *)
Definition busy : Db :=
  {| users := [account alice "alice"; account bob "bob"];
     properties :=
       [ {[ "_id" := BOid flat;
            "inquiries" :=
              BInquiries [ask (actor_id alice) 1; ask "c" 2; ask (actor_id bob) 3;
                          ask "c" 4; ask "c" 5; ask (actor_id alice) 6] ]} ] |}.

(** A request for the flats of Pune above a price. *)
Definition in_pune : gmap string string :=
  {[ "city" := "pune"; "minPrice" := "100" ]}.





End Sample.

(** ** The other routes *)

(** The answer of a route that carries a user or a plain list. *)
Inductive answer_payload :=
  | Invalid (errors : list Validator.field_error)
  | Refused (message : string)
  | OneUser (data : option User)
  | Listing (data : list (gmap string bson * option User)).

Record answer := {
  code : nat;
  content : answer_payload
}.

Definition respond (c : nat) (p : answer_payload) : answer :=
  {| code := c; content := p |}.

Definition roles : list string := ["user"; "agent"; "admin"].

Definition with_role (u : User) (r : string) : User :=
  {| user_id := user_id u; user_name := user_name u;
     user_email := user_email u; user_phone := user_phone u;
     user_role := r; user_favorites := user_favorites u;
     user_createdAt := user_createdAt u |}.

Definition with_profile (u : User) (name phone : string) : User :=
  {| user_id := user_id u; user_name := name;
     user_email := user_email u; user_phone := phone;
     user_role := user_role u; user_favorites := user_favorites u;
     user_createdAt := user_createdAt u |}.

Definition with_email (u : User) (email : string) : User :=
  {| user_id := user_id u; user_name := user_name u;
     user_email := email; user_phone := user_phone u;
     user_role := user_role u; user_favorites := user_favorites u;
     user_createdAt := user_createdAt u |}.

Module AccountRoutes.

(** [PUT /admin/users/:userId/role] *)
Definition set_role (userId : string) (body : gmap string jsval) (db : Db)
    : answer * Db :=
  let '(errors, body) :=
    Validator.run [("role", Validator.IsIn roles, "Invalid role")] body in
  match errors with
  | _ :: _ => (respond 400 (Invalid errors), db)
  | [] =>
      match body !! "role", User_findById userId db with
      | Some (VScalar role), Some (Some user) =>
          let user := with_role user (ToString role) in
          (respond 200 (OneUser (Some user)),
           with_users db (replace_user (user_id user) user (users db)))
      | Some (VScalar _), Some None =>
          (respond 404 (Refused "User not found"), db)
      | _, _ => (respond 500 (Refused "Error updating user role"), db)
      end
  end.

(** [updateProfileValidation]: each chain is [optional()], so it runs on a
    field that is there; [name] must not be empty once trimmed. *)
Definition updateProfileValidation (body : gmap string jsval)
    : list Validator.field_error * gmap string jsval :=
  let errors :=
    match body !! "name" with
    | Some _ =>
        Validator.run_chain body
          ("name", Validator.TrimNotEmpty, "Name cannot be empty")
    | None => []
    end in
  let trimmed :=
    foldr (fun p b =>
             match Validator.sanitize_trim (b !! p) with
             | Some v => <[p := v]> b
             | None => b
             end) body ["name"; "phone"; "profileImage"] in
  (errors, trimmed).

(** The text a body gives for a path of type String: the present value
    when there is none; [None] is a [CastError]. *)
Definition cast_text (body : gmap string jsval) (p : string) (present : string)
    : option string :=
  match body !! p with
  | Some (VScalar x) => Some (ToString x)
  | Some (VArr _) => None
  | None => Some present
  end.

(** The identifiers a body gives for a path that is an array of
    references: the present ones when there is none. *)
Definition cast_ids (body : gmap string jsval) (p : string)
    (present : list string) : option (list string) :=
  match body !! p with
  | Some v => mapM (fun x => cast_oid (ToString x)) (Schema.elements v)
  | None => Some present
  end.

(** Modelled from the spec: [User.findByIdAndUpdate(id, body,
    { new: true, runValidators: true })], which writes every path of the
    [User] model the body names; here the paths of the model that the
    record keeps ([name], [email], [phone], [role], [favorites]). The
    schema file is not part of the sources: of its validators only the
    three roles are taken. *)
Definition User_update (body : gmap string jsval) (u : User) : option User :=
  name ← cast_text body "name" (user_name u);
  email ← cast_text body "email" (user_email u);
  phone ← cast_text body "phone" (user_phone u);
  role ← cast_text body "role" (user_role u);
  favorites ← cast_ids body "favorites" (user_favorites u);
  if bool_decide (role ∈ roles)
  then Some (with_favorites
               (with_role (with_email (with_profile u name phone) email) role)
               favorites)
  else None.

(** [PUT /users/profile]; a user that is not found is answered 200 with
    no data. *)
Definition update_profile (actor : Actor) (body : gmap string jsval) (db : Db)
    : answer * Db :=
  let '(errors, body) := updateProfileValidation body in
  match errors with
  | _ :: _ => (respond 400 (Invalid errors), db)
  | [] =>
      match User_findById (actor_id actor) db with
      | Some (Some user) =>
          match User_update body user with
          | Some user =>
              (respond 200 (OneUser (Some user)),
               with_users db (replace_user (user_id user) user (users db)))
          | None => (respond 500 (Refused "Error updating profile"), db)
          end
      | Some None => (respond 200 (OneUser None), db)
      | None => (respond 500 (Refused "Error updating profile"), db)
      end
  end.

(** Whether a property belongs to the user of identifier [i]. *)
Definition owned_by (i : string) (d : gmap string bson) : bool :=
  match doc_owner d with Some j => String.eqb i j | None => false end.

(** [GET /users/properties] *)
Definition my_properties (rt : Runtime) (actor : Actor) (db : Db) : answer :=
  match cast_oid (actor_id actor) with
  | Some i =>
      respond 200
        (Listing (populate_owner db
                    <$> sort_properties rt "-createdAt"
                          (List.filter (owned_by i) (properties db))))
  | None => respond 500 (Refused "Error fetching properties")
  end.

(** [GET /properties/search], over the text index of the collection:
    [text_search q l] is the documents of [l] that match [q], best score
    first. *)
Definition search
    (text_search : string -> list (gmap string bson) -> list (gmap string bson))
    (query : gmap string string) (db : Db) : answer :=
  match truthy (query !! "q") with
  | None => respond 400 (Refused "Search query is required")
  | Some q =>
      respond 200
        (Listing (populate_owner db <$> take 10 (text_search q (properties db))))
  end.

End AccountRoutes.

(** ** The router of the property routes

    Express tries the routes of a router in the order of their
    definition; a route takes the request when its method is the
    request's and its pattern matches the path, segment by segment, a
    literal segment without regard to case and a parameter against any
    segment. Every handler of this router answers, so the first route
    that takes a request is the only one that sees it. *)

Module Router.

Inductive method := GET | POST | PUT | DELETE.

Inductive segment :=
  | Fixed (s : string)
  | Named (name : string).

Inductive route :=
  | ToCreate
  | ToList
  | ToShow
  | ToUpdate
  | ToRemove
  | ToInquire
  | ToSearch.

(** The routes of the property router, in the order of the source. *)
Definition routes : list (method * list segment * route) :=
  [ (POST, [], ToCreate);
    (GET, [], ToList);
    (GET, [Named "id"], ToShow);
    (PUT, [Named "id"], ToUpdate);
    (DELETE, [Named "id"], ToRemove);
    (POST, [Named "id"; Fixed "inquiries"], ToInquire);
    (GET, [Fixed "search"], ToSearch) ].

Definition same_method (a b : method) : bool :=
  match a, b with
  | GET, GET | POST, POST | PUT, PUT | DELETE, DELETE => true
  | _, _ => false
  end.

Definition fold_case (s : string) : string :=
  string_of_list_ascii (Reference.lower <$> list_ascii_of_string s).

(** The parameters a pattern binds on a path, when it matches. *)
Fixpoint bind (pattern : list segment) (path : list string)
    : option (list (string * string)) :=
  match pattern, path with
  | [], [] => Some []
  | Fixed s :: pattern, x :: path =>
      if String.eqb (fold_case s) (fold_case x) then bind pattern path else None
  | Named name :: pattern, x :: path =>
      match bind pattern path with
      | Some params => Some ((name, x) :: params)
      | None => None
      end
  | _, _ => None
  end.

(** The first route that takes the request, with its parameters. *)
Fixpoint first_match (table : list (method * list segment * route))
    (m : method) (path : list string) : option (route * list (string * string)) :=
  match table with
  | [] => None
  | (m', pattern, r) :: table =>
      match (if same_method m m' then bind pattern path else None) with
      | Some params => Some (r, params)
      | None => first_match table m path
      end
  end.

Definition dispatch (m : method) (path : list string)
    : option (route * list (string * string)) :=
  first_match routes m path.

End Router.

(** ** Requests that write, and what the schema asks of a stored property *)

(** A request to one of the routes that write to the store. *)
Inductive request :=
  | CreateProperty (fresh : string) (now : Z) (user : Actor)
      (body : gmap string jsval)
  | ShowProperty (now : Z) (id : string)
  | UpdateProperty (now : Z) (user : Actor) (id : string)
      (body : gmap string jsval)
  | DeleteProperty (user : Actor) (id : string)
  | AddInquiry (now : Z) (user : Actor) (id : string) (body : gmap string jsval)
  | SetStatus (now : Z) (propertyId : string) (body : gmap string jsval)
  | SetRole (userId : string) (body : gmap string jsval)
  | UpdateProfile (user : Actor) (body : gmap string jsval)
  | AddFavorite (user : Actor) (propertyId : string)
  | RemoveFavorite (user : Actor) (propertyId : string).

(** The store a request leaves. *)
Definition store_after (rt : Runtime) (r : request) (db : Db) : Db :=
  match r with
  | CreateProperty fresh now user body =>
      (PropertyRoutes.create rt fresh now user body db).2
  | ShowProperty now id => (PropertyRoutes.show rt now id db).2
  | UpdateProperty now user id body =>
      (PropertyRoutes.update rt now user id body db).2
  | DeleteProperty user id => (PropertyRoutes.remove user id db).2
  | AddInquiry now user id body =>
      (PropertyRoutes.inquire rt now user id body db).2
  | SetStatus now propertyId body =>
      (AdminRoutes.set_status rt now propertyId body db).2
  | SetRole userId body => (AccountRoutes.set_role userId body db).2
  | UpdateProfile user body => (AccountRoutes.update_profile user body db).2
  | AddFavorite user propertyId => (UserRoutes.add_favorite user propertyId db).2
  | RemoveFavorite user propertyId =>
      (UserRoutes.remove_favorite user propertyId db).2
  end.

(** The values a path of a given type holds. *)
Definition has_type (t : Schema.ptype) (b : bson) : bool :=
  match t, b with
  | Schema.TString, BStr _ => true
  | Schema.TNumber, BNum n => negb (Js.isNaN n)
  | Schema.TNumber, BNull => true
  | Schema.TBoolean, BBool _ => true
  | Schema.TObjectId, BOid _ => true
  | Schema.TDate, BDate _ => true
  | Schema.TDate, BNull => true
  | Schema.TStrings, BStrs _ => true
  | Schema.TNumbers, BNums _ => true
  | Schema.TInquiries, BInquiries _ => true
  | Schema.TImages, BImages _ => true
  | _, _ => false
  end.

(** What the schema asks of a path: its validators pass, and the value it
    holds, if any, is of its type. *)
Definition path_ok (s : Schema.pspec) (o : option bson) : bool :=
  Schema.valid s o &&
  match o with
  | Some b => has_type (Schema.type s) b
  | None => true
  end.

(** A document conforms to the schema when each path of the schema
    does. *)
Definition conforms (d : gmap string bson) : Prop :=
  forall p s, (p, s) ∈ Schema.propertySchema -> path_ok s (d !! p) = true.

Definition store_conforms (db : Db) : Prop :=
  Forall conforms (properties db).

(** The stored property of a given identifier. *)
Definition stored (id : string) (db : Db) : option (gmap string bson) :=
  List.find (has_id id) (properties db).

(** ** What the further properties name *)

(** A request that keeps the position of the property: an update names
    [location.coordinates.coordinates], which the nested [location] it
    sends would otherwise drop. *)
Definition names_position (r : request) : Prop :=
  match r with
  | UpdateProperty _ _ _ body =>
      is_Some (body !! "location.coordinates.coordinates")
  | _ => True
  end.

(** The default of each path of the schema is of the type of the path. *)
Definition default_typed (s : Schema.pspec) : bool :=
  match Schema.default s, Schema.type s with
  | Schema.Default v, t => has_type t v
  | Schema.DefaultNow, Schema.TDate => true
  | Schema.DefaultNow, _ => false
  | Schema.NoDefault, _ => true
  end.

(** The paths a creation fills when the body leaves them out. *)
Definition filled_at_creation (now : Z) : list (string * bson) :=
  [ ("currency", BStr "INR");
    ("area.unit", BStr "sq ft");
    ("location.coordinates.type", BStr "Point");
    ("amenities", BStrs []);
    ("status", BStr "pending");
    ("featured", BBool false);
    ("views", BNum (Js.of_Z 0));
    ("inquiries", BInquiries []);
    ("createdAt", BDate now) ].

(** The optional paths without a default. *)
Definition left_unset : list string :=
  [ "bedrooms"; "bathrooms"; "parking"; "furnishing"; "floor"; "totalFloors";
    "age"; "facing" ].

(** What a listing request asks of a property: each parameter that is
    present and not empty constrains one path. *)
Record asked (rt : Runtime) (q : gmap string string) (d : gmap string bson)
    : Prop := {
  asked_propertyType : forall s, truthy (q !! "propertyType") = Some s ->
    d !! "propertyType" = Some (BStr s);
  asked_listingType : forall s, truthy (q !! "listingType") = Some s ->
    d !! "listingType" = Some (BStr s);
  asked_city : forall s, truthy (q !! "city") = Some s ->
    exists test c, RegExp_i rt s = Some test
      /\ d !! "location.city" = Some (BStr c) /\ test c = true;
  asked_state : forall s, truthy (q !! "state") = Some s ->
    exists test c, RegExp_i rt s = Some test
      /\ d !! "location.state" = Some (BStr c) /\ test c = true;
  asked_bedrooms : forall s, truthy (q !! "bedrooms") = Some s ->
    exists n, d !! "bedrooms" = Some (BNum n)
      /\ Js.eqb (Js.StringToNumber s) n = true;
  asked_bathrooms : forall s, truthy (q !! "bathrooms") = Some s ->
    exists n, d !! "bathrooms" = Some (BNum n)
      /\ Js.eqb (Js.StringToNumber s) n = true;
  asked_amenities : forall s, truthy (q !! "amenities") = Some s ->
    exists l a, d !! "amenities" = Some (BStrs l)
      /\ a ∈ l /\ a ∈ PropertyRoutes.split_commas s;
  asked_minPrice : forall s, truthy (q !! "minPrice") = Some s ->
    exists n, d !! "price" = Some (BNum n)
      /\ Js.leb (Js.StringToNumber s) n = true;
  asked_maxPrice : forall s, truthy (q !! "maxPrice") = Some s ->
    exists n, d !! "price" = Some (BNum n)
      /\ Js.leb n (Js.StringToNumber s) = true
}.

(** A request whose keys are names of parameters: no key carries a
    bracket, which the query parser reads as an array or an object of
    the parameter named before it. *)
Definition plain (q : gmap string string) : Prop :=
  map_Forall (fun k _ => "["%char ∉ list_ascii_of_string k) q.

(** The parameters of a listing request that are cast to numbers, and
    those compiled to regular expressions. *)
Definition numeric_parameters : list string :=
  ["bedrooms"; "bathrooms"; "minPrice"; "maxPrice"].

Definition pattern_parameters : list string := ["city"; "state"].

(** The paths the query of a listing request can constrain. *)
Definition filter_paths : list string :=
  ["propertyType"; "listingType"; "location.city"; "location.state";
   "bedrooms"; "bathrooms"; "amenities"; "price"].

(** The store a sequence of requests leaves, one after the other. *)
Definition store_after_all (rt : Runtime) (rs : list request) (db : Db) : Db :=
  foldl (fun db r => store_after rt r db) db rs.

(** * Properties *)

Import PropertyRoutes.

(** ** Dashboard *)

Lemma length_unwind_inquiries (l : list (gmap string bson)) :
  length (unwind_inquiries l) = sum_list_with (fun d => length (doc_inquiries d)) l.
Proof.
  unfold unwind_inquiries.
  induction l as [|d l IH]; [reflexivity|].
  cbn. rewrite length_app, length_fmap. by rewrite <- IH.
Qed.

Lemma first_count_group {A} (rows : list A) :
  AdminRoutes.first_count (group_count rows) = length rows.
Proof. by destruct rows. Qed.

(** C6. The [totalInquiries] of the dashboard is the sum, over the
    properties, of the lengths of their inquiry lists; it is 0 when no
    property has an inquiry. *)
Theorem dashboard_counts_every_inquiry (db : Db) :
  exists data,
    AdminRoutes.get_dashboard db = reply 200 (Dashboard data)
    /\ totalInquiries data
       = sum_list_with (fun d => length (doc_inquiries d)) (properties db)
    /\ (Forall (fun d => doc_inquiries d = []) (properties db) ->
        totalInquiries data = 0%nat).
Proof.
  eexists. split; [reflexivity|]. cbn [totalInquiries].
  rewrite first_count_group, length_unwind_inquiries. split; [done|].
  induction 1 as [|d l Hd _ IH]; [done|].
  cbn. by rewrite Hd, IH.
Qed.

(** ** Favorites *)

Lemma includes_elem_of (p : string) (l : list string) :
  UserRoutes.includes p l = true <-> p ∈ l.
Proof.
  unfold UserRoutes.includes. rewrite existsb_exists. split.
  - intros (x & Hx & ->%String.eqb_eq). by apply list_elem_of_In.
  - intros Hp. exists p. split; [by apply list_elem_of_In | apply String.eqb_refl].
Qed.




(** ** Validation of a missing field *)

Lemma check_absent :
  Forall (fun rule : string * Validator.chain * string =>
            Validator.check (rule.1).2 None = false) propertyValidation.
Proof. repeat constructor. Qed.

Lemma required_paths :
  required_at_creation = rule_path <$> propertyValidation.
Proof. reflexivity. Qed.

Lemma missing_field_error (body : gmap string jsval) (p : string) :
  p ∈ required_at_creation -> body !! p = None ->
  exists e, In e (flat_map (Validator.run_chain body) propertyValidation)
            /\ Validator.err_param e = p.
Proof.
  rewrite required_paths. intros ([[p' c] msg] & -> & Hrule)%list_elem_of_fmap Hp.
  cbn in Hp.
  exists {| Validator.err_param := p'; Validator.err_msg := msg |}. split; [|done].
  apply in_flat_map. exists (p', c, msg). split; [by apply list_elem_of_In|].
  unfold Validator.run_chain. rewrite Hp. cbn.
  pose proof check_absent as Hall. rewrite Forall_forall in Hall.
  specialize (Hall _ Hrule). cbn in Hall. rewrite Hall. cbn.
  destruct (decide (false = false)); [|done]. by left.
Qed.

(** C9. [PUT /properties/:id] runs the validation set of the creation: an
    update whose body omits a field required at creation is answered 400,
    with an error for that field, whoever the actor is, and the store is
    left as it was; the creation answers the same body with the same
    errors. *)
Theorem update_runs_creation_validation (rt : Runtime) (fresh : string)
    (now : Z) (user : Actor) (id : string) (body : gmap string jsval)
    (db : Db) (p : string) :
  p ∈ required_at_creation -> body !! p = None ->
  exists errors,
    update rt now user id body db = (reply 400 (Errors errors), db)
    /\ create rt fresh now user body db = (reply 400 (Errors errors), db)
    /\ exists e, e ∈ errors /\ Validator.err_param e = p.
Proof.
  intros Hp Hbody.
  destruct (missing_field_error body p Hp Hbody) as (e & He & Hparam).
  exists (flat_map (Validator.run_chain body) propertyValidation).
  unfold update, create, Validator.run.
  destruct (flat_map _ _) as [|e' errors] eqn:E; [done|].
  repeat split; try done. exists e. split; [by apply list_elem_of_In | done].
Qed.

Lemma update_runs_creation_validation_witness :
  exists errors,
    update Reference.runtime 2000 Sample.alice Sample.flat
      (delete "price" Sample.listing) Sample.listed
    = (reply 400 (Errors errors), Sample.listed)
    /\ create Reference.runtime "222222222222222222222222" 2000 Sample.alice
         (delete "price" Sample.listing) Sample.listed
       = (reply 400 (Errors errors), Sample.listed)
    /\ exists e, e ∈ errors /\ Validator.err_param e = "price".
Proof.
  apply (update_runs_creation_validation Reference.runtime
           "222222222222222222222222" 2000 Sample.alice Sample.flat
           (delete "price" Sample.listing) Sample.listed "price").
  - unfold required_at_creation. repeat constructor.
  - vm_compute. reflexivity.
Defined.

(** ** The mutation guard *)

Lemma found_has_id (id : string) (db : Db) (d : gmap string bson) :
  Property_findById id db = Some (Some d) -> is_Some (doc_id d).
Proof.
  unfold Property_findById. destruct (cast_oid id) as [i|]; [|done].
  intros [= Hfind]. apply find_some in Hfind as [_ Hid].
  unfold has_id in Hid. by destruct (doc_id d).
Qed.

(** The inline check of both handlers is the negation of [canMutate]. *)
Lemma guard_is_canMutate (user : Actor) (d : gmap string bson) (owner : string) :
  doc_owner d = Some owner ->
  negb (String.eqb owner (actor_id user))
  && negb (String.eqb (actor_role user) "admin")
  = negb (canMutate user d).
Proof.
  intros Ho. unfold canMutate. rewrite Ho, negb_orb.
  by rewrite (String.eqb_sym owner).
Qed.

(** C3, as the handlers have it. On a property that exists and records
    its owner, an actor who is neither that owner nor an admin is answered
    403 by the delete, and by the update when the body passes the
    validation set; an update whose body fails it is answered 400 before
    the ownership is looked at. In each case the store is left as it was.
    Both handlers decide by [canMutate]: an actor it admits is never
    answered 403. *)
Theorem mutation_guard (rt : Runtime) (now : Z) (user : Actor) (id : string)
    (body : gmap string jsval) (db : Db) (d : gmap string bson) :
  Property_findById id db = Some (Some d) ->
  is_Some (doc_owner d) ->
  let errors := (Validator.run propertyValidation body).1 in
  (canMutate user d = false ->
     remove user id db
     = (reply 403 (Failure "Not authorized to delete this property"), db)
     /\ (errors = [] ->
         update rt now user id body db
         = (reply 403 (Failure "Not authorized to update this property"), db))
     /\ (errors <> [] ->
         update rt now user id body db = (reply 400 (Errors errors), db)))
  /\ (canMutate user d = true ->
        status (remove user id db).1 <> 403%nat
        /\ status (update rt now user id body db).1 <> 403%nat).
Proof.
  intros Hd [owner Ho] errors.
  destruct (found_has_id _ _ _ Hd) as [i Hi].
  pose proof (guard_is_canMutate user d owner Ho) as Hguard.
  unfold remove, update. subst errors. unfold Validator.run. cbn [fst snd].
  generalize (flat_map (Validator.run_chain body) propertyValidation) as errors.
  intros errors. rewrite Hd, Hi, Ho, Hguard.
  split; intros Hcan; rewrite Hcan; cbn [negb].
  - repeat split; [by intros -> | by destruct errors].
  - split; [done|]. destruct errors; [|done].
    by destruct (Property_findByIdAndUpdate _ _ _ _ _ _) as [[? ?]|].
Qed.

Lemma mutation_guard_witness :
  remove Sample.bob Sample.flat Sample.listed
  = (reply 403 (Failure "Not authorized to delete this property"), Sample.listed)
  /\ update Reference.runtime 2000 Sample.bob Sample.flat Sample.listing Sample.listed
     = (reply 403 (Failure "Not authorized to update this property"), Sample.listed)
  /\ status (update Reference.runtime 2000 Sample.alice Sample.flat Sample.listing
               Sample.listed).1 <> 403%nat.
Proof.
  assert (Hd : Property_findById Sample.flat Sample.listed
               = Some (Some Sample.stored_flat))
    by vm_cast_no_check (eq_refl (Some (Some Sample.stored_flat))).
  assert (Ho : is_Some (doc_owner Sample.stored_flat))
    by (exists (actor_id Sample.alice); vm_compute; reflexivity).
  destruct (mutation_guard Reference.runtime 2000 Sample.bob Sample.flat
              Sample.listing Sample.listed _ Hd Ho) as [Hno _].
  destruct (mutation_guard Reference.runtime 2000 Sample.alice Sample.flat
              Sample.listing Sample.listed _ Hd Ho) as [_ Hyes].
  assert (Hbob : canMutate Sample.bob Sample.stored_flat = false)
    by (vm_compute; reflexivity).
  assert (Halice : canMutate Sample.alice Sample.stored_flat = true)
    by (vm_compute; reflexivity).
  destruct (Hno Hbob) as (Hremove & Hupdate & _).
  split; [exact Hremove|].
  split; [apply Hupdate; vm_compute; reflexivity|].
  exact (proj2 (Hyes Halice)).
Defined.

(** C3 does not hold as stated: bob, neither the owner of the flat nor an
    admin, sends an update with an empty body and is answered 400, not
    403. *)
Lemma unauthorized_update_answered_400 :
  Property_findById Sample.flat Sample.listed = Some (Some Sample.stored_flat)
  /\ canMutate Sample.bob Sample.stored_flat = false
  /\ status (update Reference.runtime 2000 Sample.bob Sample.flat ∅ Sample.listed).1
     = 400%nat.
Proof.
  split; [vm_cast_no_check (eq_refl (Some (Some Sample.stored_flat)))|].
  split; vm_compute; reflexivity.
Qed.

(** ** Documents built from the schema *)

Section Build.

Context (rt : Runtime) (now : Z) (obj : gmap string jsval).

Lemma build_lookup_outside (schema : list (string * Schema.pspec))
    (d : gmap string bson) (p : string) :
  Schema.build rt now obj schema = Some d -> p ∉ schema.*1 -> d !! p = None.
Proof.
  revert d. induction schema as [|[p' s'] schema IH]; intros d Hb Hp.
  - by injection Hb as <-.
  - cbn [Schema.build] in Hb. rewrite fmap_cons, not_elem_of_cons in Hp.
    destruct Hp as [Hne Hp]. cbn in Hne.
    destruct (Schema.build_path rt now obj (p', s')) as [[b|]|]; [| |done];
      destruct (Schema.build rt now obj schema) as [d0|]; try done;
      injection Hb as <-.
    + rewrite lookup_insert_ne by done. by apply IH.
    + by apply IH.
Qed.

Lemma build_lookup (schema : list (string * Schema.pspec))
    (d : gmap string bson) (p : string) (s : Schema.pspec) :
  Schema.build rt now obj schema = Some d ->
  NoDup schema.*1 -> (p, s) ∈ schema ->
  Schema.build_path rt now obj (p, s) = Some (d !! p).
Proof.
  revert d. induction schema as [|[p' s'] schema IH]; intros d Hb Hnd Hin.
  - by apply elem_of_nil in Hin.
  - cbn [Schema.build] in Hb. rewrite fmap_cons in Hnd.
    apply NoDup_cons in Hnd as [Hfresh Hnd]. cbn in Hfresh.
    apply elem_of_cons in Hin as [[= -> ->]|Hin].
    + destruct (Schema.build_path rt now obj (p', s')) as [[b|]|]; [| |done];
        destruct (Schema.build rt now obj schema) as [d0|] eqn:Hrest; try done;
        injection Hb as <-.
      * by rewrite lookup_insert_eq.
      * by rewrite (build_lookup_outside schema d0 p').
    + assert (p <> p').
      { intros ->. apply Hfresh. apply list_elem_of_fmap. by exists (p', s). }
      destruct (Schema.build_path rt now obj (p', s')) as [[b|]|]; [| |done];
        destruct (Schema.build rt now obj schema) as [d0|] eqn:Hrest; try done;
        injection Hb as <-.
      * rewrite lookup_insert_ne by done. by apply IH.
      * by apply IH.
Qed.

End Build.

Lemma schema_paths_distinct : NoDup Schema.propertySchema.*1.
Proof. apply (bool_decide_unpack _). vm_compute. reflexivity. Qed.

(** What [Property.create] leaves at a schema path other than the two it
    sets itself. *)
Lemma created_lookup (rt : Runtime) (fresh : string) (now : Z)
    (obj : gmap string jsval) (db db' : Db) (d : gmap string bson)
    (p : string) (s : Schema.pspec) :
  Property_create rt fresh now obj db = Some (d, db') ->
  (p, s) ∈ Schema.propertySchema -> p <> "_id" -> p <> "updatedAt" ->
  Schema.build_path rt now obj (p, s) = Some (d !! p)
  /\ properties db' = properties db ++ [d] /\ users db' = users db.
Proof.
  unfold Property_create. intros Hc Hin Hid Hup.
  destruct (Schema.build rt now obj Schema.propertySchema) as [d0|] eqn:Hb; [|done].
  cbn in Hc.
  destruct (match obj !! "_id" with
            | Some (VScalar x) => cast_oid (ToString x)
            | Some (VArr _) => None
            | None => Some fresh
            end) as [i|]; [|done].
  cbn in Hc.
  destruct (existsb _ _); [done|].
  destruct (index_accepts rt _); [|done].
  injection Hc as <- <-. split; [|done].
  rewrite (build_lookup rt now obj _ d0 p s Hb schema_paths_distinct Hin).
  f_equal. destruct (_ !! "createdAt");
    by rewrite ?lookup_insert_ne by done.
Qed.

(** ** Validation reads the body path by path *)

Lemma sanitize_lookup_ext (rules : list (string * Validator.chain * string))
    (b1 b2 : gmap string jsval) (p : string) :
  b1 !! p = b2 !! p ->
  Validator.sanitize rules b1 !! p = Validator.sanitize rules b2 !! p.
Proof.
  intros Hp. induction rules as [|[[path c] msg] rules IH]; [done|].
  cbn [Validator.sanitize foldr]. fold (Validator.sanitize rules b1).
  fold (Validator.sanitize rules b2).
  destruct c; try done.
  destruct (decide (path = p)) as [->|Hne].
  - rewrite IH. destruct (Validator.sanitize_trim _) eqn:E.
    + by rewrite !lookup_insert_eq.
    + done.
  - destruct (Validator.sanitize_trim (Validator.sanitize rules b1 !! path)),
      (Validator.sanitize_trim (Validator.sanitize rules b2 !! path));
      by rewrite ?lookup_insert_ne by done.
Qed.

Lemma sanitize_lookup_outside (rules : list (string * Validator.chain * string))
    (b : gmap string jsval) (p : string) :
  p ∉ rule_path <$> rules ->
  Validator.sanitize rules b !! p = b !! p.
Proof.
  induction rules as [|[[path c] msg] rules IH]; [done|].
  rewrite fmap_cons, not_elem_of_cons. cbn. intros [Hne Hp].
  fold (Validator.sanitize rules b).
  destruct c; try by apply IH.
  destruct (Validator.sanitize_trim _); [|by apply IH].
  rewrite lookup_insert_ne by done. by apply IH.
Qed.

Lemma errors_ext (rules : list (string * Validator.chain * string))
    (b1 b2 : gmap string jsval) :
  (forall p, p ∈ rule_path <$> rules ->
             b1 !! p = b2 !! p) ->
  flat_map (Validator.run_chain b1) rules = flat_map (Validator.run_chain b2) rules.
Proof.
  induction rules as [|[[path c] msg] rules IH]; [done|].
  intros Hagree. cbn [flat_map]. rewrite IH.
  - f_equal. unfold Validator.run_chain. rewrite (Hagree path); [done|].
    rewrite fmap_cons. apply list_elem_of_here.
  - intros p Hp. apply Hagree. rewrite fmap_cons. by apply list_elem_of_further.
Qed.

Lemma owner_not_validated :
  "owner" ∉ rule_path <$> propertyValidation.
Proof. apply (bool_decide_unpack _). vm_compute. reflexivity. Qed.

Lemma status_not_validated :
  "status" ∉ rule_path <$> propertyValidation.
Proof. apply (bool_decide_unpack _). vm_compute. reflexivity. Qed.

(** The object [{ ...req.body, owner: req.user.id }] does not depend on the
    [owner] of the body. *)
Lemma spread_owner_ext (b1 b2 : gmap string jsval) (v : jsval) :
  delete "owner" b1 = delete "owner" b2 ->
  <["owner" := v]> (Validator.sanitize propertyValidation b1)
  = <["owner" := v]> (Validator.sanitize propertyValidation b2).
Proof.
  intros Hdel. apply map_eq. intros p.
  destruct (decide (p = "owner")) as [->|Hne].
  - by rewrite !lookup_insert_eq.
  - rewrite !lookup_insert_ne by done. apply sanitize_lookup_ext.
    by rewrite <- (lookup_delete_ne b1 "owner" p), Hdel, lookup_delete_ne.
Qed.

(** ** Creation *)

(** C2. The owner a creation stores is the authenticated user, whatever
    [owner] the body carries: two creation requests of one user whose
    bodies differ at most in their [owner] are answered alike and leave
    the same store, and the property a 201 carries, which is the one
    appended to the collection, has the user's identifier as its owner. *)
Theorem created_owner_is_the_actor (rt : Runtime) (fresh : string) (now : Z)
    (user : Actor) (b1 b2 : gmap string jsval) (db : Db) :
  delete "owner" b1 = delete "owner" b2 ->
  create rt fresh now user b1 db = create rt fresh now user b2 db
  /\ forall property db',
       create rt fresh now user b1 db = (reply 201 (Property property), db') ->
       properties db' = properties db ++ [property]
       /\ exists i, cast_oid (actor_id user) = Some i
                    /\ doc_owner property = Some i.
Proof.
  intros Hdel. split.
  - unfold create, Validator.run.
    rewrite (errors_ext _ b1 b2), (spread_owner_ext b1 b2 _ Hdel); [done|].
    intros p Hp. assert (p <> "owner").
    { intros ->. by apply owner_not_validated. }
    by rewrite <- (lookup_delete_ne b1 "owner" p), Hdel, lookup_delete_ne.
  - intros property db'. unfold create, Validator.run.
    destruct (flat_map _ _); [|done].
    destruct (Property_create _ _ _ _ _) as [[d db0]|] eqn:Hc; [|done].
    intros [= -> ->].
    destruct (created_lookup _ _ _ _ _ _ _ "owner" (Schema.req (Schema.path Schema.TObjectId)) Hc)
      as (Hpath & Hprops & _); [|done|done|].
    { unfold Schema.propertySchema. repeat constructor. }
    split; [done|].
    unfold Schema.build_path in Hpath. rewrite lookup_insert_eq in Hpath.
    cbn in Hpath. unfold Schema.castObjectId in Hpath. cbn in Hpath.
    destruct (cast_oid (actor_id user)) as [i|]; [|done].
    exists i. split; [done|]. cbn in Hpath. injection Hpath as Hpath.
    unfold doc_owner. by rewrite <- Hpath.
Qed.

Lemma created_owner_is_the_actor_witness :
  let sent := <["owner" := VScalar (SStr (actor_id Sample.bob))]> Sample.listing in
  let r := create Reference.runtime Sample.flat 1000 Sample.alice sent
             Sample.registered in
  r = create Reference.runtime Sample.flat 1000 Sample.alice Sample.listing
        Sample.registered
  /\ r = (reply 201 (Property Sample.stored_flat), Sample.listed)
  /\ properties Sample.listed = properties Sample.registered ++ [Sample.stored_flat]
  /\ doc_owner Sample.stored_flat = Some (actor_id Sample.alice)
  /\ stored_owner Sample.flat Sample.listed = Some (actor_id Sample.alice).
Proof.
  intros sent r.
  assert (Hr : r = (reply 201 (Property Sample.stored_flat), Sample.listed))
    by vm_cast_no_check
         (eq_refl (reply 201 (Property Sample.stored_flat), Sample.listed)).
  destruct (created_owner_is_the_actor Reference.runtime Sample.flat 1000
              Sample.alice sent Sample.listing Sample.registered)
    as [Hsame Howner].
  { apply delete_insert_eq. }
  destruct (Howner Sample.stored_flat Sample.listed Hr) as (Hlast & i & Hi & Ho).
  assert (i = actor_id Sample.alice) as ->.
  { revert Hi. vm_compute. by intros [= <-]. }
  split; [exact Hsame|]. split; [exact Hr|]. split; [exact Hlast|].
  split; [exact Ho|]. vm_compute. reflexivity.
Defined.

(** C8, as the handler has it. A creation request that passes the
    validation set and carries no [status] is answered 201 with a property
    whose status is "pending", which is appended to the collection, unless
    the store refuses the document (a cast, a schema validator, a taken
    identifier or an index): that is answered 500 and changes nothing. *)
Theorem created_status (rt : Runtime) (fresh : string) (now : Z)
    (user : Actor) (body : gmap string jsval) (db : Db) :
  (Validator.run propertyValidation body).1 = [] ->
  body !! "status" = None ->
  let r := create rt fresh now user body db in
  (status r.1 = 201%nat
   /\ json r.1 = Property (data_of r.1)
   /\ properties r.2 = properties db ++ [data_of r.1]
   /\ data_of r.1 !! "status" = Some (BStr "pending"))
  \/ r = (reply 500 (Failure "Error creating property"), db).
Proof.
  unfold create, Validator.run. cbn [fst]. intros -> Hnone.
  destruct (Property_create _ _ _ _ _) as [[d db']|] eqn:Hc; [left | by right].
  destruct (created_lookup _ _ _ _ _ _ _ "status"
              (Schema.or_else (Schema.Default (BStr "pending"))
                 (Schema.among Schema.statuses (Schema.path Schema.TString))) Hc)
    as (Hpath & Hprops & _); [|done|done|].
  { unfold Schema.propertySchema. repeat constructor. }
  cbn [fst snd status json data_of reply]. repeat split; try done.
  unfold Schema.build_path in Hpath.
  rewrite lookup_insert_ne, sanitize_lookup_outside, Hnone in Hpath
    by (done || apply status_not_validated).
  cbn in Hpath. by injection Hpath as <-.
Qed.

Lemma created_status_witness :
  let r := create Reference.runtime Sample.flat 1000 Sample.alice
             Sample.listing Sample.registered in
  status r.1 = 201%nat
  /\ data_of r.1 !! "status" = Some (BStr "pending").
Proof.
  destruct (created_status Reference.runtime Sample.flat 1000 Sample.alice
              Sample.listing Sample.registered) as [(H201 & _ & _ & Hp)|H500].
  - vm_compute. reflexivity.
  - vm_compute. reflexivity.
  - split; [exact H201 | exact Hp].
  - exfalso. apply (f_equal (fun r => status r.1)) in H500.
    revert H500. vm_compute. discriminate.
Defined.

(** C8 does not hold as stated. A body that passes the validation set and
    asks for a negative number of bedrooms is refused by the schema and
    answered 500; one that passes it and carries [status: "sold"] is
    answered 201 with a property whose status is "sold". *)
Lemma creation_not_always_pending :
  let cellar := <["bedrooms" := VScalar (SInt (-1))]> Sample.listing in
  let sold := <["status" := VScalar (SStr "sold")]> Sample.listing in
  let create := create Reference.runtime Sample.flat 1000 Sample.alice in
  ((Validator.run propertyValidation cellar).1 = []
   /\ status (create cellar Sample.registered).1 = 500%nat)
  /\ ((Validator.run propertyValidation sold).1 = []
      /\ status (create sold Sample.registered).1 = 201%nat
      /\ data_of (create sold Sample.registered).1 !! "status"
         = Some (BStr "sold")).
Proof. repeat split; vm_compute; reflexivity. Qed.

(** ** The owner under an update *)

Lemma lookup_unset_replaced (obj : gmap string jsval) (d : gmap string bson)
    (p : string) :
  unset_replaced obj d !! p = if replaced obj p then None else d !! p.
Proof.
  unfold unset_replaced. destruct (replaced obj p) eqn:Hr.
  - apply map_lookup_filter_None. right. intros b _. cbn. by rewrite Hr.
  - destruct (d !! p) as [b|] eqn:Hb.
    + by apply map_lookup_filter_Some.
    + apply map_lookup_filter_None. by left.
Qed.

Lemma apply_set_untouched (rt : Runtime) (obj : gmap string jsval)
    (schema : list (string * Schema.pspec)) (d d' : gmap string bson)
    (p : string) :
  obj !! p = None -> apply_set rt obj schema d = Some d' -> d' !! p = d !! p.
Proof.
  intros Hp. revert d. induction schema as [|[p' s] schema IH]; intros d.
  - by intros [= <-].
  - cbn [apply_set]. destruct (obj !! p') as [v|] eqn:Hv; [|apply IH].
    destruct (bool_decide (p' = "createdAt")); [apply IH|].
    destruct (Schema.cast rt s v) as [b|]; [|done].
    destruct (Schema.valid s (Some b)); [|done].
    intros Hd'%IH. rewrite Hd', lookup_insert_ne; [done|]. intros ->. congruence.
Qed.

Lemma findByIdAndUpdate_keeps_owner (rt : Runtime) (now : Z) (i : string)
    (obj : gmap string jsval) (d d' : gmap string bson) (db db' : Db) :
  obj !! "owner" = None ->
  Property_findByIdAndUpdate rt now i obj d db = Some (d', db') ->
  doc_owner d' = doc_owner d.
Proof.
  intros Hobj. unfold Property_findByIdAndUpdate.
  destruct (apply_set rt obj Schema.propertySchema (unset_replaced obj d))
    as [d0|] eqn:Hset; [|done].
  cbn [mbind option_bind].
  destruct (match obj !! "_id" with Some _ => _ | None => _ end); [|done].
  cbn [mbind option_bind]. destruct (_ && _); [|done]. intros [= <- _].
  unfold doc_owner. rewrite lookup_insert_ne by done.
  rewrite (apply_set_untouched rt _ _ _ d0 "owner" Hobj Hset).
  rewrite lookup_unset_replaced.
  assert (replaced obj "owner" = false) as -> by reflexivity. reflexivity.
Qed.

(** The owner changes under an update only when the body names one. *)
Lemma update_keeps_owner (rt : Runtime) (now : Z) (user : Actor) (id : string)
    (body : gmap string jsval) (db db' : Db) (d : gmap string bson)
    (r : response) :
  Property_findById id db = Some (Some d) -> body !! "owner" = None ->
  update rt now user id body db = (r, db') -> status r = 200%nat ->
  doc_owner (data_of r) = doc_owner d.
Proof.
  intros Hd Hbody. unfold update, Validator.run.
  destruct (flat_map _ _); [|by intros [= <- _]].
  rewrite Hd. destruct (doc_id d) as [i|]; [|by intros [= <- _]].
  destruct (doc_owner d) as [owner|] eqn:Ho; [|by intros [= <- _]].
  destruct (_ && _); [by intros [= <- _]|].
  destruct (Property_findByIdAndUpdate _ _ _ _ _ _) as [[d' db0]|] eqn:Hu;
    [|by intros [= <- _]].
  intros [= <- _] _. cbn [data_of json reply]. rewrite <- Ho.
  apply (findByIdAndUpdate_keeps_owner rt now i
           (Validator.sanitize propertyValidation body) d d' db db0);
    [|exact Hu].
  rewrite sanitize_lookup_outside; [exact Hbody | apply owner_not_validated].
Qed.


(** ** Pagination *)








(** ** The listing filter *)

Lemma weaker_refl (p : string) (c : condition) : weaker p c c.
Proof. by split. Qed.

Lemma relaxes_refl (q : gmap string condition) : relaxes q q.
Proof. intros p c Hc. exists c. split; [done | apply weaker_refl]. Qed.

Lemma relaxes_insert (q' q : gmap string condition) (p : string)
    (c' c : condition) :
  weaker p c' c -> relaxes q' q -> relaxes (<[p := c']> q') (<[p := c]> q).
Proof.
  intros Hw Hr r cr. destruct (decide (p = r)) as [->|Hne].
  - rewrite !lookup_insert_eq. intros [= <-]. by exists c.
  - rewrite !lookup_insert_ne by done. apply Hr.
Qed.

Lemma relaxes_insert_r (q' q : gmap string condition) (p : string)
    (c : condition) :
  q !! p = None -> relaxes q' q -> relaxes q' (<[p := c]> q).
Proof.
  intros Hp Hr r cr Hcr. destruct (Hr r cr Hcr) as (c0 & Hc0 & Hw).
  exists c0. split; [|done]. rewrite lookup_insert_ne; [done|].
  intros ->. congruence.
Qed.

Lemma relaxes_set_if (q' q : gmap string condition) (p : string)
    (o : option condition) :
  relaxes q' q -> relaxes (set_if p o q') (set_if p o q).
Proof.
  destruct o as [c|]; [|done]. apply relaxes_insert, weaker_refl.
Qed.

Lemma relaxes_set_if_r (q' q : gmap string condition) (p : string)
    (o : option condition) :
  q !! p = None -> relaxes q' q -> relaxes q' (set_if p o q).
Proof. destruct o as [c|]; [|done]. apply relaxes_insert_r. Qed.

Lemma lookup_set_if_ne (q : gmap string condition) (p r : string)
    (o : option condition) :
  p <> r -> set_if p o q !! r = q !! r.
Proof. intros Hne. destruct o; [|done]. by apply lookup_insert_ne. Qed.

Lemma weaker_between_gte (p : string) (a : option Js.number)
    (b : option Js.number) :
  weaker p (Between None b) (Between a b).
Proof.
  split.
  - unfold cast_condition. destruct (path_type p) as [[]|]; try done.
    by intros [_ ?]%andb_prop.
  - intros [[]|]; try done. cbn. unfold bounded. by intros [_ ->]%andb_prop.
Qed.

Lemma weaker_between_lte (p : string) (a : option Js.number)
    (b : option Js.number) :
  weaker p (Between a None) (Between a b).
Proof.
  split.
  - unfold cast_condition. destruct (path_type p) as [[]|]; try done.
    intros [-> _]%andb_prop. done.
  - intros [[]|]; try done. cbn. unfold bounded.
    intros [-> _]%andb_prop. done.
Qed.

Lemma matches_spec (query : gmap string condition) (d : gmap string bson) :
  matches query d = true
  <-> forall p c, query !! p = Some c -> meets c (d !! p) = true.
Proof.
  unfold matches. rewrite forallb_forall. split.
  - intros H p c Hc. apply (H (p, c)). apply list_elem_of_In.
    by apply elem_of_map_to_list.
  - intros H [p c] Hin. apply H. apply elem_of_map_to_list.
    by apply list_elem_of_In.
Qed.

Lemma castable_spec (query : gmap string condition) :
  forallb (fun '(p, c) => cast_condition p c) (map_to_list query) = true
  <-> forall p c, query !! p = Some c -> cast_condition p c = true.
Proof.
  rewrite forallb_forall. split.
  - intros H p c Hc. apply (H (p, c)). apply list_elem_of_In.
    by apply elem_of_map_to_list.
  - intros H [p c] Hin. apply H. apply elem_of_map_to_list.
    by apply list_elem_of_In.
Qed.

(** A relaxed query can be run whenever the query can, and finds at least
    what it finds. *)
Lemma relaxes_find (q' q : gmap string condition) (db : Db)
    (found : list (gmap string bson)) :
  relaxes q' q -> Property_find q db = Some found ->
  exists found', Property_find q' db = Some found' /\ found ⊆ found'.
Proof.
  intros Hr. unfold Property_find.
  destruct (forallb _ (map_to_list q)) eqn:Hq; [|done]. intros [= <-].
  rewrite castable_spec in Hq.
  assert (forallb (fun '(p, c) => cast_condition p c) (map_to_list q') = true) as ->.
  { apply castable_spec. intros p c' Hc'.
    destruct (Hr p c' Hc') as (c & Hc & Hcast & _). eauto. }
  eexists. split; [done|]. intros d.
  rewrite !list_elem_of_In, !filter_In, !matches_spec.
  intros [Hin Hm]. split; [done|]. intros p c' Hc'.
  destruct (Hr p c' Hc') as (c & Hc & _ & Hmeets). eauto.
Qed.

Ltac lookup_none :=
  repeat first [ rewrite lookup_set_if_ne by done
               | rewrite lookup_insert_ne by done ];
  apply lookup_empty.

Ltac relax :=
  repeat first
    [ apply relaxes_refl
    | apply relaxes_set_if
    | apply relaxes_insert;
      [ first [ apply weaker_refl | apply weaker_between_gte
              | apply weaker_between_lte ] | ]
    | apply relaxes_set_if_r; [ lookup_none | ]
    | apply relaxes_insert_r; [ lookup_none | ] ].

Ltac run_query Hq :=
  revert Hq;
  repeat match goal with
         | |- context [truthy (?q !! ?k)] =>
             generalize (truthy (q !! k)); intro
         end;
  repeat match goal with
         | o : option string |- context [RegExp_i ?rt <$> _] => fail
         | |- context [match ?o with Some _ => _ | None => _ end] =>
             is_var o; destruct o
         end;
  repeat match goal with
         | |- context [RegExp_i ?rt ?c] => destruct (RegExp_i rt c)
         end;
  cbn; intros Hq; try discriminate Hq; injection Hq as <-;
  eexists; (split; [reflexivity|]); relax.

(** Leaving a parameter out of [req.query] relaxes the query built. *)
Lemma build_query_relaxes (rt : Runtime) (q : gmap string string) (p : string)
    (query : gmap string condition) :
  build_query rt q = Some query ->
  exists query', build_query rt (delete p q) = Some query' /\ relaxes query' query.
Proof.
  intros Hq. unfold build_query in *.
  destruct (decide (p = "propertyType")) as [->|].
  { rewrite lookup_delete_eq, !lookup_delete_ne by done. cbn [truthy].
    run_query Hq. }
  destruct (decide (p = "listingType")) as [->|].
  { rewrite lookup_delete_eq, !lookup_delete_ne by done. cbn [truthy].
    run_query Hq. }
  destruct (decide (p = "minPrice")) as [->|].
  { rewrite lookup_delete_eq, !lookup_delete_ne by done. cbn [truthy].
    run_query Hq. }
  destruct (decide (p = "maxPrice")) as [->|].
  { rewrite lookup_delete_eq, !lookup_delete_ne by done. cbn [truthy].
    run_query Hq. }
  destruct (decide (p = "city")) as [->|].
  { rewrite lookup_delete_eq, !lookup_delete_ne by done. cbn [truthy].
    run_query Hq. }
  destruct (decide (p = "state")) as [->|].
  { rewrite lookup_delete_eq, !lookup_delete_ne by done. cbn [truthy].
    run_query Hq. }
  destruct (decide (p = "bedrooms")) as [->|].
  { rewrite lookup_delete_eq, !lookup_delete_ne by done. cbn [truthy].
    run_query Hq. }
  destruct (decide (p = "bathrooms")) as [->|].
  { rewrite lookup_delete_eq, !lookup_delete_ne by done. cbn [truthy].
    run_query Hq. }
  destruct (decide (p = "amenities")) as [->|].
  { rewrite lookup_delete_eq, !lookup_delete_ne by done. cbn [truthy].
    run_query Hq. }
  rewrite !lookup_delete_ne by done. exists query. split; [done | apply relaxes_refl].
Qed.

(** C4. The listing filter is monotone in the omission of a parameter:
    on a fixed collection, whenever a request matches a set, the request
    without one of its query parameters, whichever it is, matches a set
    that includes it; and a request without parameters matches the whole
    collection. *)
Theorem filter_monotone (rt : Runtime) (q : gmap string string) (p : string)
    (db : Db) (found : list (gmap string bson)) :
  matching rt q db = Some found ->
  (exists found', matching rt (delete p q) db = Some found' /\ found ⊆ found')
  /\ matching rt ∅ db = Some (properties db).
Proof.
  unfold matching. intros Hm. split.
  - destruct (build_query rt q) as [query|] eqn:Hq; [|done].
    destruct (build_query_relaxes rt q p query Hq) as (query' & -> & Hr).
    by apply (relaxes_find query' query).
  - assert (build_query rt ∅ = Some ∅) as -> by reflexivity.
    unfold Property_find. rewrite map_to_list_empty. cbn [forallb]. f_equal.
    induction (properties db) as [|d l IH]; [done|]. cbn [List.filter].
    unfold matches at 1. rewrite map_to_list_empty. cbn [forallb]. by f_equal.
Qed.

Lemma filter_monotone_witness :
  exists found',
    matching Reference.runtime (delete "city" Sample.in_pune) Sample.listed
    = Some found'
    /\ [Sample.stored_flat] ⊆ found'.
Proof.
  apply (filter_monotone Reference.runtime Sample.in_pune "city" Sample.listed
           [Sample.stored_flat]).
  vm_cast_no_check (eq_refl (Some [Sample.stored_flat])).
Defined.

(** ** The recent inquiries *)

(** With identifiers that are unique, the [$lookup] of an identifier
    finds the one user that has it, or none. *)
Lemma lookup_unique (us : list User) (i : string) :
  NoDup (user_id <$> us) ->
  List.filter (fun u => String.eqb i (user_id u)) us
  = option_list (List.find (is_user i) us).
Proof.
  unfold is_user. induction us as [|u us IH]; [done|].
  rewrite fmap_cons. intros [Hfresh Hnd]%NoDup_cons. cbn.
  destruct (String.eqb i (user_id u)) eqn:E.
  - apply String.eqb_eq in E. subst i. cbn. f_equal.
    clear IH Hnd. induction us as [|v us IH]; [done|].
    rewrite fmap_cons, not_elem_of_cons in Hfresh. destruct Hfresh as [Hne Hfresh].
    cbn. destruct (String.eqb (user_id u) (user_id v)) eqn:E.
    + by apply String.eqb_eq in E.
    + by apply IH.
  - by apply IH.
Qed.

Lemma lookup_submitter (us : list User) (r : inquiry_row) :
  NoDup (user_id <$> us) ->
  (lookup_user us r).2 = option_list (submitter us r).
Proof.
  intros Hnd. unfold lookup_user, submitter. cbn.
  destruct (inq_user (row_inquiry r)) as [i|].
  - by apply lookup_unique.
  - clear Hnd. induction us as [|u us IH]; [done | exact IH].
Qed.

Lemma join_is_omap (us : list User) (rows : list inquiry_row) :
  NoDup (user_id <$> us) ->
  project_inquiry <$> unwind_user (lookup_user us <$> rows)
  = omap (fun r => (fun u => project_inquiry (r, u)) <$> submitter us r) rows.
Proof.
  intros Hnd. unfold unwind_user. induction rows as [|r rows IH]; [done|].
  rewrite fmap_cons. cbn [mbind list_bind]. rewrite fmap_app, IH. cbn [omap list_omap].
  pose proof (lookup_submitter us r Hnd) as Hl.
  destruct (lookup_user us r) as [r' l] eqn:E. cbn in Hl. subst l.
  assert (r' = r) as -> by (unfold lookup_user in E; congruence).
  by destruct (submitter us r).
Qed.

Lemma submitter_spec (us : list User) (r : inquiry_row) (u : User) :
  submitter us r = Some u ->
  u ∈ us /\ inq_user (row_inquiry r) = Some (user_id u).
Proof.
  unfold submitter. destruct (inq_user (row_inquiry r)) as [i|]; [|done].
  intros [Hin Hid]%find_some. split; [by apply list_elem_of_In|].
  unfold is_user in Hid. by apply String.eqb_eq in Hid as ->.
Qed.

Lemma length_omap_le {A B} (f : A -> option B) (l : list A) :
  (length (omap f l) <= length l)%nat.
Proof.
  induction l as [|x l IH]; [done|]. cbn. destruct (f x); cbn; lia.
Qed.

Lemma no_user_no_entry (rows : list inquiry_row) :
  unwind_user (lookup_user [] <$> rows) = [].
Proof. unfold unwind_user. by induction rows. Qed.

Lemma later_transitive {A} (key : A -> Z) :
  Transitive (fun x y => key y <= key x).
Proof. intros x y z ??. lia. Qed.

Lemma later_total {A} (key : A -> Z) : Total (Reference.later key).
Proof. intros x y. unfold Reference.later. lia. Qed.

(** The merge sort of the reference runtime sorts. *)
Lemma reference_sorts : sorts_descending Reference.runtime.
Proof.
  split; intros A key l; cbn [sort_stage Reference.runtime];
    unfold Reference.latest_first.
  - apply merge_sort_Permutation.
  - apply (@Sorted_merge_sort _ _ _ (later_total key)).
Qed.

(** C10. With a [$sort] that sorts and user identifiers that are unique,
    the recent inquiries are made in two steps. First the five latest
    inquiries of all properties are selected ([top], against [rest]).
    Then each selected inquiry is joined to its user: the list is, in
    order, the selected inquiries whose user is in the users collection,
    so every entry has such a user, the others are dropped, and the list
    has at most five entries. It can have fewer although five inquiries
    exist. *)
Theorem recent_inquiries_selected_then_joined (rt : Runtime) (db : Db) :
  sorts_descending rt ->
  NoDup (user_id <$> users db) ->
  let key := fun r => inq_createdAt (row_inquiry r) in
  let rows := unwind_inquiries (properties db) in
  (exists top rest,
     top ++ rest ≡ₚ rows
     /\ length top = Nat.min 5 (length rows)
     /\ (forall x y, x ∈ top -> y ∈ rest -> key y <= key x)
     /\ AdminRoutes.recent_inquiries rt db
        = omap (fun r => (fun u => project_inquiry (r, u))
                           <$> submitter (users db) r) top
     /\ (forall e, e ∈ AdminRoutes.recent_inquiries rt db ->
           exists r u, r ∈ top /\ u ∈ users db
                       /\ inq_user (row_inquiry r) = Some (user_id u)
                       /\ e = project_inquiry (r, u))
     /\ (length (AdminRoutes.recent_inquiries rt db) <= 5)%nat)
  /\ exists db',
       (5 <= length (unwind_inquiries (properties db')))%nat
       /\ (length (AdminRoutes.recent_inquiries rt db') < 5)%nat.
Proof.
  intros [Hperm Hsorted] Hnd key rows. split.
  - set (sorted := sort_stage rt _ key rows).
    assert (Hjoin : AdminRoutes.recent_inquiries rt db
                    = omap (fun r => (fun u => project_inquiry (r, u))
                                       <$> submitter (users db) r) (take 5 sorted)).
    { unfold AdminRoutes.recent_inquiries. by apply join_is_omap. }
    exists (take 5 sorted), (drop 5 sorted). repeat split.
    + rewrite take_drop. apply Hperm.
    + rewrite length_take. f_equal. subst sorted.
      by rewrite (Permutation_length (Hperm _ key rows)).
    + intros x y Hx Hy.
      apply (StronglySorted_app_1_elem_of (fun x y => key y <= key x)
               (take 5 sorted) (drop 5 sorted)); [|done|done].
      rewrite take_drop.
      apply (@Sorted_StronglySorted _ _ (later_transitive key)). apply Hsorted.
    + exact Hjoin.
    + intros e. rewrite Hjoin. intros (r & Hr & Hsome)%list_elem_of_omap.
      destruct (submitter (users db) r) as [u|] eqn:Hu; [|done].
      injection Hsome as <-. destruct (submitter_spec _ _ _ Hu) as [Hin Hid].
      by exists r, u.
    + rewrite Hjoin. etrans; [apply length_omap_le|].
      rewrite length_take. lia.
  - exists Sample.orphaned. split; [done|].
    unfold AdminRoutes.recent_inquiries.
    change (users Sample.orphaned) with (@nil User).
    rewrite no_user_no_entry. cbn. lia.
Qed.

Lemma recent_inquiries_selected_then_joined_witness :
  (length (AdminRoutes.recent_inquiries Reference.runtime Sample.busy) <= 5)%nat.
Proof.
  destruct (recent_inquiries_selected_then_joined Reference.runtime Sample.busy)
    as [(top & rest & _ & _ & _ & _ & _ & Hle) _].
  - exact reference_sorts.
  - apply (bool_decide_unpack _). vm_compute. reflexivity.
  - exact Hle.
Defined.

(** * Further properties of the routes *)

(** ** Stored properties conform to the schema *)

Lemma cast_typed (rt : Runtime) (s : Schema.pspec) (v : jsval) (b : bson) :
  Schema.cast rt s v = Some b -> has_type (Schema.type s) b = true.
Proof.
  unfold Schema.cast. destruct (Schema.type s), v as [x|l]; try done.
  - destruct (Schema.trimmed s); by intros [= <-].
  - unfold Schema.castNumber. destruct x as [[]|z|[|a t]]; cbn;
      try (by intros [= <-]);
      match goal with
      | |- context [Js.isNaN ?n] => destruct (Js.isNaN n) eqn:E; [done|]
      end; intros [= <-]; cbn; by rewrite E.
  - unfold Schema.castBoolean. destruct x as [b0|z|s0].
    + by intros [= <-].
    + destruct z as [|[]|]; try done; by intros [= <-].
    + repeat case_bool_decide; try done; by intros [= <-].
  - unfold Schema.castObjectId. destruct (cast_oid _); [|done]. by intros [= <-].
  - unfold Schema.castDate. destruct x as [b0|z|[|a t]]; try done.
    + destruct (_ <=? _); [|done]. by intros [= <-].
    + by intros [= <-].
    + destruct (Date_parse rt _); [|done]. by intros [= <-].
  - destruct (mapM _ _); [|done]. by intros [= <-].
  - destruct (mapM _ _); [|done]. by intros [= <-].
  - destruct (mapM _ _); [|done]. by intros [= <-].
  - destruct (mapM _ _); [|done]. by intros [= <-].
  - destruct l; [|done]. by intros [= <-].
  - destruct l; [|done]. by intros [= <-].
Qed.

Lemma defaults_typed :
  forallb (fun entry : string * Schema.pspec => default_typed entry.2)
    Schema.propertySchema = true.
Proof. vm_compute. reflexivity. Qed.

Lemma initial_typed (now : Z) (p : string) (s : Schema.pspec) (b : bson) :
  (p, s) ∈ Schema.propertySchema -> Schema.initial now s = Some b ->
  has_type (Schema.type s) b = true.
Proof.
  intros Hin. pose proof defaults_typed as H. rewrite forallb_forall in H.
  assert (Ht : default_typed s = true).
  { apply (H (p, s)). by apply list_elem_of_In. }
  clear H. unfold default_typed in Ht. unfold Schema.initial.
  destruct (Schema.default s).
  - destruct (Schema.type s); by intros [= <-].
  - by intros [= <-].
  - destruct (Schema.type s); try done; by intros [= <-].
Qed.

Lemma build_path_ok (rt : Runtime) (now : Z) (obj : gmap string jsval)
    (p : string) (s : Schema.pspec) (o : option bson) :
  (p, s) ∈ Schema.propertySchema ->
  Schema.build_path rt now obj (p, s) = Some o -> path_ok s o = true.
Proof.
  intros Hin. unfold Schema.build_path, path_ok.
  destruct (obj !! p) as [v|].
  - destruct (Schema.cast rt s v) as [b|] eqn:Hc; [|done].
    destruct (Schema.valid s (Some b)) eqn:Hv; [|done]. intros [= <-].
    by rewrite Hv, (cast_typed rt s v b Hc).
  - destruct (Schema.valid s (Schema.initial now s)) eqn:Hv; [|done].
    intros [= <-]. rewrite Hv. cbn.
    destruct (Schema.initial now s) as [b|] eqn:Hi; [|done].
    by apply (initial_typed now p s b).
Qed.

Lemma store_paths_apart (p : string) (s : Schema.pspec) :
  (p, s) ∈ Schema.propertySchema -> p <> "_id" /\ p <> "updatedAt".
Proof.
  intros Hin.
  assert (Hp : p ∈ Schema.propertySchema.*1).
  { apply list_elem_of_fmap. by exists (p, s). }
  split; intros ->; revert Hp; apply (bool_decide_unpack _); vm_compute; reflexivity.
Qed.

Lemma created_conforms (rt : Runtime) (fresh : string) (now : Z)
    (obj : gmap string jsval) (db db' : Db) (d : gmap string bson) :
  Property_create rt fresh now obj db = Some (d, db') -> conforms d.
Proof.
  intros Hc p s Hin. destruct (store_paths_apart p s Hin) as [Hid Hup].
  destruct (created_lookup rt fresh now obj db db' d p s Hc Hin Hid Hup) as [Hb _].
  by apply (build_path_ok rt now obj p s).
Qed.

(** A path keeps what the schema asks of it when a value that meets it is
    written to it, or when another path is written. *)
Lemma conforms_insert (d : gmap string bson) (p : string) (b : bson) :
  conforms d ->
  (forall s, (p, s) ∈ Schema.propertySchema -> path_ok s (Some b) = true) ->
  conforms (<[p := b]> d).
Proof.
  intros Hd Hb q s Hin. destruct (decide (p = q)) as [->|Hne].
  - rewrite lookup_insert_eq. by apply Hb.
  - rewrite lookup_insert_ne by done. by apply Hd.
Qed.

Lemma conforms_updatedAt (d : gmap string bson) (b : bson) :
  conforms d -> conforms (<["updatedAt" := b]> d).
Proof.
  intros Hd. apply conforms_insert; [done|]. intros s Hin.
  by destruct (store_paths_apart _ _ Hin) as [_ ?].
Qed.

Lemma schema_entry (p : string) (s s' : Schema.pspec) :
  (p, s) ∈ Schema.propertySchema -> (p, s') ∈ Schema.propertySchema -> s = s'.
Proof.
  intros H1 H2. pose proof schema_paths_distinct as Hnd.
  apply (elem_of_list_to_map (M := gmap string)) in H1, H2; try done. congruence.
Qed.

(** ** The objects an update replaces *)

Lemma replaced_spec (obj : gmap string jsval) (p : string) :
  replaced obj p = true
  <-> nested p = true
      /\ exists k, is_Some (obj !! k) /\ nested k = true /\ root k = root p.
Proof.
  unfold replaced. rewrite andb_true_iff, existsb_exists. split.
  - intros [Hp (k & Hin & [Hk Hroot%String.eqb_eq]%andb_true_iff)].
    split; [done|]. exists k. split; [|done].
    apply list_elem_of_In, list_elem_of_fmap in Hin as ([k' v] & -> & Hin).
    apply elem_of_map_to_list in Hin. by exists v.
  - intros [Hp (k & [v Hv] & Hk & Hroot)]. split; [done|]. exists k. split.
    + apply list_elem_of_In, list_elem_of_fmap. exists (k, v).
      split; [done|]. by apply elem_of_map_to_list.
    + rewrite Hk, Hroot. apply String.eqb_refl.
Qed.

(** A body without a nested object replaces nothing. *)
Lemma replaced_top (obj : gmap string jsval) (p : string) :
  (forall k, is_Some (obj !! k) -> nested k = false) -> replaced obj p = false.
Proof.
  intros Htop. apply not_true_iff_false. intros (_ & k & Hk & Hn & _)%replaced_spec.
  rewrite (Htop k Hk) in Hn. discriminate.
Qed.

Lemma unset_replaced_top (obj : gmap string jsval) (d : gmap string bson) :
  (forall k, is_Some (obj !! k) -> nested k = false) -> unset_replaced obj d = d.
Proof.
  intros Htop. apply map_eq. intros p.
  by rewrite lookup_unset_replaced, (replaced_top obj p Htop).
Qed.

(** The leaves an update writes make up for the paths that do not yet
    meet the schema, if each of them is written. *)
Lemma apply_set_completes (rt : Runtime) (obj : gmap string jsval)
    (schema : list (string * Schema.pspec)) (d d' : gmap string bson) :
  schema ⊆ Schema.propertySchema ->
  (forall p s, (p, s) ∈ Schema.propertySchema ->
     path_ok s (d !! p) = true
     \/ ((p, s) ∈ schema /\ is_Some (obj !! p) /\ p <> "createdAt")) ->
  apply_set rt obj schema d = Some d' -> conforms d'.
Proof.
  revert d. induction schema as [|[p0 s0] schema IH]; intros d Hsub Hd.
  - intros [= <-] p s Hin. destruct (Hd p s Hin) as [?|[Hnil _]]; [done|].
    by apply elem_of_nil in Hnil.
  - assert (Hsub' : schema ⊆ Schema.propertySchema).
    { intros x Hx. apply Hsub. by apply list_elem_of_further. }
    assert (Hin0 : (p0, s0) ∈ Schema.propertySchema).
    { apply Hsub. apply list_elem_of_here. }
    assert (Hskip : (obj !! p0 = None \/ p0 = "createdAt") ->
              forall p s, (p, s) ∈ Schema.propertySchema ->
                path_ok s (d !! p) = true
                \/ ((p, s) ∈ schema /\ is_Some (obj !! p) /\ p <> "createdAt")).
    { intros Hp0 p s Hin. destruct (Hd p s Hin) as [?|(Hps & Hsome & Hc)]; [by left|].
      right. apply elem_of_cons in Hps as [[= -> ->]|Hps]; [|done].
      destruct Hp0 as [Hnone| ->]; [|done]. rewrite Hnone in Hsome.
      by destruct Hsome. }
    cbn [apply_set]. destruct (obj !! p0) as [v|] eqn:Hv;
      [|apply IH; [done|]; apply Hskip; by left].
    case_bool_decide as Hc; [apply IH; [done|]; apply Hskip; by right|].
    destruct (Schema.cast rt s0 v) as [b|] eqn:Hcast; [|done].
    destruct (Schema.valid s0 (Some b)) eqn:Hvalid; [|done].
    apply IH; [done|]. intros p s Hin.
    destruct (decide (p = p0)) as [->|Hne].
    + left. rewrite lookup_insert_eq, <- (schema_entry p0 s0 s Hin0 Hin).
      unfold path_ok. by rewrite Hvalid, (cast_typed rt s0 v b Hcast).
    + rewrite lookup_insert_ne by done.
      destruct (Hd p s Hin) as [?|(Hps & Hsome & Hc')]; [by left|].
      right. apply elem_of_cons in Hps as [[= -> ->]|Hps]; done.
Qed.

(** An update leaves a conforming document conforming if it names the
    required paths of the objects it replaces. *)
Lemma updated_conforms (rt : Runtime) (now : Z) (i : string)
    (obj : gmap string jsval) (d d' : gmap string bson) (db db' : Db) :
  conforms d ->
  (forall p s, (p, s) ∈ Schema.propertySchema -> Schema.required s = true ->
     replaced obj p = true -> is_Some (obj !! p)) ->
  Property_findByIdAndUpdate rt now i obj d db = Some (d', db') ->
  conforms d' /\ db' = with_properties db (replace_doc i d' (properties db)).
Proof.
  intros Hd Hreq. unfold Property_findByIdAndUpdate.
  destruct (apply_set rt obj Schema.propertySchema (unset_replaced obj d))
    as [d0|] eqn:Hset; [|done].
  cbn [mbind option_bind].
  destruct (match obj !! "_id" with Some _ => _ | None => _ end); [|done].
  cbn [mbind option_bind]. destruct (_ && _); [|done]. intros [= <- <-].
  split; [|done]. apply conforms_updatedAt.
  apply (apply_set_completes rt obj Schema.propertySchema
           (unset_replaced obj d) d0); [done| |done].
  intros p s Hin. rewrite lookup_unset_replaced.
  destruct (replaced obj p) eqn:Hrep; [|left; by apply Hd].
  destruct (Schema.required s) eqn:Hr.
  - right. split; [done|]. split; [by apply (Hreq p s)|].
    intros ->. apply replaced_spec in Hrep as [Hn _]. by vm_compute in Hn.
  - left. unfold path_ok, Schema.valid. by rewrite Hr.
Qed.

Lemma replace_conforms (i : string) (d' : gmap string bson)
    (l : list (gmap string bson)) :
  conforms d' -> Forall conforms l -> Forall conforms (replace_doc i d' l).
Proof.
  intros Hd' Hl. unfold replace_doc. apply Forall_fmap.
  eapply Forall_impl; [exact Hl|]. intros d Hd. cbn. by destruct (has_id i d).
Qed.

Lemma found_conforms (id : string) (db : Db) (d : gmap string bson) :
  store_conforms db -> Property_findById id db = Some (Some d) -> conforms d.
Proof.
  unfold Property_findById. intros Hdb. destruct (cast_oid id); [|done].
  intros [= [Hin _]%find_some]. unfold store_conforms in Hdb.
  rewrite Forall_forall in Hdb. apply Hdb. by apply list_elem_of_In.
Qed.


Lemma saved_conforms (rt : Runtime) (now : Z) (i : string)
    (d : gmap string bson) (db db' : Db) :
  store_conforms db -> conforms d ->
  Property_save rt now i d db = Some db' -> store_conforms db'.
Proof.
  intros Hdb Hd. unfold Property_save. destruct (_ && _); [|done].
  intros [= <-]. apply replace_conforms; [by apply conforms_updatedAt | done].
Qed.

Lemma views_entry :
  ("views", Schema.or_else (Schema.Default (BNum (Js.of_Z 0)))
              (Schema.path Schema.TNumber)) ∈ Schema.propertySchema.
Proof. unfold Schema.propertySchema. repeat constructor. Qed.

Lemma inquiries_entry :
  ("inquiries", Schema.path Schema.TInquiries) ∈ Schema.propertySchema.
Proof. unfold Schema.propertySchema. repeat constructor. Qed.

(** A body that passes the validation set names the paths it checks. *)
Lemma validated_present (body : gmap string jsval) (p : string) :
  (Validator.run propertyValidation body).1 = [] ->
  p ∈ required_at_creation -> is_Some (body !! p).
Proof.
  unfold Validator.run. cbn [fst]. intros Hnone Hp.
  destruct (body !! p) eqn:Hb; [by eexists|].
  destruct (missing_field_error body p Hp Hb) as (e & He & _).
  rewrite Hnone in He. destruct He.
Qed.

Lemma sanitize_present (rules : list (string * Validator.chain * string))
    (b : gmap string jsval) (p : string) :
  is_Some (b !! p) -> is_Some (Validator.sanitize rules b !! p).
Proof.
  intros Hp. induction rules as [|[[path c] msg] rules IH]; [done|].
  cbn [Validator.sanitize foldr]. fold (Validator.sanitize rules b).
  destruct c; try done.
  destruct (Validator.sanitize_trim _) eqn:E; [|done].
  destruct (decide (path = p)) as [->|Hne].
  - rewrite lookup_insert_eq. by eexists.
  - by rewrite lookup_insert_ne.
Qed.

(** The required paths of the schema that lie in a nested object. *)
Lemma required_nested (p : string) (s : Schema.pspec) :
  (p, s) ∈ Schema.propertySchema -> Schema.required s = true ->
  nested p = true ->
  p ∈ required_at_creation \/ p = "location.coordinates.coordinates".
Proof.
  unfold Schema.propertySchema. intros Hin.
  repeat (apply elem_of_cons in Hin as [[= -> ->]|Hin]);
    [..|by apply elem_of_nil in Hin];
    intros Hreq Hn; try discriminate Hreq; try discriminate Hn;
    first [ by right
          | left; unfold required_at_creation;
            repeat first [apply list_elem_of_here | apply list_elem_of_further] ].
Qed.

(** A valid body of [PUT /properties/:id] that names the position names
    every required path of the objects it replaces. *)
Lemma valid_body_keeps_required (body : gmap string jsval) (p : string)
    (s : Schema.pspec) :
  (Validator.run propertyValidation body).1 = [] ->
  is_Some (body !! "location.coordinates.coordinates") ->
  (p, s) ∈ Schema.propertySchema -> Schema.required s = true ->
  replaced (Validator.sanitize propertyValidation body) p = true ->
  is_Some (Validator.sanitize propertyValidation body !! p).
Proof.
  intros Hvalid Hpos Hin Hreq [Hn _]%replaced_spec. apply sanitize_present.
  destruct (required_nested p s Hin Hreq Hn) as [Hp| ->]; [|done].
  by apply validated_present.
Qed.

(** One request leaves a conforming collection conforming. *)
Lemma store_after_conforms (rt : Runtime) (r : request) (db : Db) :
  names_position r -> store_conforms db -> store_conforms (store_after rt r db).
Proof.
  intros Hpos Hdb. destruct r; cbn [store_after].
  - unfold create, Validator.run. destruct (flat_map _ _); [|done].
    destruct (Property_create _ _ _ _ _) as [[d db']|] eqn:Hc; [|done].
    cbn [snd]. pose proof (created_conforms _ _ _ _ _ _ _ Hc) as Hd.
    destruct (created_lookup _ _ _ _ _ _ _ _ _ Hc views_entry) as (_ & Hp & _);
      [done|done|].
    unfold store_conforms. rewrite Hp. apply Forall_app. split; [done|].
    by apply Forall_singleton.
  - unfold show. destruct (Property_findById id db) as [[d|]|] eqn:Hd; [|done|done].
    pose proof (found_conforms _ _ _ Hdb Hd) as Hcd.
    destruct (doc_id d) as [i|]; [|done].
    destruct (Js.isNaN _) eqn:Hnan; [done|].
    destruct (Property_save _ _ _ _ _) as [db'|] eqn:Hs; [|done]. cbn [snd].
    apply (saved_conforms _ _ _ _ _ _ Hdb) in Hs; [done|].
    apply conforms_insert; [done|]. intros s Hin.
    rewrite <- (schema_entry _ _ _ views_entry Hin).
    unfold path_ok. cbn. by rewrite Hnan.
  - cbn [names_position] in Hpos. unfold update, Validator.run.
    destruct (flat_map _ _) eqn:Hvalid; [|done].
    set (sent := Validator.sanitize propertyValidation body).
    destruct (Property_findById id db) as [[d|]|] eqn:Hd; [|done|done].
    pose proof (found_conforms _ _ _ Hdb Hd) as Hcd.
    destruct (doc_id d) as [i|]; [|done].
    destruct (doc_owner d) as [owner|]; [|done].
    destruct (_ && _); [done|].
    destruct (Property_findByIdAndUpdate _ _ _ _ _ _) as [[d' db']|] eqn:Hu; [|done].
    cbn [snd].
    assert (Hkeep : forall p s, (p, s) ∈ Schema.propertySchema ->
              Schema.required s = true -> replaced sent p = true ->
              is_Some (sent !! p)).
    { intros p s Hin Hreq.
      exact (valid_body_keeps_required body p s Hvalid Hpos Hin Hreq). }
    destruct (updated_conforms rt now i sent d d' db db' Hcd Hkeep Hu)
      as [Hd' ->].
    by apply replace_conforms.
  - unfold remove. destruct (Property_findById id db) as [[d|]|]; [|done|done].
    destruct (doc_id d) as [i|]; [|done].
    destruct (doc_owner d) as [owner|]; [|done].
    destruct (_ && _); [done|]. cbn [snd]. unfold Property_remove, store_conforms.
    cbn [properties with_properties]. unfold store_conforms in Hdb.
    rewrite Forall_forall in *. intros d' [Hin _]%list_elem_of_In%filter_In.
    apply Hdb. by apply list_elem_of_In.
  - unfold inquire. destruct (Property_findById id db) as [[d|]|] eqn:Hd; [|done|done].
    pose proof (found_conforms _ _ _ Hdb Hd) as Hcd.
    destruct (doc_id d) as [i|]; [|done].
    destruct (cast_oid (actor_id user)) as [u|]; [|done].
    destruct (match body !! "message" with Some _ => _ | None => _ end) as [m|];
      [|done].
    destruct (Property_save _ _ _ _ _) as [db'|] eqn:Hs; [|done]. cbn [snd].
    apply (saved_conforms _ _ _ _ _ _ Hdb) in Hs; [done|].
    apply conforms_insert; [done|]. intros s Hin.
    by rewrite <- (schema_entry _ _ _ inquiries_entry Hin).
  - unfold AdminRoutes.set_status, Validator.run. destruct (flat_map _ _); [|done].
    destruct (Property_findById propertyId db) as [[d|]|] eqn:Hd; [|done|done].
    pose proof (found_conforms _ _ _ Hdb Hd) as Hcd.
    destruct (doc_id d) as [i|]; [|done].
    destruct (Property_findByIdAndUpdate _ _ _ _ _ _) as [[d' db']|] eqn:Hu; [|done].
    cbn [snd].
    cbn [snd].
    match type of Hu with
    | Property_findByIdAndUpdate _ _ _ ?obj _ _ = _ =>
        assert (Hkeep : forall p s, (p, s) ∈ Schema.propertySchema ->
                  Schema.required s = true -> replaced obj p = true ->
                  is_Some (obj !! p))
    end.
    { intros p s _ _ Hrep. exfalso. revert Hrep.
      rewrite replaced_top; [done|]. intros k [v Hk].
      destruct (_ !! "status") as [w|]; [|by rewrite lookup_empty in Hk].
      by apply lookup_singleton_Some in Hk as [<- _]. }
    destruct (updated_conforms _ _ _ _ _ _ _ _ Hcd Hkeep Hu) as [Hd' ->].
    by apply replace_conforms.
  - unfold AccountRoutes.set_role, Validator.run. destruct (flat_map _ _); [|done].
    destruct (_ !! "role") as [[x|l]|]; try done;
      by destruct (User_findById userId db) as [[u|]|].
  - unfold AccountRoutes.update_profile, AccountRoutes.updateProfileValidation.
    destruct (match body !! "name" with Some _ => _ | None => _ end); [|done].
    destruct (User_findById _ db) as [[u|]|]; try done.
    by destruct (AccountRoutes.User_update _ u).
  - unfold UserRoutes.add_favorite.
    destruct (Property_findById propertyId db) as [[d|]|]; try done.
    destruct (User_findById _ db) as [[u|]|]; try done.
    destruct (UserRoutes.includes _ _); [done|].
    by destruct (cast_oid propertyId).
  - unfold UserRoutes.remove_favorite.
    destruct (User_findById _ db) as [[u|]|]; try done.
    by destruct (negb _).
Qed.


(** ** One stored property is written, the others are left *)

Lemma findById_stored (id i : string) (db : Db) :
  cast_oid id = Some i -> Property_findById id db = Some (stored i db).
Proof. unfold Property_findById, stored. by intros ->. Qed.

Lemma stored_has_id (i : string) (db : Db) (d : gmap string bson) :
  stored i db = Some d -> doc_id d = Some i.
Proof.
  unfold stored. intros [_ Hid]%find_some. unfold has_id in Hid.
  destruct (doc_id d) as [j|]; [|done]. by apply String.eqb_eq in Hid as ->.
Qed.

Lemma has_id_spec (i : string) (d : gmap string bson) :
  has_id i d = true <-> doc_id d = Some i.
Proof.
  unfold has_id. destruct (doc_id d) as [j|]; [|done]. rewrite String.eqb_eq.
  split; [by intros -> | by intros [= ->]].
Qed.

Lemma find_replace_same (i : string) (d d' : gmap string bson)
    (l : list (gmap string bson)) :
  List.find (has_id i) l = Some d -> doc_id d' = Some i ->
  List.find (has_id i) (replace_doc i d' l) = Some d'.
Proof.
  intros Hf Hd'. apply has_id_spec in Hd'. unfold replace_doc.
  induction l as [|x l IH]; [done|]. cbn in *.
  destruct (has_id i x) eqn:Hx; [by rewrite Hd'|]. rewrite Hx. by apply IH.
Qed.

Lemma find_replace_other (i j : string) (d' : gmap string bson)
    (l : list (gmap string bson)) :
  j <> i -> doc_id d' = Some i ->
  List.find (has_id j) (replace_doc i d' l) = List.find (has_id j) l.
Proof.
  intros Hne Hd'. unfold replace_doc. induction l as [|x l IH]; [done|]. cbn.
  destruct (has_id i x) eqn:Hx.
  - apply has_id_spec in Hx.
    assert (has_id j d' = false) as ->.
    { destruct (has_id j d') eqn:E; [|done]. apply has_id_spec in E. congruence. }
    assert (has_id j x = false) as ->; [|done].
    destruct (has_id j x) eqn:E; [|done]. apply has_id_spec in E. congruence.
  - by rewrite IH.
Qed.

Lemma find_remove_same (i : string) (l : list (gmap string bson)) :
  List.find (has_id i) (List.filter (fun d => negb (has_id i d)) l) = None.
Proof.
  induction l as [|x l IH]; [done|]. cbn.
  destruct (has_id i x) eqn:Hx; [done|]. cbn. by rewrite Hx.
Qed.

Lemma find_remove_other (i j : string) (l : list (gmap string bson)) :
  j <> i ->
  List.find (has_id j) (List.filter (fun d => negb (has_id i d)) l)
  = List.find (has_id j) l.
Proof.
  intros Hne. induction l as [|x l IH]; [done|]. cbn.
  destruct (has_id i x) eqn:Hx; cbn.
  - assert (has_id j x = false) as ->; [|done].
    destruct (has_id j x) eqn:E; [|done]. apply has_id_spec in Hx, E. congruence.
  - by rewrite IH.
Qed.




(** The check of both handlers admits whom [canMutate] admits. *)
Lemma guard_passes (user : Actor) (d : gmap string bson) (owner : string) :
  doc_owner d = Some owner -> canMutate user d = true ->
  negb (String.eqb owner (actor_id user))
  && negb (String.eqb (actor_role user) "admin") = false.
Proof.
  intros Ho. unfold canMutate. rewrite Ho, (String.eqb_sym owner).
  by destruct (String.eqb _ _), (String.eqb _ _).
Qed.

(** X2. [DELETE /properties/:id] by an actor the guard admits removes the
    property and nothing else: the request is answered 200, the
    identifier is stored no more, so that the same request again is
    answered 404, every other property is kept, and the users with their
    favorites are left as they were. *)
Theorem remove_deletes_one_property (user : Actor) (id i : string) (db : Db)
    (d : gmap string bson) :
  cast_oid id = Some i -> stored i db = Some d ->
  is_Some (doc_owner d) -> canMutate user d = true ->
  let r := remove user id db in
  r.1 = reply 200 (Success "Property deleted successfully")
  /\ stored i r.2 = None
  /\ (forall j, j <> i -> stored j r.2 = stored j db)
  /\ users r.2 = users db
  /\ remove user id r.2 = (reply 404 (Failure "Property not found"), r.2).
Proof.
  intros Hi Hd [owner Ho] Hcan.
  assert (Hr : remove user id db
               = (reply 200 (Success "Property deleted successfully"),
                  Property_remove i db)).
  { unfold remove.
    by rewrite (findById_stored id i db Hi), Hd, (stored_has_id i db d Hd), Ho,
      (guard_passes user d owner Ho Hcan). }
  intros r. subst r. rewrite Hr.
  cbn [fst snd]. unfold Property_remove, stored. cbn [properties users with_properties].
  assert (Hgone : List.find (has_id i)
                    (List.filter (fun d => negb (has_id i d)) (properties db)) = None)
    by apply find_remove_same.
  split; [done|]. split; [exact Hgone|].
  split; [by intros j Hj; apply find_remove_other|]. split; [done|].
  unfold remove. rewrite (findById_stored id i _ Hi). unfold stored.
  cbn [properties with_properties]. by rewrite Hgone.
Qed.

Lemma remove_deletes_one_property_witness :
  (remove Sample.alice Sample.flat Sample.listed).1
  = reply 200 (Success "Property deleted successfully").
Proof.
  destruct (remove_deletes_one_property Sample.alice Sample.flat Sample.flat
              Sample.listed Sample.stored_flat) as (H & _).
  - vm_compute. reflexivity.
  - vm_cast_no_check (eq_refl (Some Sample.stored_flat)).
  - exists (actor_id Sample.alice). vm_compute. reflexivity.
  - vm_compute. reflexivity.
  - exact H.
Defined.

(** ** Inquiries *)




(** ** What an update writes *)

Lemma apply_set_kept (rt : Runtime) (obj : gmap string jsval)
    (schema : list (string * Schema.pspec)) (d d' : gmap string bson)
    (p : string) :
  obj !! p = None \/ p = "createdAt" \/ p ∉ schema.*1 ->
  apply_set rt obj schema d = Some d' -> d' !! p = d !! p.
Proof.
  revert d. induction schema as [|[p' s] schema IH]; intros d Hp.
  - by intros [= <-].
  - assert (Hp' : obj !! p = None \/ p = "createdAt" \/ p ∉ schema.*1).
    { destruct Hp as [?|[?|Hp]]; [by left | by right; left |].
      right; right. rewrite fmap_cons, not_elem_of_cons in Hp. by destruct Hp. }
    cbn [apply_set]. destruct (obj !! p') as [v|] eqn:Hv; [|by apply IH].
    case_bool_decide as Hc; [by apply IH|].
    destruct (Schema.cast rt s v) as [b|]; [|done].
    destruct (Schema.valid s (Some b)); [|done].
    intros Hd'. rewrite (IH _ Hp' Hd'). apply lookup_insert_ne.
    intros ->. destruct Hp as [?|[?|Hp]]; [congruence | done |].
    apply Hp. rewrite fmap_cons. apply list_elem_of_here.
Qed.

Lemma apply_set_written (rt : Runtime) (obj : gmap string jsval)
    (schema : list (string * Schema.pspec)) (d d' : gmap string bson)
    (p : string) (s : Schema.pspec) (v : jsval) :
  NoDup schema.*1 -> (p, s) ∈ schema -> p <> "createdAt" ->
  obj !! p = Some v ->
  apply_set rt obj schema d = Some d' ->
  exists b, Schema.cast rt s v = Some b /\ Schema.valid s (Some b) = true
            /\ d' !! p = Some b.
Proof.
  revert d. induction schema as [|[p' s'] schema IH]; intros d Hnd Hin Hc Hv.
  - by apply elem_of_nil in Hin.
  - rewrite fmap_cons in Hnd. apply NoDup_cons in Hnd as [Hfresh Hnd].
    cbn in Hfresh. cbn [apply_set].
    apply elem_of_cons in Hin as [[= <- <-]|Hin].
    + rewrite Hv. rewrite bool_decide_eq_false_2 by done.
      destruct (Schema.cast rt s v) as [b|]; [|done].
      destruct (Schema.valid s (Some b)) eqn:Hvalid; [|done].
      intros Hd'. exists b. repeat split; try done.
      rewrite (apply_set_kept rt obj schema (<[p:=b]> d) d' p);
        [apply lookup_insert_eq | by right; right | done].
    + destruct (obj !! p') as [v'|]; [|by apply IH].
      case_bool_decide; [by apply IH|].
      destruct (Schema.cast rt s' v') as [b'|]; [|done].
      destruct (Schema.valid s' (Some b')); [|done]. by apply IH.
Qed.

(** What [findByIdAndUpdate] leaves in the store. *)
Lemma updated_store (rt : Runtime) (now : Z) (i : string)
    (obj : gmap string jsval) (d d' : gmap string bson) (db db' : Db) :
  stored i db = Some d ->
  Property_findByIdAndUpdate rt now i obj d db = Some (d', db') ->
  stored i db' = Some d'
  /\ (forall j, j <> i -> stored j db' = stored j db)
  /\ users db' = users db
  /\ d' !! "updatedAt" = Some (BDate now)
  /\ (forall p, p <> "updatedAt" ->
        obj !! p = None \/ p = "createdAt" \/ p ∉ Schema.propertySchema.*1 ->
        d' !! p = if replaced obj p then None else d !! p)
  /\ (forall p s v, (p, s) ∈ Schema.propertySchema -> p <> "createdAt" ->
        obj !! p = Some v ->
        exists b, Schema.cast rt s v = Some b /\ Schema.valid s (Some b) = true
                  /\ d' !! p = Some b).
Proof.
  intros Hd. unfold Property_findByIdAndUpdate.
  destruct (apply_set rt obj Schema.propertySchema (unset_replaced obj d))
    as [d0|] eqn:Hset; [|done].
  cbn [mbind option_bind].
  destruct (match obj !! "_id" with Some _ => _ | None => _ end); [|done].
  cbn [mbind option_bind]. destruct (_ && _); [|done]. intros [= <- <-].
  assert (Hid : doc_id (<["updatedAt" := BDate now]> d0) = Some i).
  { unfold doc_id. rewrite lookup_insert_ne by done.
    assert (Hout : "_id" ∉ Schema.propertySchema.*1)
      by (apply (bool_decide_unpack _); vm_compute; reflexivity).
    rewrite (apply_set_kept rt obj _ _ d0 "_id" (or_intror (or_intror Hout)) Hset).
    rewrite lookup_unset_replaced.
    assert (replaced obj "_id" = false) as -> by reflexivity.
    apply (stored_has_id i db d Hd). }
  unfold stored in *. cbn [properties users with_properties].
  split; [by apply (find_replace_same i d)|].
  split; [by intros j Hj; apply find_replace_other|]. split; [done|].
  split; [apply lookup_insert_eq|]. split.
  - intros p Hup Hp. rewrite lookup_insert_ne by done.
    rewrite (apply_set_kept rt obj Schema.propertySchema _ d0 p Hp Hset).
    apply lookup_unset_replaced.
  - intros p s v Hin Hc Hv.
    destruct (apply_set_written rt obj _ _ d0 p s v schema_paths_distinct Hin Hc Hv Hset)
      as (w & Hcast & Hvalid & Hw).
    exists w. repeat split; try done. rewrite lookup_insert_ne; [done|].
    intros <-. by destruct (store_paths_apart _ _ Hin).
Qed.



(** ** The status an admin sets *)

Lemma apply_set_succeeds (rt : Runtime) (obj : gmap string jsval)
    (schema : list (string * Schema.pspec)) (d : gmap string bson) :
  (forall p s v, (p, s) ∈ schema -> p <> "createdAt" -> obj !! p = Some v ->
     exists b, Schema.cast rt s v = Some b /\ Schema.valid s (Some b) = true) ->
  is_Some (apply_set rt obj schema d).
Proof.
  revert d. induction schema as [|[p s] schema IH]; intros d Hok; [by eexists|].
  assert (Hrest : forall p s v, (p, s) ∈ schema -> p <> "createdAt" ->
            obj !! p = Some v ->
            exists b, Schema.cast rt s v = Some b /\ Schema.valid s (Some b) = true).
  { intros p' s' v' Hin. apply Hok. by apply list_elem_of_further. }
  cbn [apply_set]. destruct (obj !! p) as [v|] eqn:Hv; [|by apply IH].
  case_bool_decide as Hc; [by apply IH|].
  destruct (Hok p s v) as (b & -> & ->); [apply list_elem_of_here|done|done|].
  by apply IH.
Qed.

Lemma status_entry :
  ("status", Schema.or_else (Schema.Default (BStr "pending"))
               (Schema.among Schema.statuses (Schema.path Schema.TString)))
  ∈ Schema.propertySchema.
Proof. unfold Schema.propertySchema. repeat constructor. Qed.

(** X5. [PUT /admin/properties/:propertyId/status] with one of the four
    statuses, on a stored property and with an index that takes the
    document, is answered 200 and writes that status and [updatedAt], and
    nothing else, to that property alone. A body without a status, or
    with a text that is none of the four, is answered 400 and changes
    nothing. *)
Theorem set_status_writes_the_status (rt : Runtime) (now : Z)
    (propertyId : string) (body : gmap string jsval) (db : Db) :
  (forall i d s,
     cast_oid propertyId = Some i -> stored i db = Some d ->
     body !! "status" = Some (VScalar (SStr s)) -> s ∈ Schema.statuses ->
     let set := <["updatedAt" := BDate now]> (<["status" := BStr s]> d) in
     index_accepts rt set = true ->
     let r := AdminRoutes.set_status rt now propertyId body db in
     r.1 = reply 200 (Property set)
     /\ stored i r.2 = Some set
     /\ (forall j, j <> i -> stored j r.2 = stored j db)
     /\ users r.2 = users db)
  /\ ((body !! "status" = None
       \/ exists s, body !! "status" = Some (VScalar (SStr s))
                    /\ s ∉ Schema.statuses) ->
      exists errors,
        AdminRoutes.set_status rt now propertyId body db
        = (reply 400 (Errors errors), db)).
Proof.
  split.
  - intros i d s Hi Hd Hs Hin set Hacc r. subst r.
    unfold AdminRoutes.set_status, Validator.run, Validator.run_chain,
      Validator.instances, Validator.sanitize.
    cbn [flat_map foldr app]. rewrite Hs.
    cbn [fmap list_fmap filter list_filter Validator.check Validator.toString ToString].
    unfold Validator.isIn. rewrite bool_decide_eq_true_2 by done.
    rewrite decide_False by done. cbn [fmap list_fmap app].
    rewrite (findById_stored propertyId i db Hi), Hd, (stored_has_id i db d Hd).
    set (obj := ({[ "status" := VScalar (SStr s) ]} : gmap string jsval)).
    assert (Hobj : forall p v, obj !! p = Some v ->
                     p = "status" /\ v = VScalar (SStr s)).
    { intros p v [<- <-]%lookup_singleton_Some. done. }
    assert (Htop : unset_replaced obj d = d).
    { apply unset_replaced_top. intros k [v Hk].
      by destruct (Hobj k v Hk) as [-> _]. }
    destruct (apply_set_succeeds rt obj Schema.propertySchema d) as [d0 Hset].
    { intros p sp v Hp _ Hv. destruct (Hobj p v Hv) as [-> ->].
      rewrite <- (schema_entry _ _ _ status_entry Hp).
      exists (BStr s). split; [done|]. cbn. by rewrite bool_decide_eq_true_2. }
    assert (Hd0 : d0 = <["status" := BStr s]> d).
    { apply map_eq. intros p. destruct (decide (p = "status")) as [->|Hne].
      - rewrite lookup_insert_eq.
        destruct (apply_set_written rt obj _ d d0 "status" _ (VScalar (SStr s))
                    schema_paths_distinct status_entry) as (b & Hb & _ & ->);
          [done | apply lookup_singleton_eq | done |].
        symmetry. exact Hb.
      - rewrite lookup_insert_ne by done.
        apply (apply_set_kept rt obj Schema.propertySchema d d0 p); [|done].
        left. apply lookup_singleton_ne. congruence. }
    assert (Hu : Property_findByIdAndUpdate rt now i obj d db
                 = Some (set, with_properties db (replace_doc i set (properties db)))).
    { unfold Property_findByIdAndUpdate. rewrite Htop, Hset.
      cbn [mbind option_bind].
      assert (obj !! "_id" = None) as -> by (by apply lookup_singleton_ne).
      cbn [mbind option_bind]. rewrite Hd0. fold set. rewrite Hacc. reflexivity. }
    rewrite Hu. cbn [fst snd]. split; [reflexivity|].
    destruct (updated_store rt now i obj d set db _ Hd Hu) as (H1 & H2 & H3 & _).
    split; [exact H1|]. split; [exact H2 | exact H3].
  - intros Hbad.
    assert (Herr : exists e errors,
              flat_map (Validator.run_chain body)
                [("status", Validator.IsIn Schema.statuses, "Invalid status")]
              = e :: errors).
    { unfold Validator.run_chain, Validator.instances. cbn [flat_map app].
      destruct Hbad as [->|(s & -> & Hs)].
      - cbn [fmap list_fmap]. rewrite app_nil_r. by eexists _, _.
      - cbn [fmap list_fmap filter list_filter Validator.check Validator.toString
               ToString].
        unfold Validator.isIn. rewrite bool_decide_eq_false_2 by done.
        rewrite decide_True by done. by eexists _, _. }
    destruct Herr as (e & errors & Herr).
    exists (e :: errors). unfold AdminRoutes.set_status, Validator.run.
    by rewrite Herr.
Qed.

Lemma set_status_writes_the_status_witness :
  status (AdminRoutes.set_status Reference.runtime 2000 Sample.flat
            {[ "status" := VScalar (SStr "active") ]} Sample.listed).1
  = 200%nat.
Proof.
  destruct (set_status_writes_the_status Reference.runtime 2000 Sample.flat
              {[ "status" := VScalar (SStr "active") ]} Sample.listed)
    as (Hset & _).
  destruct (Hset Sample.flat Sample.stored_flat "active") as (H & _).
  - vm_compute. reflexivity.
  - vm_cast_no_check (eq_refl (Some Sample.stored_flat)).
  - vm_compute. reflexivity.
  - apply list_elem_of_here.
  - vm_compute. reflexivity.
  - rewrite H. reflexivity.
Defined.

(** ** One user is written, the others are left *)

Lemma is_user_spec (i : string) (u : User) : is_user i u = true <-> user_id u = i.
Proof. unfold is_user. rewrite String.eqb_eq. split; by intros ->. Qed.

Lemma find_user_id (i : string) (l : list User) (u : User) :
  List.find (is_user i) l = Some u -> user_id u = i.
Proof. intros [_ H]%find_some. by apply is_user_spec. Qed.

Lemma find_replace_user_same (i : string) (u u' : User) (l : list User) :
  List.find (is_user i) l = Some u -> user_id u' = i ->
  List.find (is_user i) (replace_user i u' l) = Some u'.
Proof.
  intros Hf Hu'. apply is_user_spec in Hu'. unfold replace_user.
  induction l as [|x l IH]; [done|]. cbn in *.
  destruct (is_user i x) eqn:Hx; [by rewrite Hu'|]. rewrite Hx. by apply IH.
Qed.

Lemma find_replace_user_other (i j : string) (u' : User) (l : list User) :
  j <> i -> user_id u' = i ->
  List.find (is_user j) (replace_user i u' l) = List.find (is_user j) l.
Proof.
  intros Hne Hu'. unfold replace_user. induction l as [|x l IH]; [done|]. cbn.
  destruct (is_user i x) eqn:Hx.
  - apply is_user_spec in Hx.
    assert (is_user j u' = false) as ->.
    { destruct (is_user j u') eqn:E; [|done]. apply is_user_spec in E. congruence. }
    assert (is_user j x = false) as ->; [|done].
    destruct (is_user j x) eqn:E; [|done]. apply is_user_spec in E. congruence.
  - by rewrite IH.
Qed.

Lemma replace_user_self (i : string) (u : User) (l : list User) :
  NoDup (user_id <$> l) -> List.find (is_user i) l = Some u ->
  replace_user i u l = l.
Proof.
  unfold replace_user. induction l as [|x l IH]; [done|].
  rewrite fmap_cons. intros [Hfresh Hnd]%NoDup_cons. cbn.
  destruct (is_user i x) eqn:Hx.
  - intros [= ->]. f_equal. apply is_user_spec in Hx. clear IH Hnd.
    induction l as [|y l IH]; [done|]. cbn.
    rewrite fmap_cons, not_elem_of_cons in Hfresh. destruct Hfresh as [Hne Hfresh].
    destruct (is_user i y) eqn:Hy.
    + apply is_user_spec in Hy. congruence.
    + by rewrite IH.
  - intros Hf. by rewrite IH.
Qed.

Lemma replace_user_twice (i : string) (u u' : User) (l : list User) :
  user_id u' = i ->
  replace_user i u (replace_user i u' l) = replace_user i u l.
Proof.
  intros Hu'%is_user_spec.
  unfold replace_user. rewrite <- list_fmap_compose. apply list_fmap_ext.
  intros _ x _. cbn. destruct (is_user i x) eqn:Hx; [|by rewrite Hx].
  by rewrite Hu'.
Qed.

Lemma filter_out_last (p : string) (l : list string) :
  p ∉ l ->
  List.filter (fun id => negb (String.eqb id p)) (l ++ [p]) = l.
Proof.
  induction l as [|x l IH]; intros Hp.
  - cbn. by rewrite String.eqb_refl.
  - rewrite not_elem_of_cons in Hp. destruct Hp as [Hne Hp]. cbn.
    destruct (String.eqb x p) eqn:E.
    + apply String.eqb_eq in E. congruence.
    + cbn. by rewrite IH.
Qed.

Lemma includes_app_here (p : string) (l : list string) :
  UserRoutes.includes p (l ++ [p]) = true.
Proof.
  unfold UserRoutes.includes. rewrite existsb_app. cbn.
  by rewrite String.eqb_refl, orb_true_r.
Qed.

(** X6. Making a property a favorite and removing it again is a round
    trip: for a user who exists, a stored property given by its
    identifier in canonical spelling and not yet a favorite, the add is
    answered 200 and puts the identifier last in the favorites; the
    remove that follows is answered 200 and, user identifiers being
    unique, gives back the store as it was. *)
Theorem favorite_added_then_removed (actor : Actor) (p : string) (db : Db)
    (u : User) (d : gmap string bson) :
  User_findById (actor_id actor) db = Some (Some u) ->
  Property_findById p db = Some (Some d) ->
  cast_oid p = Some p ->
  p ∉ user_favorites u ->
  NoDup (user_id <$> users db) ->
  let added := UserRoutes.add_favorite actor p db in
  added.1 = reply 200 (Success "Property added to favorites")
  /\ User_findById (actor_id actor) added.2
     = Some (Some (with_favorites u (user_favorites u ++ [p])))
  /\ properties added.2 = properties db
  /\ UserRoutes.remove_favorite actor p added.2
     = (reply 200 (Success "Property removed from favorites"), db).
Proof.
  intros Hu Hd Hp Hnot Hnd.
  assert (Hinc : UserRoutes.includes p (user_favorites u) = false).
  { destruct (UserRoutes.includes p (user_favorites u)) eqn:E; [|done].
    by apply includes_elem_of in E. }
  set (u' := with_favorites u (user_favorites u ++ [p])).
  assert (Hadd : UserRoutes.add_favorite actor p db
                 = (reply 200 (Success "Property added to favorites"),
                    with_users db (replace_user (user_id u) u' (users db)))).
  { unfold UserRoutes.add_favorite. by rewrite Hd, Hu, Hinc, Hp. }
  intros added. subst added. rewrite Hadd. cbn [fst snd].
  unfold UserRoutes.remove_favorite.
  unfold User_findById in *. destruct (cast_oid (actor_id actor)) as [i|]; [|done].
  injection Hu as Hu. pose proof (find_user_id i _ u Hu) as Hid.
  cbn [users properties with_users].
  assert (Hfind : List.find (is_user i) (replace_user (user_id u) u' (users db))
                  = Some u').
  { rewrite Hid. by apply (find_replace_user_same i u). }
  split; [done|]. split; [by rewrite Hfind|]. split; [done|].
  rewrite Hfind. subst u'. cbn [user_favorites with_favorites].
  rewrite includes_app_here. cbn [negb]. rewrite (filter_out_last p _ Hnot).
  f_equal. cbn [user_id with_favorites]. rewrite Hid.
  assert (Hback : with_favorites (with_favorites u (user_favorites u ++ [p]))
                    (user_favorites u) = u) by (by destruct u).
  rewrite Hback, replace_user_twice by done.
  rewrite (replace_user_self i u (users db) Hnd Hu). by destruct db.
Qed.

Lemma favorite_added_then_removed_witness :
  UserRoutes.remove_favorite Sample.bob Sample.flat
    (UserRoutes.add_favorite Sample.bob Sample.flat Sample.listed).2
  = (reply 200 (Success "Property removed from favorites"), Sample.listed).
Proof.
  destruct (favorite_added_then_removed Sample.bob Sample.flat Sample.listed
              (Sample.account Sample.bob "bob") Sample.stored_flat)
    as (_ & _ & _ & H).
  - vm_compute. reflexivity.
  - vm_cast_no_check (eq_refl (Some (Some Sample.stored_flat))).
  - vm_compute. reflexivity.
  - apply not_elem_of_nil.
  - apply (bool_decide_unpack _). vm_compute. reflexivity.
  - exact H.
Defined.

(** ** Roles *)

Lemma role_errors (body : gmap string jsval) :
  match body !! "role" with
  | Some (VScalar (SStr r)) =>
      if bool_decide (r ∈ roles)
      then flat_map (Validator.run_chain body)
             [("role", Validator.IsIn roles, "Invalid role")] = []
      else exists e errors,
             flat_map (Validator.run_chain body)
               [("role", Validator.IsIn roles, "Invalid role")] = e :: errors
  | None =>
      exists e errors,
        flat_map (Validator.run_chain body)
          [("role", Validator.IsIn roles, "Invalid role")] = e :: errors
  | _ => True
  end.
Proof.
  unfold Validator.run_chain, Validator.instances. cbn [flat_map app].
  destruct (body !! "role") as [[[b|z|r]|l]|]; try done.
  - cbn [fmap list_fmap filter list_filter Validator.check Validator.toString ToString].
    unfold Validator.isIn. case_bool_decide as Hr.
    + rewrite decide_False by done. reflexivity.
    + rewrite decide_True by done. by eexists _, _.
  - cbn [fmap list_fmap]. rewrite app_nil_r. by eexists _, _.
Qed.

(** X7. [PUT /admin/users/:userId/role] with one of the three roles, on
    a user who exists, is answered 200 and changes the role of that user
    and nothing else: the other fields of the user, the other users and
    the properties stay. A body without a role, or with a text that is
    none of the three, is answered 400; a user who does not exist, 404;
    neither changes the store. *)
Theorem set_role_writes_the_role (userId : string) (body : gmap string jsval)
    (db : Db) :
  (forall i u r,
     cast_oid userId = Some i -> List.find (is_user i) (users db) = Some u ->
     body !! "role" = Some (VScalar (SStr r)) -> r ∈ roles ->
     let res := AccountRoutes.set_role userId body db in
     res.1 = respond 200 (OneUser (Some (with_role u r)))
     /\ List.find (is_user i) (users res.2) = Some (with_role u r)
     /\ (forall j, j <> i ->
           List.find (is_user j) (users res.2) = List.find (is_user j) (users db))
     /\ properties res.2 = properties db)
  /\ ((body !! "role" = None
       \/ exists r, body !! "role" = Some (VScalar (SStr r)) /\ r ∉ roles) ->
      exists errors,
        AccountRoutes.set_role userId body db = (respond 400 (Invalid errors), db))
  /\ (forall i r,
        cast_oid userId = Some i -> List.find (is_user i) (users db) = None ->
        body !! "role" = Some (VScalar (SStr r)) -> r ∈ roles ->
        AccountRoutes.set_role userId body db
        = (respond 404 (Refused "User not found"), db)).
Proof.
  pose proof (role_errors body) as Herr.
  split; [|split].
  - intros i u r Hi Hu Hr Hin res. subst res. rewrite Hr in Herr.
    rewrite bool_decide_eq_true_2 in Herr by done.
    unfold AccountRoutes.set_role, Validator.run. rewrite Herr.
    cbn [Validator.sanitize foldr]. rewrite Hr.
    unfold User_findById. rewrite Hi, Hu. cbn [fst snd ToString users properties
      with_users].
    pose proof (find_user_id i _ u Hu) as Hid.
    assert (Hid' : user_id (with_role u r) = i) by done.
    rewrite Hid'.
    split; [done|]. split; [by apply (find_replace_user_same i u)|].
    split; [|done]. intros j Hj. by apply find_replace_user_other.
  - intros Hbad. unfold AccountRoutes.set_role, Validator.run.
    destruct Hbad as [Hn|(r & Hr & Hout)].
    + rewrite Hn in Herr. destruct Herr as (e & errors & ->). by eexists.
    + rewrite Hr in Herr. rewrite bool_decide_eq_false_2 in Herr by done.
      destruct Herr as (e & errors & ->). by eexists.
  - intros i r Hi Hu Hr Hin. rewrite Hr in Herr.
    rewrite bool_decide_eq_true_2 in Herr by done.
    unfold AccountRoutes.set_role, Validator.run. rewrite Herr.
    cbn [Validator.sanitize foldr]. rewrite Hr.
    unfold User_findById. by rewrite Hi, Hu.
Qed.

Lemma set_role_writes_the_role_witness :
  (AccountRoutes.set_role (actor_id Sample.bob)
     {[ "role" := VScalar (SStr "agent") ]} Sample.registered).1
  = respond 200 (OneUser (Some (with_role (Sample.account Sample.bob "bob") "agent"))).
Proof.
  destruct (set_role_writes_the_role (actor_id Sample.bob)
              {[ "role" := VScalar (SStr "agent") ]} Sample.registered)
    as (Hset & _).
  destruct (Hset (actor_id Sample.bob) (Sample.account Sample.bob "bob") "agent")
    as (H & _).
  - vm_compute. reflexivity.
  - vm_compute. reflexivity.
  - vm_compute. reflexivity.
  - unfold roles.
    repeat first [apply list_elem_of_here | apply list_elem_of_further].
  - exact H.
Defined.

(** ** The profile *)






(** ** The properties of a user *)

Lemma owner_entry :
  ("owner", Schema.req (Schema.path Schema.TObjectId)) ∈ Schema.propertySchema.
Proof. unfold Schema.propertySchema. repeat constructor. Qed.

(** The owner of a created document is the cast of the [owner] it was
    created with. *)
Lemma created_owner (rt : Runtime) (fresh : string) (now : Z)
    (obj : gmap string jsval) (db db' : Db) (d : gmap string bson) (a : string) :
  Property_create rt fresh now obj db = Some (d, db') ->
  obj !! "owner" = Some (VScalar (SStr a)) ->
  doc_owner d = cast_oid a /\ properties db' = properties db ++ [d].
Proof.
  intros Hc Ho.
  destruct (created_lookup rt fresh now obj db db' d "owner" _ Hc owner_entry)
    as (Hpath & Hprops & _); [done|done|].
  split; [|done]. unfold Schema.build_path in Hpath. rewrite Ho in Hpath.
  unfold Schema.cast, Schema.castObjectId in Hpath.
  cbn [Schema.type Schema.req Schema.path ToString] in Hpath.
  unfold doc_owner. destruct (cast_oid a) as [i|]; cbn [fmap option_fmap option_map] in Hpath.
  - destruct (Schema.valid _ _); [|done]. by injection Hpath as <-.
  - done.
Qed.

(** X9. [GET /users/properties], with a cursor sort that returns the
    documents it is given, lists the stored properties whose owner is the
    caller, and no other; a property the caller has just created (201)
    is among them. *)
Theorem my_properties_are_those_i_own (rt : Runtime) (actor : Actor)
    (i : string) (db : Db) :
  cast_oid (actor_id actor) = Some i ->
  (forall l, sort_properties rt "-createdAt" l ≡ₚ l) ->
  exists data,
    AccountRoutes.my_properties rt actor db = respond 200 (Listing data)
    /\ (forall d, d ∈ data.*1 <-> d ∈ properties db /\ doc_owner d = Some i)
    /\ (forall fresh now body before d,
          create rt fresh now actor body before = (reply 201 (Property d), db) ->
          d ∈ data.*1).
Proof.
  intros Hi Hsort. unfold AccountRoutes.my_properties. rewrite Hi.
  eexists. split; [reflexivity|].
  assert (Hmem : forall d,
            d ∈ (populate_owner db
                   <$> sort_properties rt "-createdAt"
                         (List.filter (AccountRoutes.owned_by i) (properties db))).*1
            <-> d ∈ properties db /\ doc_owner d = Some i).
  { intros d. rewrite <- list_fmap_compose.
    assert (Hid : forall l : list (gmap string bson),
              (fst ∘ populate_owner db) <$> l = l).
    { intros l. induction l as [|x l IH]; [done|]. cbn. by rewrite IH. }
    rewrite Hid, (Hsort _), list_elem_of_In, filter_In, <- list_elem_of_In.
    unfold AccountRoutes.owned_by. destruct (doc_owner d) as [j|]; [|naive_solver].
    rewrite String.eqb_eq. naive_solver. }
  split; [exact Hmem|].
  intros fresh now body before d. unfold create, Validator.run.
  destruct (flat_map _ _); [|done].
  destruct (Property_create _ _ _ _ _) as [[d' db']|] eqn:Hc; [|done].
  intros [= -> ->]. apply Hmem.
  destruct (created_owner _ _ _ _ _ _ _ _ Hc (lookup_insert_eq _ _ _)) as [Ho Hp].
  split; [|by rewrite Ho].
  rewrite Hp, elem_of_app. right. apply list_elem_of_here.
Qed.

Lemma my_properties_are_those_i_own_witness :
  exists data,
    AccountRoutes.my_properties Reference.runtime Sample.alice Sample.listed
    = respond 200 (Listing data)
    /\ Sample.stored_flat ∈ data.*1.
Proof.
  destruct (my_properties_are_those_i_own Reference.runtime Sample.alice
              (actor_id Sample.alice) Sample.listed) as (data & Hdata & _ & Hmine).
  - vm_compute. reflexivity.
  - intros l. apply merge_sort_Permutation.
  - exists data. split; [exact Hdata|].
    apply (Hmine Sample.flat 1000 Sample.listing Sample.registered).
    vm_cast_no_check
      (eq_refl (reply 201 (Property Sample.stored_flat), Sample.listed)).
Defined.

(** ** The router *)

(** X10. The search route can never be reached: no request is dispatched
    to it, because the route [/:id], defined before it, takes every path
    of one segment; [GET /search] goes to the handler of [/:id] with
    [search] as the identifier, which is no identifier, and is answered
    500 whatever the store. *)
Theorem search_route_is_shadowed :
  (forall m path r params,
     Router.dispatch m path = Some (r, params) -> r <> Router.ToSearch)
  /\ Router.dispatch Router.GET ["search"] = Some (Router.ToShow, [("id", "search")])
  /\ (forall rt now db,
        show rt now "search" db
        = (reply 500 (Failure "Error fetching property"), db)).
Proof.
  split; [|split; [reflexivity|]].
  - intros m path r params. unfold Router.dispatch, Router.routes.
    destruct m, path as [|x [|y [|z path]]]; cbn [Router.first_match
      Router.same_method Router.bind];
      repeat match goal with
             | |- context [if ?b then _ else _] => destruct b
             end;
      by intros [= <- _].
  - intros rt now db. unfold show, Property_findById.
    assert (cast_oid "search" = None) as -> by reflexivity. reflexivity.
Qed.

(** ** The dashboard *)

Lemma count_le {A} (f : A -> bool) (l : list A) :
  (length (List.filter f l) <= length l)%nat.
Proof. induction l as [|x l IH]; [done|]. cbn. destruct (f x); cbn; lia. Qed.

Lemma count_apart {A} (f g : A -> bool) (l : list A) :
  (forall x, f x = true -> g x = false) ->
  (length (List.filter f l) + length (List.filter g l) <= length l)%nat.
Proof.
  intros Hfg. induction l as [|x l IH]; [done|]. cbn.
  destruct (f x) eqn:Hf; [rewrite (Hfg x Hf)|destruct (g x)]; cbn; lia.
Qed.

(** X11. The counts of the dashboard fit together: the pending and the
    active properties are different properties, so together they are at
    most all properties; the agents are at most all users; and the
    inquiries are none exactly when no property has one. *)
Theorem dashboard_counts_fit (db : Db) :
  exists data,
    AdminRoutes.get_dashboard db = reply 200 (Dashboard data)
    /\ totalUsers data = length (users db)
    /\ totalProperties data = length (properties db)
    /\ (pendingProperties data + activeProperties data <= totalProperties data)%nat
    /\ (totalAgents data <= totalUsers data)%nat
    /\ (totalInquiries data = 0%nat
        <-> Forall (fun d => doc_inquiries d = []) (properties db)).
Proof.
  eexists. split; [reflexivity|].
  cbn [totalUsers totalProperties pendingProperties activeProperties totalAgents
       totalInquiries].
  split; [done|]. split; [done|]. split; [|split].
  - apply count_apart. intros d. unfold AdminRoutes.has_status.
    destruct (d !! "status") as [[]|]; try done.
    intros <-%String.eqb_eq. reflexivity.
  - apply count_le.
  - rewrite first_count_group, length_unwind_inquiries.
    induction (properties db) as [|d l IH]; [by split|]. cbn.
    rewrite Forall_cons, <- IH. destruct (doc_inquiries d); cbn; [|split; [lia|]];
      naive_solver.
Qed.

(** ** The defaults of a created property *)

Lemma sanitize_absent (rules : list (string * Validator.chain * string))
    (b : gmap string jsval) (p : string) :
  b !! p = None -> Validator.sanitize rules b !! p = None.
Proof.
  intros Hp. induction rules as [|[[path c] msg] rules IH]; [done|].
  cbn [Validator.sanitize foldr]. fold (Validator.sanitize rules b).
  destruct c; try done.
  destruct (decide (path = p)) as [->|Hne].
  - by rewrite IH.
  - destruct (Validator.sanitize_trim _); [|done].
    by rewrite lookup_insert_ne.
Qed.

Lemma createdAt_entry :
  ("createdAt", Schema.or_else Schema.DefaultNow (Schema.path Schema.TDate))
  ∈ Schema.propertySchema.
Proof. unfold Schema.propertySchema. repeat constructor. Qed.

Ltac find_entry :=
  unfold Schema.propertySchema;
  repeat first [apply list_elem_of_here | apply list_elem_of_further].

(** X12. A created property (201) holds, at each path the body leaves
    out, the default of the schema: currency INR, area unit sq ft, a
    Point, no amenities, status pending, not featured, zero views, no
    inquiries, and the time of creation; the optional paths without a
    default stay unset; and [updatedAt] is [createdAt]. *)
Theorem creation_fills_the_defaults (rt : Runtime) (fresh : string) (now : Z)
    (user : Actor) (body : gmap string jsval) (db db' : Db)
    (d : gmap string bson) :
  create rt fresh now user body db = (reply 201 (Property d), db') ->
  (forall p v, (p, v) ∈ filled_at_creation now -> body !! p = None ->
               d !! p = Some v)
  /\ (forall p, p ∈ left_unset -> body !! p = None -> d !! p = None)
  /\ d !! "updatedAt" = d !! "createdAt"
  /\ (body !! "_id" = None -> d !! "_id" = Some (BOid fresh)).
Proof.
  unfold create, Validator.run.
  destruct (flat_map _ _); [|done].
  destruct (Property_create _ _ _ _ _) as [[d' db'']|] eqn:Hc; [|done].
  intros [= -> ->].
  assert (Hpath : forall p s, (p, s) ∈ Schema.propertySchema -> p <> "owner" ->
            p <> "_id" -> p <> "updatedAt" -> body !! p = None ->
            d !! p = Schema.initial now s).
  { intros p s Hin Ho Hid Hup Hb.
    destruct (created_lookup _ _ _ _ _ _ _ p s Hc Hin Hid Hup) as [Hp _].
    unfold Schema.build_path in Hp.
    rewrite lookup_insert_ne, (sanitize_absent _ _ _ Hb) in Hp by done.
    destruct (Schema.valid _ _); [|done]. by injection Hp as <-. }
  assert (Hcreated : exists t, d !! "createdAt" = Some t).
  { destruct (created_lookup _ _ _ _ _ _ _ "createdAt" _ Hc createdAt_entry)
      as [Hp _]; [done|done|].
    unfold Schema.build_path in Hp.
    destruct (_ !! "createdAt") as [v|].
    - destruct (Schema.cast _ _ _) as [b|]; [|done].
      destruct (Schema.valid _ _); [|done]. injection Hp as <-. by exists b.
    - destruct (Schema.valid _ _); [|done]. injection Hp as <-.
      by exists (BDate now). }
  split; [|split; [|split]].
  - intros p v Hin Hb. unfold filled_at_creation in Hin.
    repeat (apply elem_of_cons in Hin as [[= -> ->]|Hin];
            [ erewrite Hpath; [| find_entry |done|done|done|done]; reflexivity |]).
    by apply elem_of_nil in Hin.
  - intros p Hin Hb. unfold left_unset in Hin.
    repeat (apply elem_of_cons in Hin as [->|Hin];
            [ erewrite Hpath; [| find_entry |done|done|done|done]; reflexivity |]).
    by apply elem_of_nil in Hin.
  - destruct Hcreated as [t Ht]. revert Hc Ht. unfold Property_create.
    destruct (Schema.build _ _ _ _) as [d0|]; [|done].
    cbn [mbind option_bind].
    destruct (match _ !! "_id" with Some _ => _ | None => _ end) as [i|]; [|done].
    cbn [mbind option_bind].
    destruct (existsb _ _); [done|]. destruct (index_accepts rt _); [|done].
    intros [= <- _]. destruct (_ !! "createdAt") as [t'|] eqn:Ht'.
    + rewrite lookup_insert_eq, lookup_insert_ne by done. by rewrite Ht'.
    + by rewrite Ht'.
  - intros Hid. clear Hcreated Hpath. revert Hc. unfold Property_create.
    destruct (Schema.build _ _ _ _) as [d0|]; [|done].
    cbn [mbind option_bind].
    rewrite lookup_insert_ne, (sanitize_absent _ _ _ Hid) by done.
    cbn [mbind option_bind].
    destruct (existsb _ _); [done|]. destruct (index_accepts rt _); [|done].
    intros [= <- _].
    destruct (<["_id":=BOid fresh]> d0 !! "createdAt");
      rewrite ?lookup_insert_ne by done; apply lookup_insert_eq.
Qed.

Lemma creation_fills_the_defaults_witness :
  Sample.stored_flat !! "views" = Some (BNum (Js.of_Z 0))
  /\ Sample.stored_flat !! "bedrooms" = None.
Proof.
  destruct (creation_fills_the_defaults Reference.runtime Sample.flat 1000
              Sample.alice Sample.listing Sample.registered Sample.listed
              Sample.stored_flat) as (Hfilled & Hunset & _).
  - vm_cast_no_check
      (eq_refl (reply 201 (Property Sample.stored_flat), Sample.listed)).
  - split.
    + apply Hfilled; [|vm_compute; reflexivity].
      unfold filled_at_creation.
      repeat first [apply list_elem_of_here | apply list_elem_of_further].
    + apply Hunset; [|vm_compute; reflexivity]. apply list_elem_of_here.
Defined.

(** ** The query of a listing request, path by path *)

Lemma lookup_set_if_eq (q : gmap string condition) (p : string)
    (o : option condition) :
  set_if p o q !! p = match o with Some c => Some c | None => q !! p end.
Proof. destruct o; [apply lookup_insert_eq|done]. Qed.

Ltac look :=
  repeat first [ rewrite lookup_set_if_eq
               | rewrite lookup_set_if_ne by done
               | rewrite lookup_insert_eq
               | rewrite lookup_insert_ne by done
               | rewrite lookup_empty ].

Lemma build_query_lookup (rt : Runtime) (q : gmap string string)
    (query : gmap string condition) :
  build_query rt q = Some query ->
  query !! "propertyType" = Equals <$> truthy (q !! "propertyType")
  /\ query !! "listingType" = Equals <$> truthy (q !! "listingType")
  /\ query !! "location.city"
     = (truthy (q !! "city") ≫= fun c => Matches <$> RegExp_i rt c)
  /\ query !! "location.state"
     = (truthy (q !! "state") ≫= fun c => Matches <$> RegExp_i rt c)
  /\ query !! "bedrooms" = Equals <$> truthy (q !! "bedrooms")
  /\ query !! "bathrooms" = Equals <$> truthy (q !! "bathrooms")
  /\ query !! "amenities" = AnyOf ∘ split_commas <$> truthy (q !! "amenities")
  /\ query !! "price"
     = match truthy (q !! "minPrice"), truthy (q !! "maxPrice") with
       | None, None => None
       | a, b => Some (Between (Js.StringToNumber <$> a) (Js.StringToNumber <$> b))
       end
  /\ (forall p, p ∉ filter_paths -> query !! p = None)
  /\ (forall c, truthy (q !! "city") = Some c -> is_Some (RegExp_i rt c))
  /\ (forall c, truthy (q !! "state") = Some c -> is_Some (RegExp_i rt c)).
Proof.
  unfold build_query.
  repeat match goal with
         | |- context [truthy (?q !! ?k)] =>
             generalize (truthy (q !! k)); intro
         end.
  intros Hq.
  assert (Hout : forall p, p ∉ filter_paths -> query !! p = None).
  { intros p Hp. unfold filter_paths in Hp.
    rewrite !not_elem_of_cons in Hp.
    destruct Hp as (? & ? & ? & ? & ? & ? & ? & ? & _).
    revert Hq.
    repeat match goal with
           | |- context [match ?o with Some _ => _ | None => _ end] =>
               is_var o; destruct o
           end;
    repeat match goal with
           | |- context [RegExp_i ?rt ?c] => destruct (RegExp_i rt c)
           end;
    cbn [mbind option_bind fmap option_fmap option_map];
    intros Hq; try discriminate Hq; injection Hq as <-;
    repeat first [ rewrite lookup_set_if_ne by (by apply not_eq_sym)
                 | rewrite lookup_insert_ne by (by apply not_eq_sym) ];
    apply lookup_empty. }
  revert Hq.
  match goal with
  | |- context [match ?o with Some c => _ <$> RegExp_i rt c | None => _ end] =>
      destruct o as [c|]; cbn [mbind option_bind];
      [destruct (RegExp_i rt c) eqn:?|]
  end; cbn [mbind option_bind fmap option_fmap option_map]; try discriminate;
  match goal with
  | |- context [match ?o with Some c => _ <$> RegExp_i rt c | None => _ end] =>
      destruct o as [c'|]; cbn [mbind option_bind];
      [destruct (RegExp_i rt c') eqn:?|]
  end; cbn [mbind option_bind fmap option_fmap option_map]; try discriminate;
  match goal with
  | |- context [match ?a with Some _ => _ | None => match ?b with _ => _ end end] =>
      destruct a, b
  end;
  intros [= <-]; split_and!; look; try reflexivity; try exact Hout;
  try (intros ? [= <-]; eauto);
  match goal with
  | |- match _ <$> ?o with _ => _ end = _ => by destruct o
  end.
Qed.

(** ** What a condition asks of the value of a path *)

Lemma conforms_typed (d : gmap string bson) (p : string) (s : Schema.pspec)
    (b : bson) :
  conforms d -> (p, s) ∈ Schema.propertySchema -> d !! p = Some b ->
  has_type (Schema.type s) b = true.
Proof.
  intros Hd Hin Hb. specialize (Hd p s Hin). unfold path_ok in Hd.
  rewrite Hb in Hd. by apply andb_true_iff in Hd as [_ Hd].
Qed.

Lemma meets_equals_text (d : gmap string bson) (p v : string)
    (s : Schema.pspec) :
  conforms d -> (p, s) ∈ Schema.propertySchema -> Schema.type s = Schema.TString ->
  meets (Equals v) (d !! p) = true <-> d !! p = Some (BStr v).
Proof.
  intros Hd Hin Ht. split.
  - destruct (d !! p) as [b|] eqn:Hb; [|done].
    pose proof (conforms_typed d p s b Hd Hin Hb) as Hty. rewrite Ht in Hty.
    destruct b; try done. cbn. by intros ->%String.eqb_eq.
  - intros ->. cbn. apply String.eqb_refl.
Qed.

Lemma meets_equals_number (d : gmap string bson) (p v : string)
    (s : Schema.pspec) :
  conforms d -> (p, s) ∈ Schema.propertySchema -> Schema.type s = Schema.TNumber ->
  meets (Equals v) (d !! p) = true
  <-> exists n, d !! p = Some (BNum n) /\ Js.eqb (Js.StringToNumber v) n = true.
Proof.
  intros Hd Hin Ht. split.
  - destruct (d !! p) as [b|] eqn:Hb; [|done].
    pose proof (conforms_typed d p s b Hd Hin Hb) as Hty. rewrite Ht in Hty.
    destruct b; try done. cbn. eauto.
  - by intros (n & -> & Hn).
Qed.

Lemma meets_matches (test : string -> bool) (o : option bson) :
  meets (Matches test) o = true <-> exists c, o = Some (BStr c) /\ test c = true.
Proof.
  split.
  - destruct o as [[]|]; try done. cbn. eauto.
  - by intros (c & -> & Hc).
Qed.

Lemma meets_any_of (values : list string) (o : option bson) :
  meets (AnyOf values) o = true
  <-> exists l a, o = Some (BStrs l) /\ a ∈ l /\ a ∈ values.
Proof.
  split.
  - destruct o as [[]|]; try done. cbn. intros (a & Ha & Hv)%existsb_exists.
    apply list_elem_of_In in Ha. apply bool_decide_eq_true in Hv. eauto.
  - intros (l & a & -> & Ha & Hv). cbn. apply existsb_exists. exists a.
    split; [by apply list_elem_of_In | by apply bool_decide_eq_true].
Qed.

Lemma meets_between (gte lte : option Js.number) (o : option bson) :
  meets (Between gte lte) o = true
  <-> exists n, o = Some (BNum n) /\ bounded gte lte n = true.
Proof.
  split.
  - destruct o as [[]|]; try done. cbn. eauto.
  - by intros (n & -> & Hn).
Qed.

Lemma propertyType_entry :
  ("propertyType",
    Schema.among Schema.property_types (Schema.req (Schema.path Schema.TString)))
  ∈ Schema.propertySchema.
Proof. find_entry. Qed.

Lemma listingType_entry :
  ("listingType",
    Schema.among Schema.listing_types (Schema.req (Schema.path Schema.TString)))
  ∈ Schema.propertySchema.
Proof. find_entry. Qed.

Lemma bedrooms_entry :
  ("bedrooms", Schema.at_least 0 (Schema.path Schema.TNumber))
  ∈ Schema.propertySchema.
Proof. find_entry. Qed.

Lemma bathrooms_entry :
  ("bathrooms", Schema.at_least 0 (Schema.path Schema.TNumber))
  ∈ Schema.propertySchema.
Proof. find_entry. Qed.

(** A document of a conforming collection matches the query of a request
    exactly when it is what the request asks. *)
Lemma matches_asked (rt : Runtime) (q : gmap string string)
    (query : gmap string condition) (d : gmap string bson) :
  build_query rt q = Some query -> conforms d ->
  matches query d = true <-> asked rt q d.
Proof.
  intros Hq Hd.
  destruct (build_query_lookup rt q query Hq)
    as (Hpt & Hlt & Hci & Hst & Hbe & Hba & Ham & Hpr & Hout & Rci & Rst).
  rewrite matches_spec. split.
  - intros Hm. split.
    + intros s Hs. rewrite Hs in Hpt.
      by apply (meets_equals_text d _ s _ Hd propertyType_entry), Hm.
    + intros s Hs. rewrite Hs in Hlt.
      by apply (meets_equals_text d _ s _ Hd listingType_entry), Hm.
    + intros s Hs. rewrite Hs in Hci. cbn [mbind option_bind] in Hci.
      destruct (Rci s Hs) as [test Hr]. rewrite Hr in Hci.
      apply Hm, meets_matches in Hci as (c & Hc & Ht). eauto.
    + intros s Hs. rewrite Hs in Hst. cbn [mbind option_bind] in Hst.
      destruct (Rst s Hs) as [test Hr]. rewrite Hr in Hst.
      apply Hm, meets_matches in Hst as (c & Hc & Ht). eauto.
    + intros s Hs. rewrite Hs in Hbe.
      by apply (meets_equals_number d _ s _ Hd bedrooms_entry), Hm.
    + intros s Hs. rewrite Hs in Hba.
      by apply (meets_equals_number d _ s _ Hd bathrooms_entry), Hm.
    + intros s Hs. rewrite Hs in Ham. by apply meets_any_of, Hm.
    + intros s Hs. rewrite Hs in Hpr.
      assert (exists lte, query !! "price"
                = Some (Between (Some (Js.StringToNumber s)) lte))
        as [lte Hp]
        by (rewrite Hpr; destruct (truthy (q !! "maxPrice")); cbn; eauto).
      apply Hm, meets_between in Hp as (n & Hn & Hb).
      apply andb_true_iff in Hb as [Hb _]. eauto.
    + intros s Hs. rewrite Hs in Hpr.
      assert (exists gte, query !! "price"
                = Some (Between gte (Some (Js.StringToNumber s))))
        as [gte Hp]
        by (rewrite Hpr; destruct (truthy (q !! "minPrice")); cbn; eauto).
      apply Hm, meets_between in Hp as (n & Hn & Hb).
      apply andb_true_iff in Hb as [_ Hb]. eauto.
  - intros [Apt Alt Aci Ast Abe Aba Aam Ami Ama] p c Hc.
    destruct (decide (p ∈ filter_paths)) as [Hp|Hp];
      [|by rewrite (Hout p Hp) in Hc].
    unfold filter_paths in Hp.
    repeat (apply elem_of_cons in Hp as [->|Hp]); [..|by apply elem_of_nil in Hp].
    + rewrite Hpt in Hc. destruct (truthy (q !! "propertyType")) as [s|]; [|done].
      injection Hc as <-.
      by apply (meets_equals_text d _ s _ Hd propertyType_entry), Apt.
    + rewrite Hlt in Hc. destruct (truthy (q !! "listingType")) as [s|]; [|done].
      injection Hc as <-.
      by apply (meets_equals_text d _ s _ Hd listingType_entry), Alt.
    + rewrite Hci in Hc. destruct (truthy (q !! "city")) as [s|]; [|done].
      destruct (Aci s eq_refl) as (test & t & Hr & Ht & Htest).
      cbn [mbind option_bind] in Hc. rewrite Hr in Hc. injection Hc as <-.
      apply meets_matches. eauto.
    + rewrite Hst in Hc. destruct (truthy (q !! "state")) as [s|]; [|done].
      destruct (Ast s eq_refl) as (test & t & Hr & Ht & Htest).
      cbn [mbind option_bind] in Hc. rewrite Hr in Hc. injection Hc as <-.
      apply meets_matches. eauto.
    + rewrite Hbe in Hc. destruct (truthy (q !! "bedrooms")) as [s|]; [|done].
      injection Hc as <-.
      by apply (meets_equals_number d _ s _ Hd bedrooms_entry), Abe.
    + rewrite Hba in Hc. destruct (truthy (q !! "bathrooms")) as [s|]; [|done].
      injection Hc as <-.
      by apply (meets_equals_number d _ s _ Hd bathrooms_entry), Aba.
    + rewrite Ham in Hc. destruct (truthy (q !! "amenities")) as [s|]; [|done].
      injection Hc as <-. by apply meets_any_of, Aam.
    + rewrite Hpr in Hc.
      destruct (truthy (q !! "minPrice")) as [a|],
               (truthy (q !! "maxPrice")) as [b|]; try done;
        injection Hc as <-; cbn [fmap option_fmap option_map];
        apply meets_between.
      * destruct (Ami a eq_refl) as (n & Hn & Hge).
        destruct (Ama b eq_refl) as (n' & Hn' & Hle).
        rewrite Hn in Hn'. injection Hn' as <-. exists n. split; [done|].
        unfold bounded. by rewrite Hge, Hle.
      * destruct (Ami a eq_refl) as (n & Hn & Hge). exists n. split; [done|].
        unfold bounded. by rewrite Hge.
      * destruct (Ama b eq_refl) as (n & Hn & Hle). exists n. split; [done|].
        unfold bounded. by rewrite Hle.
Qed.

(** X13. On a collection that conforms to the schema, and for a request
    whose parameters are each given once under a key without brackets,
    the filter of [GET /properties] finds the stored properties that are
    what the request asks, each parameter that is present and not empty
    constraining its path, and no other; it finds them in the order of
    the collection. *)
Theorem filter_finds_what_is_asked (rt : Runtime) (q : gmap string string)
    (db : Db) (found : list (gmap string bson)) :
  plain q -> store_conforms db -> matching rt q db = Some found ->
  (forall d, d ∈ found <-> d ∈ properties db /\ asked rt q d)
  /\ sublist found (properties db).
Proof.
  intros _ Hdb. unfold matching.
  destruct (build_query rt q) as [query|] eqn:Hq; [|done].
  unfold Property_find. destruct (forallb _ _); [|done]. intros [= <-].
  split.
  - intros d. rewrite list_elem_of_In, filter_In, <- list_elem_of_In.
    split; intros [Hin Hm]; (split; [done|]);
      (eapply matches_asked; [exact Hq| |exact Hm]);
      by eapply (proj1 (Forall_forall _ _) Hdb).
  - induction (properties db) as [|d l IH]; [done|]. cbn.
    destruct (matches query d); by constructor.
Qed.

Lemma filter_finds_what_is_asked_witness :
  Sample.stored_flat ∈ properties Sample.listed
  /\ asked Reference.runtime Sample.in_pune Sample.stored_flat.
Proof.
  destruct (filter_finds_what_is_asked Reference.runtime Sample.in_pune
              Sample.listed [Sample.stored_flat]) as [H _].
  - apply (bool_decide_unpack _). vm_compute. reflexivity.
  - exact (store_after_conforms Reference.runtime
             (CreateProperty Sample.flat 1000 Sample.alice Sample.listing)
             Sample.registered I (List.Forall_nil _)).
  - vm_cast_no_check (eq_refl (Some [Sample.stored_flat])).
  - apply H, list_elem_of_here.
Defined.

Ltac in_list :=
  solve [repeat first [apply list_elem_of_here | apply list_elem_of_further]].

(** ** Parameters that are empty *)

Lemma truthy_blank (q : gmap string string) (k key : string) :
  truthy (<[k := ""]> q !! key) = truthy (delete k q !! key).
Proof.
  destruct (decide (k = key)) as [->|Hne].
  - by rewrite lookup_insert_eq, lookup_delete_eq.
  - by rewrite lookup_insert_ne, lookup_delete_ne.
Qed.

Lemma build_query_blank (rt : Runtime) (q : gmap string string) (k : string) :
  build_query rt (<[k := ""]> q) = build_query rt (delete k q).
Proof. unfold build_query. by rewrite !truthy_blank. Qed.

(** X14. A parameter of [GET /properties] that is present and empty
    filters nothing: the request matches what it matches without the
    parameter, and, unless the parameter is [page], [limit] or [sort],
    is answered the same. *)
Theorem blank_parameter_is_no_filter (rt : Runtime) (q : gmap string string)
    (k : string) (db : Db) :
  matching rt (<[k := ""]> q) db = matching rt (delete k q) db
  /\ (k ∉ ["page"; "limit"; "sort"] ->
      list_properties rt (<[k := ""]> q) db = list_properties rt (delete k q) db).
Proof.
  split.
  - unfold matching. by rewrite build_query_blank.
  - rewrite !not_elem_of_cons. intros (Hp & Hl & Hs & _).
    unfold list_properties.
    rewrite build_query_blank, !lookup_insert_ne, !lookup_delete_ne by done.
    reflexivity.
Qed.

Lemma blank_parameter_is_no_filter_witness :
  list_properties Reference.runtime (<["city" := ""]> Sample.in_pune) Sample.listed
  = list_properties Reference.runtime (delete "city" Sample.in_pune) Sample.listed.
Proof.
  apply (blank_parameter_is_no_filter Reference.runtime Sample.in_pune "city"
           Sample.listed).
  apply (bool_decide_unpack _). vm_compute. reflexivity.
Defined.

(** ** Requests the listing cannot run *)

Lemma build_query_fails (rt : Runtime) (q : gmap string string) :
  build_query rt q = None
  <-> exists k s, k ∈ pattern_parameters /\ truthy (q !! k) = Some s
                  /\ RegExp_i rt s = None.
Proof.
  unfold build_query, pattern_parameters. split.
  - destruct (truthy (q !! "city")) as [c|] eqn:Hc;
      [destruct (RegExp_i rt c) eqn:Hrc|];
      cbn [mbind option_bind fmap option_fmap option_map];
      try (intros _; exists "city", c; split; [in_list|done]);
      (destruct (truthy (q !! "state")) as [c'|] eqn:Hc';
         [destruct (RegExp_i rt c') eqn:Hrc'|];
         cbn [mbind option_bind fmap option_fmap option_map]; try done;
         intros _; exists "state", c'; split; [in_list|done]).
  - intros (k & s & Hk & Hs & Hr).
    apply elem_of_cons in Hk as [->|Hk];
      [|apply elem_of_cons in Hk as [->|Hk]; [|by apply elem_of_nil in Hk]].
    + rewrite Hs. cbn [mbind option_bind]. by rewrite Hr.
    + rewrite Hs.
      destruct (truthy (q !! "city")) as [c|]; [destruct (RegExp_i rt c)|];
        cbn [mbind option_bind fmap option_fmap option_map]; try done;
        by rewrite Hr.
Qed.

Lemma text_path (p : string) :
  p ∈ ["propertyType"; "listingType"; "location.city"; "location.state";
       "amenities"] ->
  forall c, cast_condition p c = true.
Proof.
  intros Hp c.
  repeat (apply elem_of_cons in Hp as [->|Hp]); [..|by apply elem_of_nil in Hp];
    unfold cast_condition;
    match goal with
    | |- context [path_type ?p] =>
        let H := fresh in
        assert (exists t, path_type p = Some t /\ t <> Schema.TNumber)
          as (t & -> & H)
          by (eexists; split; [vm_compute; reflexivity | discriminate]);
        by destruct t, c
    end.
Qed.

Lemma number_path (p : string) :
  p ∈ ["bedrooms"; "bathrooms"; "price"] ->
  path_type p = Some Schema.TNumber.
Proof.
  intros Hp.
  repeat (apply elem_of_cons in Hp as [->|Hp]); [..|by apply elem_of_nil in Hp];
    vm_compute; reflexivity.
Qed.

(** X15. For a request whose parameters are each given once under a key
    without brackets, the filter of [GET /properties] fails exactly when
    a parameter of a numeric path ([bedrooms], [bathrooms], [minPrice],
    [maxPrice]) is present and is no number, or when the text of [city]
    or [state] does not compile to a regular expression; the request is
    then answered 500. *)
Theorem filter_fails_exactly (rt : Runtime) (q : gmap string string) (db : Db) :
  plain q ->
  (matching rt q db = None
   <-> (exists k s, k ∈ numeric_parameters /\ truthy (q !! k) = Some s
                    /\ Js.isNaN (Js.StringToNumber s) = true)
       \/ (exists k s, k ∈ pattern_parameters /\ truthy (q !! k) = Some s
                       /\ RegExp_i rt s = None))
  /\ (matching rt q db = None ->
      list_properties rt q db = reply 500 (Failure "Error fetching properties")).
Proof.
  intros _.
  split.
  - unfold matching.
    destruct (build_query rt q) as [query|] eqn:Hq.
    + assert (Hcompiles : ~ exists k s, k ∈ pattern_parameters
                /\ truthy (q !! k) = Some s /\ RegExp_i rt s = None).
      { intros H. apply build_query_fails in H. by rewrite Hq in H. }
      destruct (build_query_lookup rt q query Hq)
        as (Hpt & Hlt & Hci & Hst & Hbe & Hba & Ham & Hpr & Hout & _ & _).
      unfold Property_find.
      destruct (forallb _ _) eqn:Hcast.
      * split; [done|]. intros [(k & s & Hk & Hs & Hnan)|H]; [|done].
        exfalso. rewrite castable_spec in Hcast. unfold numeric_parameters in Hk.
        repeat (apply elem_of_cons in Hk as [->|Hk]);
          [..|by apply elem_of_nil in Hk].
        -- rewrite Hs in Hbe. specialize (Hcast _ _ Hbe).
           unfold cast_condition in Hcast.
           rewrite number_path, Hnan in Hcast by in_list. done.
        -- rewrite Hs in Hba. specialize (Hcast _ _ Hba).
           unfold cast_condition in Hcast.
           rewrite number_path, Hnan in Hcast by in_list. done.
        -- rewrite Hs in Hpr.
           assert (exists lte, query !! "price"
                     = Some (Between (Some (Js.StringToNumber s)) lte))
             as [lte Hp]
             by (rewrite Hpr; destruct (truthy (q !! "maxPrice")); cbn; eauto).
           specialize (Hcast _ _ Hp). unfold cast_condition in Hcast.
           rewrite number_path in Hcast by in_list.
           cbn [castable] in Hcast. by rewrite Hnan in Hcast.
        -- rewrite Hs in Hpr.
           assert (exists gte, query !! "price"
                     = Some (Between gte (Some (Js.StringToNumber s))))
             as [gte Hp]
             by (rewrite Hpr; destruct (truthy (q !! "minPrice")); cbn; eauto).
           specialize (Hcast _ _ Hp). unfold cast_condition in Hcast.
           rewrite number_path in Hcast by in_list.
           cbn [castable] in Hcast. rewrite Hnan in Hcast.
           by rewrite andb_false_r in Hcast.
      * split; [|done]. intros _. left.
        apply not_true_iff_false in Hcast. rewrite castable_spec in Hcast.
        unfold numeric_parameters.
        destruct (truthy (q !! "bedrooms")) as [s|] eqn:Hs1;
          [destruct (Js.isNaN (Js.StringToNumber s)) eqn:Hn1;
           [exists "bedrooms", s; split; [in_list|done]|]|];
        (destruct (truthy (q !! "bathrooms")) as [s2|] eqn:Hs2;
          [destruct (Js.isNaN (Js.StringToNumber s2)) eqn:Hn2;
           [exists "bathrooms", s2; split; [in_list|done]|]|]);
        (destruct (truthy (q !! "minPrice")) as [s3|] eqn:Hs3;
          [destruct (Js.isNaN (Js.StringToNumber s3)) eqn:Hn3;
           [exists "minPrice", s3; split; [in_list|done]|]|]);
        (destruct (truthy (q !! "maxPrice")) as [s4|] eqn:Hs4;
          [destruct (Js.isNaN (Js.StringToNumber s4)) eqn:Hn4;
           [exists "maxPrice", s4; split; [in_list|done]|]|]);
        exfalso; apply Hcast; intros p c Hc;
        (destruct (decide (p ∈ filter_paths)) as [Hp|Hp];
           [|by rewrite (Hout p Hp) in Hc]);
        unfold filter_paths in Hp;
        (repeat (apply elem_of_cons in Hp as [->|Hp]);
           [..|by apply elem_of_nil in Hp]);
        try (apply text_path; in_list);
        unfold cast_condition; rewrite number_path by in_list;
        first [ rewrite Hbe in Hc | rewrite Hba in Hc | rewrite Hpr in Hc ];
        cbn [fmap option_fmap option_map] in Hc; try done;
        injection Hc as <-; cbn [castable];
        rewrite ?Hn1, ?Hn2, ?Hn3, ?Hn4; reflexivity.
    + split; [|done]. intros _. right. by apply build_query_fails.
  - unfold matching, list_properties.
    destruct (build_query rt q) as [query|]; [|done].
    by destruct (Property_find query db).
Qed.

Lemma filter_fails_exactly_witness :
  list_properties Reference.runtime {[ "bedrooms" := "two" ]} Sample.listed
  = reply 500 (Failure "Error fetching properties").
Proof.
  destruct (filter_fails_exactly Reference.runtime {[ "bedrooms" := "two" ]}
              Sample.listed) as [Hiff H500].
  { apply (bool_decide_unpack _). vm_compute. reflexivity. }
  apply H500, Hiff. left. exists "bedrooms", "two".
  split; [apply list_elem_of_here|]. split; vm_compute; reflexivity.
Defined.

(** ** Numeric text *)










Lemma errors_none (rules : list (string * Validator.chain * string))
    (body : gmap string jsval) (p : string) (c : Validator.chain) (msg : string)
    (x : scalar) :
  (Validator.run rules body).1 = [] -> (p, c, msg) ∈ rules ->
  body !! p = Some (VScalar x) -> Validator.check c (Some x) = true.
Proof.
  unfold Validator.run. cbn [fst]. intros Hnone Hin Hx.
  induction rules as [|rule rules IH]; [by apply elem_of_nil in Hin|].
  cbn [flat_map] in Hnone. apply app_eq_nil in Hnone as [Hhere Hrest].
  apply elem_of_cons in Hin as [<-|Hin]; [|by apply IH].
  unfold Validator.run_chain in Hhere. rewrite Hx in Hhere.
  cbn [Validator.instances] in Hhere.
  destruct (Validator.check c (Some x)) eqn:Hc; [done|].
  rewrite filter_cons_True in Hhere by done. done.
Qed.



Lemma price_entry :
  ("price", Schema.req (Schema.path Schema.TNumber)) ∈ Schema.propertySchema.
Proof. find_entry. Qed.

Lemma conforms_required (d : gmap string bson) (p : string) (s : Schema.pspec) :
  conforms d -> (p, s) ∈ Schema.propertySchema -> Schema.required s = true ->
  exists b, d !! p = Some b /\ has_type (Schema.type s) b = true
            /\ b <> BNull /\ b <> BStr "".
Proof.
  intros Hd Hin Hreq. specialize (Hd p s Hin). unfold path_ok, Schema.valid in Hd.
  rewrite Hreq in Hd. cbn [negb orb] in Hd.
  destruct (d !! p) as [b|]; [|done]. exists b.
  apply andb_true_iff in Hd as [[Hp _]%andb_true_iff Ht].
  repeat split; [done|by intros -> |by intros ->].
Qed.

Lemma conforms_enum (d : gmap string bson) (p : string) (s : Schema.pspec)
    (values : list string) (t : string) :
  conforms d -> (p, s) ∈ Schema.propertySchema -> Schema.enum s = Some values ->
  d !! p = Some (BStr t) -> t ∈ values.
Proof.
  intros Hd Hin He Ht. specialize (Hd p s Hin). unfold path_ok, Schema.valid in Hd.
  rewrite Ht, He in Hd.
  apply andb_true_iff in Hd as [[_ [Hv _]%andb_true_iff]%andb_true_iff _].
  by apply bool_decide_eq_true in Hv.
Qed.

(** X17. No sequence of requests to the routes that write, in which each
    update names the position of its property, leaves a property that
    does not conform to the schema: from a collection in which every
    property conforms (each validator of each path passes and each value
    is of the type of its path), every stored property conforms after
    the requests. It then has an owner, a price that is a number, a type
    and a listing type among those of the schema, a status among the
    four if it has one, and no negative count of rooms or parking
    places. An update that does not name the position is left out: the
    [location] it sends replaces the stored one, and with it the
    coordinates, which the schema requires. *)
Theorem routes_keep_the_schema (rt : Runtime) (rs : list request) (db : Db) :
  Forall names_position rs -> store_conforms db ->
  store_conforms (store_after_all rt rs db)
  /\ forall d, d ∈ properties (store_after_all rt rs db) ->
       (exists i, doc_owner d = Some i)
       /\ (exists n, d !! "price" = Some (BNum n) /\ Js.isNaN n = false)
       /\ (exists t, d !! "propertyType" = Some (BStr t)
                     /\ t ∈ Schema.property_types)
       /\ (exists t, d !! "listingType" = Some (BStr t)
                     /\ t ∈ Schema.listing_types)
       /\ (forall b, d !! "status" = Some b ->
             exists t, b = BStr t /\ t ∈ Schema.statuses)
       /\ (forall p n, p ∈ ["bedrooms"; "bathrooms"; "parking"] ->
             d !! p = Some (BNum n) -> Js.leb (Js.of_Z 0) n = true).
Proof.
  intros Hrs Hdb.
  assert (Hall : store_conforms (store_after_all rt rs db)).
  { unfold store_after_all. revert db Hdb.
    induction Hrs as [|r rs Hr Hrs IH]; intros db Hdb; [done|].
    cbn [foldl]. by apply IH, store_after_conforms. }
  split; [exact Hall|]. intros d Hd.
  assert (Hc : conforms d) by by eapply (proj1 (Forall_forall _ _) Hall).
  split_and!.
  - destruct (conforms_required d _ _ Hc owner_entry eq_refl) as (b & Hb & Ht & _).
    unfold doc_owner. rewrite Hb. destruct b; try done. by eexists.
  - destruct (conforms_required d _ _ Hc price_entry eq_refl)
      as (b & Hb & Ht & Hnull & _).
    destruct b; try done. eexists. split; [done|].
    by apply negb_true_iff in Ht.
  - destruct (conforms_required d _ _ Hc propertyType_entry eq_refl)
      as (b & Hb & Ht & _).
    destruct b; try done. eexists. split; [done|].
    by apply (conforms_enum d _ _ _ _ Hc propertyType_entry eq_refl).
  - destruct (conforms_required d _ _ Hc listingType_entry eq_refl)
      as (b & Hb & Ht & _).
    destruct b; try done. eexists. split; [done|].
    by apply (conforms_enum d _ _ _ _ Hc listingType_entry eq_refl).
  - intros b Hb. pose proof (conforms_typed d _ _ b Hc status_entry Hb) as Ht.
    destruct b; try done. eexists. split; [done|].
    by apply (conforms_enum d _ _ _ _ Hc status_entry eq_refl).
  - intros p n Hp Hn.
    assert (Hin : (p, Schema.at_least 0 (Schema.path Schema.TNumber))
                  ∈ Schema.propertySchema).
    { repeat (apply elem_of_cons in Hp as [->|Hp]);
        [..|by apply elem_of_nil in Hp]; find_entry. }
    specialize (Hc p _ Hin). unfold path_ok, Schema.valid in Hc.
    rewrite Hn in Hc.
    cbn [Schema.required Schema.enum Schema.min Schema.at_least Schema.path
         Schema.type Schema.present Schema.above has_type negb orb andb] in Hc.
    by apply andb_true_iff in Hc as [? _].
Qed.

Lemma routes_keep_the_schema_witness :
  store_conforms
    (store_after_all Reference.runtime
       [CreateProperty Sample.flat 1000 Sample.alice Sample.listing;
        UpdateProperty 2000 Sample.alice Sample.flat Sample.listing;
        ShowProperty 3000 Sample.flat]
       Sample.registered).
Proof.
  apply (routes_keep_the_schema Reference.runtime
           [CreateProperty Sample.flat 1000 Sample.alice Sample.listing;
            UpdateProperty 2000 Sample.alice Sample.flat Sample.listing;
            ShowProperty 3000 Sample.flat]
           Sample.registered).
  - repeat constructor. simpl. vm_compute. by eexists.
  - unfold store_conforms. simpl. constructor.
Defined.

(** ** The admin listings and the dashboard *)

(** X18. The totals of the admin listings are the counts of the
    dashboard: [GET /admin/properties/pending] reports as total the
    dashboard's pending properties, [GET /admin/users] its users, and
    with [role=agent] its agents, whatever page and limit are asked
    for. *)
Theorem admin_totals_are_the_dashboard_counts (rt : Runtime)
    (q : gmap string string) (db : Db) (board : dashboard) :
  AdminRoutes.get_dashboard db = reply 200 (Dashboard board) ->
  (forall data p,
     AdminRoutes.list_pending rt q db = reply 200 (Properties data p) ->
     total p = pendingProperties board)
  /\ (forall data p,
        AdminRoutes.list_users rt (delete "role" q) db = reply 200 (Users data p) ->
        total p = totalUsers board)
  /\ (forall data p,
        AdminRoutes.list_users rt (<["role" := "agent"]> q) db
        = reply 200 (Users data p) ->
        total p = totalAgents board).
Proof.
  intros [= <-]. split; [|split]; intros data p.
  - unfold AdminRoutes.list_pending. destruct (windowed _ _ _ _); [|done].
    by intros [= _ <-].
  - unfold AdminRoutes.list_users. rewrite lookup_delete_eq. cbn [truthy].
    destruct (windowed _ _ _ _); [|done]. by intros [= _ <-].
  - unfold AdminRoutes.list_users. rewrite lookup_insert_eq.
    assert (truthy (Some "agent") = Some "agent") as -> by reflexivity.
    destruct (windowed _ _ _ _); [|done]. by intros [= _ <-].
Qed.

Lemma admin_totals_are_the_dashboard_counts_witness :
  total (pagination_of 0 (SInt 1) (SInt 10)) = 0%nat.
Proof.
  destruct (admin_totals_are_the_dashboard_counts Reference.runtime ∅
              Sample.registered
              {| totalUsers := 2; totalProperties := 0; pendingProperties := 0;
                 activeProperties := 0; totalAgents := 0; totalInquiries := 0 |})
    as (_ & _ & Hagents).
  - vm_compute. reflexivity.
  - apply (Hagents []). vm_compute. reflexivity.
Defined.
